(** * daily.ts: the daily-challenge scaffolding scripts, embedded in Rocq

    The source file holds two iterations of the same script.  The first
    (lines 1-638) is written with free functions ([toKebabCase],
    [formatProblemFile], [hasContent], [createSolutionFiles],
    [getDailyLeetcodeChallengeWithPuppeteer], [getDailyLeetcodeChallenge]);
    it lives in [Module V1].  The second (lines 639-1242) is written with
    classes ([GraphQLClient], [PuppeteerScraper], [FileManager],
    [LeetCodeDailyChallenge]); it lives in [Module V2].  What both share
    (string primitives, the catalogs, [path.join]) comes first.

    Strings.  A JavaScript string is a sequence of code units; here it is a
    [string] whose characters are the code units below 256, which is the
    range the scripts' own patterns and delimiters live in.  The newline
    the source writes as an escape is [nl]. *)

From Stdlib Require Import String Ascii List Bool Arith Lia.
Import ListNotations.
Open Scope list_scope.
Open Scope string_scope.
Open Scope nat_scope.

(* ================================================================== *)
(** ** JavaScript string primitives *)

Module JS.

Definition nl : string := String "010"%char EmptyString.

Definition code (c : ascii) : nat := nat_of_ascii c.

Definition between (lo hi : nat) (c : ascii) : bool :=
  (lo <=? code c) && (code c <=? hi).

(** White space and line terminators as [String.prototype.trim] and the
    pattern class [\s] see them: TAB, LF, VT, FF, CR, SPACE and NBSP. *)
Definition isSpace (c : ascii) : bool :=
  between 9 13 c || (code c =? 32) || (code c =? 160).

(** [toLowerCase] on one code unit: A-Z, and the upper-case letters of the
    Latin-1 block (all of 192..222 but the multiplication sign 215). *)
Definition lowerChar (c : ascii) : ascii :=
  if between 65 90 c || (between 192 222 c && negb (code c =? 215))
  then ascii_of_nat (code c + 32)
  else c.

Fixpoint toLowerCase (s : string) : string :=
  match s with
  | EmptyString => EmptyString
  | String c r => String (lowerChar c) (toLowerCase r)
  end.

Fixpoint trimStart (s : string) : string :=
  match s with
  | EmptyString => EmptyString
  | String c r => if isSpace c then trimStart r else s
  end.

Fixpoint trimEnd (s : string) : string :=
  match s with
  | EmptyString => EmptyString
  | String c r =>
      match trimEnd r with
      | EmptyString => if isSpace c then EmptyString else String c EmptyString
      | r' => String c r'
      end
  end.

Definition trim (s : string) : string := trimEnd (trimStart s).

(** [s.startsWith(p)] *)
Fixpoint startsWith (p s : string) : bool :=
  match p with
  | EmptyString => true
  | String a p' =>
      match s with
      | EmptyString => false
      | String b s' => Ascii.eqb a b && startsWith p' s'
      end
  end.

(** [s.includes(p)] *)
Fixpoint includes (p s : string) : bool :=
  startsWith p s ||
  match s with
  | EmptyString => false
  | String _ r => includes p r
  end.

(** [s.split("\n")]: always at least one piece. *)
Fixpoint splitLines (s : string) : list string :=
  match s with
  | EmptyString => [EmptyString]
  | String c r =>
      if Ascii.eqb c "010"%char then EmptyString :: splitLines r
      else match splitLines r with
           | h :: t => String c h :: t
           | [] => [String c EmptyString]
           end
  end.

(** [pieces.join] with the empty separator *)
Definition joinEmpty (l : list string) : string := String.concat EmptyString l.

(** [s.replace(/re/g, rep)] for a pattern that never matches the empty
    string.  The matcher [m] answers, for the text that starts at the
    current position, the length of the match there ([None]: no match).
    Scanning is left to right; after a match it resumes behind the match,
    which [skip] counts down. *)
Fixpoint gsub (m : string -> option nat) (rep : string) (skip : nat)
              (s : string) : string :=
  match s with
  | EmptyString => EmptyString
  | String c r =>
      match skip with
      | S k => gsub m rep k r
      | O =>
          match m s with
          | Some (S k) => rep ++ gsub m rep k r
          | _ => String c (gsub m rep 0 r)
          end
      end
  end.

Definition replaceAll (m : string -> option nat) (rep s : string) : string :=
  gsub m rep 0 s.

(** Length of the longest run at the start whose characters satisfy [p]. *)
Fixpoint spanLen (p : ascii -> bool) (s : string) : nat :=
  match s with
  | EmptyString => 0
  | String c r => if p c then S (spanLen p r) else 0
  end.

Fixpoint dropN (n : nat) (s : string) : string :=
  match n, s with
  | O, _ => s
  | S k, EmptyString => EmptyString
  | S k, String _ r => dropN k r
  end.

(** [/\s+/] *)
Definition reSpaces (s : string) : option nat :=
  match spanLen isSpace s with
  | O => None
  | n => Some n
  end.

(** The characters of the class [[a-z0-9-]]. *)
Definition isSlugChar (c : ascii) : bool :=
  between 97 122 c || between 48 57 c || (code c =? 45).

(** [/[^a-z0-9-]/] *)
Definition reNotSlug (s : string) : option nat :=
  match s with
  | String c _ => if isSlugChar c then None else Some 1
  | EmptyString => None
  end.

Definition notGt (c : ascii) : bool := negb (Ascii.eqb c ">"%char).

(** [/<[^>]+>/]: an opening angle bracket, the longest non-empty run of
    characters other than the closing bracket, and the closing bracket. *)
Definition reTag (s : string) : option nat :=
  match s with
  | String c r =>
      if Ascii.eqb c "<"%char then
        match spanLen notGt r with
        | O => None
        | n => match dropN n r with
               | String d _ => if Ascii.eqb d ">"%char then Some (S (S n)) else None
               | EmptyString => None
               end
        end
      else None
  | EmptyString => None
  end.

(** A literal pattern such as [/&nbsp;/] or [/-/]. *)
Definition reLit (p : string) (s : string) : option nat :=
  if startsWith p s then Some (String.length p) else None.

End JS.

(* ================================================================== *)
(** ** [path.join] of node:path (POSIX flavour)

    The scripts build every target path with [path.join].  It joins its
    non-empty arguments with a slash and normalizes the result: empty and
    single-dot segments vanish, a double-dot segment removes the segment
    before it. *)

Module Path.

Fixpoint segments (s : string) : list string :=
  match s with
  | EmptyString => [EmptyString]
  | String c r =>
      if Ascii.eqb c "/"%char then EmptyString :: segments r
      else match segments r with
           | h :: t => String c h :: t
           | [] => [String c EmptyString]
           end
  end.

(** One step of [normalizeString]; the stack has its top first. *)
Definition pushSeg (allowAboveRoot : bool) (stack : list string)
                   (seg : string) : list string :=
  if (seg =? EmptyString)%string || (seg =? ".")%string then stack
  else if (seg =? "..")%string then
    match stack with
    | top :: rest =>
        if (top =? "..")%string
        then (if allowAboveRoot then ".." :: stack else stack)
        else rest
    | [] => if allowAboveRoot then [".."] else []
    end
  else seg :: stack.

Definition normalizeString (p : string) (allowAboveRoot : bool) : string :=
  String.concat "/" (rev (fold_left (pushSeg allowAboveRoot) (segments p) [])).

Fixpoint lastChar (s : string) : option ascii :=
  match s with
  | EmptyString => None
  | String c EmptyString => Some c
  | String _ r => lastChar r
  end.

Definition isSlash (o : option ascii) : bool :=
  match o with
  | Some c => Ascii.eqb c "/"%char
  | None => false
  end.

Definition normalize (p : string) : string :=
  match p with
  | EmptyString => "."
  | String c _ =>
      let isAbsolute := Ascii.eqb c "/"%char in
      let trailingSeparator := isSlash (lastChar p) in
      let q := normalizeString p (negb isAbsolute) in
      match q with
      | EmptyString =>
          if isAbsolute then "/" else if trailingSeparator then "./" else "."
      | _ =>
          let q' := if trailingSeparator then q ++ "/" else q in
          if isAbsolute then "/" ++ q' else q'
      end
  end.

(** [path.join(a, b)] *)
Definition join (a b : string) : string :=
  let joined :=
    match a, b with
    | EmptyString, _ => b
    | _, EmptyString => a
    | _, _ => a ++ "/" ++ b
    end in
  normalize joined.

End Path.

(* ================================================================== *)
(** ** Data model and the static catalogs *)

Record CodeSnippet := {
  lang : string;
  langSlug : string;
  snippetCode : string   (* the field [code] *)
}.

Record ProblemDetails := {
  content : string;
  codeSnippets : list CodeSnippet;
  difficulty : string;
  questionId : string;
  title : string;
  titleSlug : string     (* second script only *)
}.

Record DailyChallenge := {
  dc_questionId : string;
  dc_title : string;
  dc_titleSlug : string;
  dc_difficulty : string
}.

(** [extensions] of the first script, [CONFIG.LANGUAGE_EXTENSIONS] of the
    second; [Object.entries] walks it in this order. *)
Definition LANGUAGE_EXTENSIONS : list (string * string) :=
  [ ("python", "py"); ("typescript", "ts"); ("javascript", "js");
    ("java", "java"); ("cpp", "cpp"); ("c", "c"); ("csharp", "cs");
    ("dart", "dart"); ("php", "php"); ("go", "go"); ("rust", "rs");
    ("ruby", "rb"); ("swift", "swift"); ("kotlin", "kt") ].

(** [commentMap] of the first script, [CONFIG.COMMENT_STYLES] of the
    second.  The double quote is [dq]. *)
Definition dq : string := String (ascii_of_nat 34) EmptyString.
Definition tripleQuote : string := dq ++ dq ++ dq.

Definition COMMENT_STYLES : list (string * (string * string)) :=
  [ ("python", (tripleQuote, tripleQuote)); ("typescript", ("/*", "*/"));
    ("javascript", ("/*", "*/")); ("java", ("/*", "*/"));
    ("cpp", ("/*", "*/")); ("c", ("/*", "*/")); ("csharp", ("/*", "*/"));
    ("dart", ("/*", "*/")); ("php", ("/*", "*/")); ("go", ("/*", "*/"));
    ("rust", ("/*", "*/")); ("ruby", ("=begin", "=end"));
    ("swift", ("/*", "*/")); ("kotlin", ("/*", "*/")) ].

(** Property lookup on an object literal with string keys. *)
Fixpoint lookup {A : Type} (k : string) (l : list (string * A)) : option A :=
  match l with
  | [] => None
  | (k', v) :: r => if (k' =? k)%string then Some v else lookup k r
  end.

(** [codeSnippets.find(s => s.langSlug === language)] *)
Definition findSnippet (language : string) (l : list CodeSnippet)
  : option CodeSnippet :=
  find (fun s => (langSlug s =? language)%string) l.

(** [snippet?.code] or else the empty string: an absent snippet and an empty
    code both give the empty template. *)
Definition codeOrEmpty (o : option CodeSnippet) : string :=
  match o with
  | Some s => snippetCode s
  | None => EmptyString
  end.

(* ================================================================== *)
(** ** Effects: network, browser, file system, console

    Every call that leaves the process is an [Event] in the run's trace
    (newest first).  Whether such a call succeeds, and what it answers, is
    not decided by the program: an [Env] gives the outcome of each call as a
    function of everything that happened before it, so every run of the
    script is the run under some [Env].  The file system keeps the files
    written so far; directories are not tracked.  Timers ([setTimeout],
    [delay]) take time and nothing else, and are left out. *)

Module Eff.

Inductive Query :=
| QOfToday                      (* questionOfToday *)
| QContent (slug : string)      (* questionContent *)
| QEditorData (slug : string)   (* questionEditorData *)
| QData (slug : string).        (* questionData, first script only *)

Inductive PageOp := SetUserAgent | SetViewport | Goto | WaitForSelector | Cookies.

Inductive Level := LLog | LErr | LInfo | LWarn | LSuccess.

Inductive Event :=
| EvGetHome (ok : bool)
| EvPost (q : Query) (ok : bool)
| EvLaunch (ok : bool)
| EvNewPage (ok : bool)
| EvPage (op : PageOp) (ok : bool)
| EvEvaluate (ok : bool)
| EvPageClose (ok : bool)
| EvBrowserClose (ok : bool)
| EvAccess (p : string) (ok : bool)
| EvReadFile (p : string) (ok : bool)
| EvMkdir (p : string) (ok : bool)
| EvWriteFile (p body : string) (ok : bool)
| EvSpawn (slug : string) (ok : bool)
| EvLog (l : Level) (msg : string)
| EvExit (exitCode : nat).

(** What a [question(titleSlug)] query answers; each query reads the fields
    it asked for. *)
Record QuestionResp := {
  q_content : string;
  q_questionId : string;
  q_title : string;
  q_difficulty : string
}.

Record Env := {
  homeToken : list Event -> option string;
  ofToday : list Event -> option DailyChallenge;
  question : list Event -> Query -> option QuestionResp;
  editorData : list Event -> string -> option (list CodeSnippet);
  launchOk : list Event -> bool;
  newPageOk : list Event -> bool;
  pageOk : list Event -> PageOp -> bool;
  evaluated : list Event -> option (option string);
  pageCloseOk : list Event -> bool;
  browserCloseOk : list Event -> bool;
  readFails : list Event -> string -> bool;
  mkdirFails : list Event -> string -> bool;
  writeFails : list Event -> string -> bool;
  spawnOk : list Event -> bool
}.

Record St := {
  fs : list (string * string);   (* path, content; the first entry wins *)
  trace : list Event;
  csrfToken : option string;     (* GraphQLClient.csrfToken *)
  browser : bool                 (* PuppeteerScraper.browser is not null *)
}.

Inductive Result (A : Type) :=
| Ok (a : A)
| Throw (msg : string).
Arguments Ok {A} a.
Arguments Throw {A} msg.

Definition M (A : Type) : Type := St -> Result A * St.

Definition ret {A} (a : A) : M A := fun st => (Ok a, st).

Definition throw {A} (msg : string) : M A := fun st => (Throw msg, st).

Definition bind {A B} (m : M A) (k : A -> M B) : M B :=
  fun st =>
    match m st with
    | (Ok a, st') => k a st'
    | (Throw e, st') => (Throw e, st')
    end.

(** [try { m } catch (e) { h e }] *)
Definition tryCatch {A} (m : M A) (h : string -> M A) : M A :=
  fun st =>
    match m st with
    | (Ok a, st') => (Ok a, st')
    | (Throw e, st') => h e st'
    end.

(** [try { m } finally { f }]: [f] runs on both exits; if [f] throws, its
    exception is the one that leaves. *)
Definition finally {A} (m : M A) (f : M unit) : M A :=
  fun st =>
    match m st with
    | (r, st') =>
        match f st' with
        | (Ok _, st'') => (r, st'')
        | (Throw e, st'') => (Throw e, st'')
        end
    end.

Declare Scope eff_scope.
Delimit Scope eff_scope with eff.
Notation "x <- m ;; k" := (bind m (fun x => k))
  (at level 61, m at next level, right associativity) : eff_scope.
Notation "m ;; k" := (bind m (fun _ => k))
  (at level 61, right associativity) : eff_scope.
Open Scope eff_scope.

(** [Promise.all([m1, m2])]: both requests are issued, in this order; the
    whole fails when one of them fails. *)
Definition all2 {A B} (m1 : M A) (m2 : M B) : M (A * B) :=
  fun st =>
    match m1 st with
    | (r1, st1) =>
        match m2 st1 with
        | (r2, st2) =>
            match r1, r2 with
            | Ok a, Ok b => (Ok (a, b), st2)
            | Throw e, _ => (Throw e, st2)
            | _, Throw e => (Throw e, st2)
            end
        end
    end.

(** A [for ... of] loop that threads an accumulator. *)
Fixpoint foldM {A B} (body : B -> A -> M A) (l : list B) (a : A) : M A :=
  match l with
  | [] => ret a
  | x :: r => a' <- body x a ;; foldM body r a'
  end.

Definition emit (e : Event) : M unit :=
  fun st => (Ok tt, {| fs := fs st; trace := e :: trace st;
                       csrfToken := csrfToken st; browser := browser st |}).

Definition log (l : Level) (msg : string) : M unit := emit (EvLog l msg).

Definition setCsrfToken (t : option string) : M unit :=
  fun st => (Ok tt, {| fs := fs st; trace := trace st;
                       csrfToken := t; browser := browser st |}).

Definition setBrowser (b : bool) : M unit :=
  fun st => (Ok tt, {| fs := fs st; trace := trace st;
                       csrfToken := csrfToken st; browser := b |}).

Definition getBrowser : M bool := fun st => (Ok (browser st), st).

Definition putFile (p body : string) : M unit :=
  fun st => (Ok tt, {| fs := (p, body) :: fs st; trace := trace st;
                       csrfToken := csrfToken st; browser := browser st |}).

Section Calls.
Variable E : Env.

(** A call whose only answer is success or failure. *)
Definition attempt (ok : list Event -> bool) (ev : bool -> Event)
                   (msg : string) : M unit :=
  fun st =>
    if ok (trace st) then emit (ev true) st
    else bind (emit (ev false)) (fun _ => throw msg) st.

(** A call that answers a value. *)
Definition request {A} (answer : list Event -> option A) (ev : bool -> Event)
                   (msg : string) : M A :=
  fun st =>
    match answer (trace st) with
    | Some a => bind (emit (ev true)) (fun _ => ret a) st
    | None => bind (emit (ev false)) (fun _ => throw msg) st
    end.

(** [axios.get] of the landing page and the search for the token in it. *)
Definition getHomeToken : M string :=
  request (homeToken E) EvGetHome "CSRF token not found".

Definition postOfToday : M DailyChallenge :=
  request (ofToday E) (EvPost QOfToday) "GraphQL request failed".

Definition postQuestion (q : Query) : M QuestionResp :=
  request (fun tr => question E tr q) (EvPost q) "GraphQL request failed".

Definition postEditorData (slug : string) : M (list CodeSnippet) :=
  request (fun tr => editorData E tr slug) (EvPost (QEditorData slug))
          "GraphQL request failed".

Definition launch : M unit := attempt (launchOk E) EvLaunch "launch failed".
Definition newPage : M unit := attempt (newPageOk E) EvNewPage "newPage failed".
Definition pageDo (op : PageOp) : M unit :=
  attempt (fun tr => pageOk E tr op) (EvPage op) "page operation failed".
Definition pageEvaluate : M (option string) :=
  request (evaluated E) EvEvaluate "evaluate failed".
Definition pageClose : M unit :=
  attempt (pageCloseOk E) EvPageClose "page.close failed".
Definition browserClose : M unit :=
  attempt (browserCloseOk E) EvBrowserClose "browser.close failed".

(** [fs.access(p)]: resolves when the file is there.  In the runs of this
    model the call rejects for a missing file only; a rejection for another
    reason (a directory that may not be searched) is not among them, and
    the properties that depend on it name the condition. *)
Definition access (p : string) : M unit :=
  fun st =>
    match lookup p (fs st) with
    | Some _ => emit (EvAccess p true) st
    | None => bind (emit (EvAccess p false)) (fun _ => throw "ENOENT") st
    end.

(** [fs.readFile(p, "utf-8")] *)
Definition readFile (p : string) : M string :=
  fun st =>
    match lookup p (fs st) with
    | Some body =>
        if readFails E (trace st) p
        then bind (emit (EvReadFile p false)) (fun _ => throw "read failed") st
        else bind (emit (EvReadFile p true)) (fun _ => ret body) st
    | None => bind (emit (EvReadFile p false)) (fun _ => throw "ENOENT") st
    end.

(** [fs.mkdir(p, { recursive: true })] *)
Definition mkdir (p : string) : M unit :=
  attempt (fun tr => negb (mkdirFails E tr p)) (EvMkdir p) "mkdir failed".

(** [fs.writeFile(p, body)] *)
Definition writeFile (p body : string) : M unit :=
  fun st =>
    if writeFails E (trace st) p
    then bind (emit (EvWriteFile p body false)) (fun _ => throw "write failed") st
    else bind (emit (EvWriteFile p body true)) (fun _ => putFile p body) st.

(** The external command [node ./node_modules/.bin/bun run problems <slug> all],
    as the script sees it: [EvSpawn slug ok] records that the command has
    ended and how.  A command that never ends, and what the command does to
    the disk, are not among the runs of this model. *)
Definition spawnProblems (slug : string) : M unit :=
  attempt (spawnOk E) (EvSpawn slug) "Command failed".

End Calls.

End Eff.

Import Eff.

(* ================================================================== *)
(** ** The first script (lines 1-638) *)

Module V1.

(** [toKebabCase], lines 12-17. *)
Definition toKebabCase (str : string) : string :=
  JS.replaceAll JS.reNotSlug EmptyString
    (JS.replaceAll JS.reSpaces "-" (JS.toLowerCase str)).

(** [htmlToComment] inside [formatProblemFile], lines 105-134. *)
Definition htmlToComment (language html : string) : string :=
  let text :=
    JS.replaceAll (JS.reLit "&amp;") "&"
     (JS.replaceAll (JS.reLit "&#39;") "'"
      (JS.replaceAll (JS.reLit "&quot;") dq
       (JS.replaceAll (JS.reLit "&gt;") ">"
        (JS.replaceAll (JS.reLit "&lt;") "<"
         (JS.replaceAll (JS.reLit "&nbsp;") " "
          (JS.replaceAll JS.reTag EmptyString html)))))) in
  let '(start, stop) :=
    match lookup language COMMENT_STYLES with
    | Some p => p
    | None => ("/*", "*/")
    end in
  start ++ JS.nl ++ JS.trim text ++ JS.nl ++ stop ++ JS.nl ++ JS.nl.

(** [formatProblemFile], lines 100-137. *)
Definition formatProblemFile (language problemContent code : string) : string :=
  htmlToComment language problemContent ++ code.

(** The line filter of [hasContent], lines 239-243. *)
Definition keepsLine (line : string) : bool :=
  negb (JS.startsWith "/*" (JS.trim line)) &&
  negb (JS.startsWith "*/" (JS.trim line)) &&
  negb (JS.startsWith "//" (JS.trim line)) &&
  (0 <? String.length (JS.trim line)).

Definition nonCommentContent (text : string) : string :=
  JS.trim (JS.joinEmpty (filter keepsLine (JS.splitLines text))).

Definition fileName (language extension : string) (details : ProblemDetails)
                    (kebabTitle : string) : string :=
  if (language =? "dart")%string
  then questionId details ++ "_"
       ++ JS.replaceAll (JS.reLit "-") "_" kebabTitle ++ "." ++ extension
  else (questionId details ++ "-" ++ kebabTitle) ++ "." ++ extension.

Definition filePath (language extension : string) (details : ProblemDetails)
                    (kebabTitle : string) : string :=
  Path.join (Path.join language (JS.toLowerCase (difficulty details)))
            (fileName language extension details kebabTitle).

(** The three lists of lines 523-525. *)
Record Lists := {
  existingFiles : list string;
  createdFiles : list string;
  skippedFiles : list string
}.

Definition includesPath (l : list string) (p : string) : bool :=
  existsb (fun q => (q =? p)%string) l.

Section WithEnv.
Variable E : Env.

(** [hasContent], lines 233-251. *)
Definition hasContent (path : string) : M bool :=
  tryCatch
    (text <- readFile E path ;;
     ret (0 <? String.length (nonCommentContent text)))
    (fun _ => ret false).

(** The browser fallback, lines 169-227. *)
Definition getDailyLeetcodeChallengeWithPuppeteer : M string :=
  launch E ;;
  newPage E ;;
  finally
    (pageDo E SetUserAgent ;;
     log LLog "Navigating to LeetCode..." ;;
     pageDo E Goto ;;
     pageDo E WaitForSelector ;;
     log LLog "Extracting daily challenge..." ;;
     dailyChallenge <- pageEvaluate E ;;
     match dailyChallenge with
     | None => throw "Failed to extract daily challenge"
     | Some slug =>
         if (slug =? EmptyString)%string then throw "Failed to extract daily challenge"
         else
           pageDo E Cookies ;;
           log LLog "Extracted cookies for potential API use" ;;
           ret slug
     end)
    (browserClose E).

(** One turn of the loop of [createSolutionFiles], lines 356-381. *)
Definition fallbackFile (details : ProblemDetails) (kebabTitle : string)
                        (entry : string * string) (u : unit) : M unit :=
  let '(language, extension) := entry in
  let dirPath := Path.join language (JS.toLowerCase (difficulty details)) in
  let path := filePath language extension details kebabTitle in
  tryCatch
    (mkdir E dirPath ;;
     match findSnippet language (codeSnippets details) with
     | Some snippet =>
         writeFile E path
           (formatProblemFile language (content details) (snippetCode snippet)) ;;
         log LLog ("Created file: " ++ path)
     | None => ret tt
     end)
    (fun _ => log LErr ("Error creating " ++ path ++ ":")).

(** [createSolutionFiles], lines 258-386. *)
Definition createSolutionFiles (slug : string) : M unit :=
  log LLog ("Creating solution files for: " ++ slug) ;;
  tryCatch
    (rs <- all2 (all2 (postQuestion E (QContent slug)) (postEditorData E slug))
                (postQuestion E (QData slug)) ;;
     let '((contentResponse, snippetsResponse), questionResponse) := rs in
     let details :=
       {| content := q_content contentResponse;
          codeSnippets := snippetsResponse;
          difficulty := q_difficulty questionResponse;
          questionId := q_questionId questionResponse;
          title := q_title questionResponse;
          titleSlug := slug |} in
     log LLog "Problem details fetched successfully" ;;
     log LLog ("Question ID: " ++ questionId details) ;;
     log LLog ("Title: " ++ title details) ;;
     log LLog ("Difficulty: " ++ difficulty details) ;;
     foldM (fallbackFile details (toKebabCase (title details)))
           LANGUAGE_EXTENSIONS tt)
    (fun err => log LErr "Error fetching problem details:" ;; throw err).

(** One turn of the loop of [getDailyLeetcodeChallenge], lines 527-564.
    The file is written outside the [try]. *)
Definition mainFile (details : ProblemDetails) (kebabTitle : string)
                    (entry : string * string) (ls : Lists) : M Lists :=
  let '(language, extension) := entry in
  let dirPath := Path.join language (JS.toLowerCase (difficulty details)) in
  let path := filePath language extension details kebabTitle in
  (* [Some ls'] goes on to the write, [None] is the [continue] *)
  checked <-
    tryCatch
      (access path ;;
       hasExistingContent <- hasContent path ;;
       if hasExistingContent then
         log LLog ("File exists with content, skipping: " ++ path) ;;
         ret (None, {| existingFiles := existingFiles ls;
                       createdFiles := createdFiles ls;
                       skippedFiles := skippedFiles ls ++ [path] |})
       else
         log LLog ("File exists but empty, replacing: " ++ path) ;;
         ret (Some tt, {| existingFiles := existingFiles ls ++ [path];
                          createdFiles := createdFiles ls;
                          skippedFiles := skippedFiles ls |}))
      (fun _ => mkdir E dirPath ;; ret (Some tt, ls)) ;;
  match checked with
  | (None, ls') => ret ls'
  | (Some _, ls') =>
      writeFile E path
        (formatProblemFile language (content details)
           (codeOrEmpty (findSnippet language (codeSnippets details)))) ;;
      let ls'' :=
        if includesPath (existingFiles ls') path then ls'
        else {| existingFiles := existingFiles ls';
                createdFiles := createdFiles ls' ++ [path];
                skippedFiles := skippedFiles ls' |} in
      log LLog ((if includesPath (existingFiles ls'') path
                 then "Updated" else "Created") ++ " file: " ++ path) ;;
      ret ls''
  end.

Definition logList (header : string) (l : list string) : M unit :=
  match l with
  | [] => ret tt
  | _ => log LLog header ;; foldM (fun f _ => log LLog f) l tt
  end.

(** What the [try] block does with the answer of the daily query,
    lines 443-605. *)
Definition scaffold (q : DailyChallenge) : M unit :=
  let slug := dc_titleSlug q in
  rs <- all2 (postQuestion E (QContent slug)) (postEditorData E slug) ;;
  let '(contentResponse, snippetsResponse) := rs in
  let details :=
    {| content := q_content contentResponse;
       codeSnippets := snippetsResponse;
       difficulty := dc_difficulty q;
       questionId := dc_questionId q;
       title := dc_title q;
       titleSlug := slug |} in
  log LLog "Challenge details:" ;;
  log LLog ("Question ID: " ++ questionId details) ;;
  log LLog ("Title: " ++ title details) ;;
  log LLog ("Difficulty: " ++ difficulty details) ;;
  ls <- foldM (mainFile details (toKebabCase (title details)))
              LANGUAGE_EXTENSIONS
              {| existingFiles := []; createdFiles := []; skippedFiles := [] |} ;;
  logList (JS.nl ++ "Skipped Files (already have content):") (skippedFiles ls) ;;
  logList (JS.nl ++ "Updated Empty Files:") (existingFiles ls) ;;
  logList (JS.nl ++ "Newly Created Files:") (createdFiles ls) ;;
  tryCatch (spawnProblems E slug)
    (fun _ => log LLog
       "Note: Additional command execution failed, but files were created successfully.").

(** The [try] block of [getDailyLeetcodeChallenge], lines 396-605. *)
Definition apiPath : M unit :=
  _ <- getHomeToken E ;;
  log LLog "Got CSRF token, attempting API request..." ;;
  q <- postOfToday E ;;
  log LLog "Daily Challenge (API):" ;;
  scaffold q.

(** The [catch] block of [getDailyLeetcodeChallenge], lines 606-626. *)
Definition browserPath (initialError : string) : M unit :=
  log LErr ("Direct API call failed: " ++ initialError) ;;
  log LLog "Attempting with Puppeteer..." ;;
  tryCatch
    (log LLog "Launching Puppeteer in headless mode with sandbox disabled..." ;;
     slug <- getDailyLeetcodeChallengeWithPuppeteer ;;
     log LLog "Daily Challenge (Puppeteer):" ;;
     createSolutionFiles slug ;;
     log LLog "Successfully created solution files for daily challenge!")
    (fun _ => log LErr "Puppeteer error:" ;;
              throw "Both API and Puppeteer approaches failed").

(** [getDailyLeetcodeChallenge], lines 392-627. *)
Definition getDailyLeetcodeChallenge : M unit :=
  log LLog "Fetching daily LeetCode challenge..." ;;
  tryCatch apiPath browserPath.

(** The entry point, lines 629-638; the answer is the exit status. *)
Definition run : M nat :=
  tryCatch (getDailyLeetcodeChallenge ;; ret 0)
           (fun err => log LErr err ;; emit (EvExit 1) ;; ret 1).

End WithEnv.

End V1.

(* ================================================================== *)
(** ** The second script (lines 639-1242) *)

Module V2.

(** [FileOperationResult], lines 668-672. *)
Record FileOperationResult := {
  created : list string;
  updated : list string;
  skipped : list string
}.

(** [toKebabCase], lines 736-740. *)
Definition toKebabCase (str : string) : string :=
  JS.replaceAll JS.reNotSlug EmptyString
    (JS.replaceAll JS.reSpaces "-" (JS.toLowerCase str)).

(** [htmlToText], lines 742-751. *)
Definition htmlToText (html : string) : string :=
  JS.trim
    (JS.replaceAll (JS.reLit "&amp;") "&"
     (JS.replaceAll (JS.reLit "&#39;") "'"
      (JS.replaceAll (JS.reLit "&quot;") dq
       (JS.replaceAll (JS.reLit "&gt;") ">"
        (JS.replaceAll (JS.reLit "&lt;") "<"
         (JS.replaceAll (JS.reLit "&nbsp;") " "
          (JS.replaceAll JS.reTag EmptyString html))))))).

(** [FileManager.formatProblemFile], lines 903-911. *)
Definition formatProblemFile (language problemContent code : string) : string :=
  let '(start, stop) :=
    match lookup language COMMENT_STYLES with
    | Some p => p
    | None => ("/*", "*/")
    end in
  let commentedContent :=
    start ++ JS.nl ++ htmlToText problemContent ++ JS.nl ++ stop
    ++ JS.nl ++ JS.nl in
  commentedContent ++ code.

(** The loop of [FileManager.hasNonCommentContent], lines 918-947, over the
    lines that are left, with the flag [inBlockComment]. *)
Fixpoint scanLines (inBlockComment : bool) (lines : list string) : bool :=
  match lines with
  | [] => false
  | line :: rest =>
      let trimmed := JS.trim line in
      if (trimmed =? EmptyString)%string then scanLines inBlockComment rest
      else
        let inBlockComment1 :=
          if JS.includes "/*" trimmed then true else inBlockComment in
        if inBlockComment1 then
          scanLines (if JS.includes "*/" trimmed then false else true) rest
        else if JS.startsWith "//" trimmed
                || JS.startsWith "#" trimmed
                || JS.startsWith "=begin" trimmed
                || JS.startsWith "=end" trimmed
                || (trimmed =? tripleQuote)%string
        then scanLines false rest
        else true
  end.

(** [FileManager.getFileName], lines 953-964.  A key outside the catalog
    would print the extension as undefined. *)
Definition getFileName (language : string) (details : ProblemDetails)
                       (kebabTitle : string) : string :=
  let extension :=
    match lookup language LANGUAGE_EXTENSIONS with
    | Some e => e
    | None => "undefined"
    end in
  if (language =? "dart")%string
  then questionId details ++ "_"
       ++ JS.replaceAll (JS.reLit "-") "_" kebabTitle ++ "." ++ extension
  else questionId details ++ "-" ++ kebabTitle ++ "." ++ extension.

Definition filePath (language : string) (details : ProblemDetails)
                    (kebabTitle : string) : string :=
  Path.join (Path.join language (JS.toLowerCase (difficulty details)))
            (getFileName language details kebabTitle).

Section WithEnv.
Variable E : Env.

(** [GraphQLClient.initialize], lines 771-795. *)
Definition initializeClient : M unit :=
  tryCatch
    (log LInfo "Fetching CSRF token..." ;;
     token <- getHomeToken E ;;
     setCsrfToken (Some token) ;;
     log LSuccess "CSRF token acquired")
    (fun _ => throw "Failed to fetch CSRF token").

(** [PuppeteerScraper.initialize], lines 832-844. *)
Definition initializeScraper : M unit :=
  log LInfo "Launching Puppeteer browser..." ;;
  launch E ;;
  setBrowser true.

(** [PuppeteerScraper.getDailyChallenge], lines 846-892. *)
Definition getDailyChallenge : M string :=
  b <- getBrowser ;;
  if negb b then throw "Browser not initialized"
  else
    newPage E ;;
    finally
      (pageDo E SetUserAgent ;;
       pageDo E SetViewport ;;
       log LInfo "Navigating to LeetCode problemset..." ;;
       pageDo E Goto ;;
       pageDo E WaitForSelector ;;
       log LInfo "Extracting daily challenge slug..." ;;
       slug <- pageEvaluate E ;;
       match slug with
       | None => throw "Failed to extract daily challenge slug"
       | Some slug =>
           if (slug =? EmptyString)%string
           then throw "Failed to extract daily challenge slug"
           else
             log LSuccess ("Daily challenge slug extracted: " ++ slug) ;;
             ret slug
       end)
      (pageClose E).

(** [PuppeteerScraper.cleanup], lines 894-899. *)
Definition cleanup : M unit :=
  b <- getBrowser ;;
  if b then browserClose E ;; setBrowser false else ret tt.

(** [FileManager.hasNonCommentContent], lines 913-951. *)
Definition hasNonCommentContent (path : string) : M bool :=
  tryCatch
    (text <- readFile E path ;;
     ret (scanLines false (JS.splitLines text)))
    (fun _ => ret false).

(** One turn of the loop of [FileManager.createSolutionFiles],
    lines 976-1014. *)
Definition processLanguage (details : ProblemDetails) (kebabTitle : string)
                           (entry : string * string)
                           (result : FileOperationResult)
  : M FileOperationResult :=
  let '(language, extension) := entry in
  let dirPath := Path.join language (JS.toLowerCase (difficulty details)) in
  let path := filePath language details kebabTitle in
  tryCatch
    (fileExists <- tryCatch (access path ;; ret true) (fun _ => ret false) ;;
     skip <- (if fileExists then hasNonCommentContent path else ret false) ;;
     if skip then
       log LInfo ("Skipping existing file with content: " ++ path) ;;
       ret {| created := created result; updated := updated result;
              skipped := skipped result ++ [path] |}
     else
       mkdir E dirPath ;;
       writeFile E path
         (formatProblemFile language (content details)
            (codeOrEmpty (findSnippet language (codeSnippets details)))) ;;
       if fileExists then
         log LSuccess ("Updated empty file: " ++ path) ;;
         ret {| created := created result; updated := updated result ++ [path];
                skipped := skipped result |}
       else
         log LSuccess ("Created new file: " ++ path) ;;
         ret {| created := created result ++ [path]; updated := updated result;
                skipped := skipped result |})
    (fun _ => log LErr ("Failed to create " ++ path) ;; ret result).

(** [FileManager.createSolutionFiles], lines 966-1017. *)
Definition createSolutionFiles (details : ProblemDetails)
  : M FileOperationResult :=
  log LInfo ("Creating solution files for: " ++ title details) ;;
  foldM (processLanguage details (toKebabCase (title details)))
        LANGUAGE_EXTENSIONS
        {| created := []; updated := []; skipped := [] |}.

(** [CommandExecutor.execute] on the fixed command, lines 1021-1066. *)
Definition execute (slug : string) : M unit := spawnProblems E slug.

(** [getDailyChallengeViaAPI], lines 1076-1097. *)
Definition getDailyChallengeViaAPI : M DailyChallenge :=
  initializeClient ;;
  postOfToday E.

(** [getProblemDetails], lines 1118-1163. *)
Definition getProblemDetails (slug : string) : M ProblemDetails :=
  rs <- all2 (postQuestion E (QContent slug)) (postEditorData E slug) ;;
  let '(contentResponse, snippetsResponse) := rs in
  ret {| content := q_content contentResponse;
         codeSnippets := snippetsResponse;
         difficulty := q_difficulty contentResponse;
         questionId := q_questionId contentResponse;
         title := q_title contentResponse;
         titleSlug := slug |}.

(** [getDailyChallengeViaPuppeteer], lines 1099-1116. *)
Definition getDailyChallengeViaPuppeteer : M DailyChallenge :=
  finally
    (initializeScraper ;;
     slug <- getDailyChallenge ;;
     details <- getProblemDetails slug ;;
     ret {| dc_questionId := questionId details;
            dc_title := title details;
            dc_titleSlug := titleSlug details;
            dc_difficulty := difficulty details |})
    cleanup.

Definition logGroup (header : string) (l : list string) : M unit :=
  match l with
  | [] => ret tt
  | _ => log LInfo header ;; foldM (fun f _ => log LLog ("  - " ++ f)) l tt
  end.

(** [logResults], lines 1165-1185; the counts in the messages are left out. *)
Definition logResults (result : FileOperationResult) : M unit :=
  logGroup "Skipped files (already have content)" (skipped result) ;;
  logGroup "Updated empty files" (updated result) ;;
  logGroup "Created new files" (created result) ;;
  log LSuccess "Processed files total".

(** The inner [try] of [run], lines 1193-1202: the API first, the browser
    when the API fails. *)
Definition acquire : M DailyChallenge :=
  tryCatch
    (log LInfo "Attempting API approach..." ;;
     d <- getDailyChallengeViaAPI ;;
     log LSuccess "Successfully fetched via API" ;;
     ret d)
    (fun _ =>
       log LWarn "API approach failed, trying Puppeteer..." ;;
       d <- getDailyChallengeViaPuppeteer ;;
       log LSuccess "Successfully fetched via Puppeteer" ;;
       ret d).

(** What [run] does with the identity, lines 1204-1226. *)
Definition afterIdentity (dailyChallenge : DailyChallenge) : M unit :=
  log LInfo ("Daily Challenge: " ++ dc_title dailyChallenge) ;;
  problemDetails <- getProblemDetails (dc_titleSlug dailyChallenge) ;;
  result <- createSolutionFiles problemDetails ;;
  logResults result ;;
  tryCatch
    (execute (dc_titleSlug dailyChallenge) ;;
     log LSuccess "Additional command executed successfully")
    (fun _ => log LWarn "Additional command execution failed (non-critical)") ;;
  log LSuccess "Daily challenge processing completed!".

(** [LeetCodeDailyChallenge.run], lines 1187-1231. *)
Definition run : M unit :=
  tryCatch
    (log LInfo "Starting LeetCode Daily Challenge fetch..." ;;
     dailyChallenge <- acquire ;;
     afterIdentity dailyChallenge)
    (fun err => log LErr "Failed to process daily challenge" ;; throw err).

(** The entry point, lines 1237-1242; the answer is the exit status. *)
Definition main : M nat :=
  tryCatch (run ;; ret 0)
           (fun _ => log LErr "Application failed:" ;; emit (EvExit 1) ;; ret 1).

End WithEnv.

End V2.

(* ================================================================== *)
(** ** Vocabulary of the specification *)

(** Every character of [s] satisfies [p]. *)
Fixpoint allChars (p : ascii -> bool) (s : string) : bool :=
  match s with
  | EmptyString => true
  | String c r => p c && allChars p r
  end.

(** [s] matches [^[a-z0-9-]*$]. *)
Definition matchesSlugPattern (s : string) : bool := allChars JS.isSlugChar s.

(** [s] has no slash in it. *)
Definition noSlash (s : string) : bool :=
  allChars (fun c => negb (Ascii.eqb c "/"%char)) s.

(** The identity of the specification's scenario, with any content,
    snippets and slug. *)
Definition trappingRainWater (body : string) (snippets : list CodeSnippet)
  : ProblemDetails :=
  {| content := body; codeSnippets := snippets; difficulty := "Hard";
     questionId := "42"; title := "Trapping Rain Water";
     titleSlug := "trapping-rain-water" |}.

(** The file name the specification gives for a catalog entry. *)
Definition specFileName (language extension : string) (d : ProblemDetails) : string :=
  if (language =? "dart")%string
  then questionId d ++ "_"
       ++ JS.replaceAll (JS.reLit "-") "_" (V2.toKebabCase (title d))
       ++ "." ++ extension
  else questionId d ++ "-" ++ V2.toKebabCase (title d) ++ "." ++ extension.

(** A segment that [normalizeString] keeps as it is. *)
Definition plainSegment (f : string) : Prop :=
  noSlash f = true /\ f <> EmptyString /\ f <> "." /\ f <> "..".

(** *** Where the characters of the plain text come from

    [htmlToText] run on characters that carry the position they had in the
    markup; a character that a replacement wrote carries none.  Erasing the
    positions gives back [htmlToText] (lemma [erase_htmlToTextT]). *)

Definition Traced : Type := ascii * option nat.

Fixpoint erase (l : list Traced) : string :=
  match l with
  | [] => EmptyString
  | (c, _) :: r => String c (erase r)
  end.

Fixpoint tracedFrom (o : nat) (s : string) : list Traced :=
  match s with
  | EmptyString => []
  | String c r => (c, Some o) :: tracedFrom (S o) r
  end.

Fixpoint written (rep : string) : list Traced :=
  match rep with
  | EmptyString => []
  | String c r => (c, None) :: written r
  end.

Fixpoint gsubT (m : string -> option nat) (rep : string) (skip : nat)
               (l : list Traced) : list Traced :=
  match l with
  | [] => []
  | x :: r =>
      match skip with
      | S k => gsubT m rep k r
      | O =>
          match m (erase l) with
          | Some (S k) => (written rep ++ gsubT m rep k r)%list
          | _ => x :: gsubT m rep 0 r
          end
      end
  end.

Fixpoint trimStartT (l : list Traced) : list Traced :=
  match l with
  | [] => []
  | x :: r => if JS.isSpace (fst x) then trimStartT r else l
  end.

Fixpoint trimEndT (l : list Traced) : list Traced :=
  match l with
  | [] => []
  | x :: r =>
      match trimEndT r with
      | [] => if JS.isSpace (fst x) then [] else [x]
      | r' => x :: r'
      end
  end.

Definition htmlToTextT (l : list Traced) : list Traced :=
  trimEndT (trimStartT
    (gsubT (JS.reLit "&amp;") "&" 0
     (gsubT (JS.reLit "&#39;") "'" 0
      (gsubT (JS.reLit "&quot;") dq 0
       (gsubT (JS.reLit "&gt;") ">" 0
        (gsubT (JS.reLit "&lt;") "<" 0
         (gsubT (JS.reLit "&nbsp;") " " 0
          (gsubT JS.reTag EmptyString 0 l)))))))).

(** For each position of the markup, whether the replacement of the tag
    pattern removes the character there: the scan of [JS.gsub] with
    [JS.reTag], recorded position by position. *)
Fixpoint strippedMask (skip : nat) (s : string) : list bool :=
  match s with
  | EmptyString => []
  | String c r =>
      match skip with
      | S k => true :: strippedMask k r
      | O =>
          match JS.reTag s with
          | Some (S k) => true :: strippedMask k r
          | _ => false :: strippedMask 0 r
          end
      end
  end.

(** The code removes the character at position [i] of the markup. *)
Definition inStrippedTag (html : string) (i : nat) : bool :=
  nth i (strippedMask 0 html) false.

(** *** Tags, as the specification speaks of them

    Position [i] of the markup lies within a tag: there is an opening angle
    bracket at [start], at or before [i], and a closing angle bracket at
    [stop], at or behind [i], with at least one character between the two
    and no closing bracket among the characters between them.  The
    definition reads the characters of the markup only; it runs no pattern
    of the code. *)
Definition withinTag (html : string) (i : nat) : Prop :=
  exists start stop,
    start <= i <= stop /\ start + 2 <= stop /\
    String.get start html = Some "<"%char /\
    String.get stop html = Some ">"%char /\
    forall k, start < k < stop -> String.get k html <> Some ">"%char.

(** The markup holds none of the entities the scripts decode. *)
Definition noEntities (html : string) : bool :=
  negb (JS.includes "&nbsp;" html) && negb (JS.includes "&lt;" html)
  && negb (JS.includes "&gt;" html) && negb (JS.includes "&quot;" html)
  && negb (JS.includes "&#39;" html) && negb (JS.includes "&amp;" html).

(** No tag starts anywhere in [s]. *)
Fixpoint tagFree (s : string) : bool :=
  match JS.reTag s with
  | Some _ => false
  | None =>
      match s with
      | EmptyString => true
      | String _ r => tagFree r
      end
  end.

(** *** Runs and what they show *)

(** The state a run starts in: the files on disk, nothing done yet. *)
Definition initial (files : list (string * string)) : St :=
  {| fs := files; trace := []; csrfToken := None; browser := false |}.

Definition count (p : Event -> bool) (tr : list Event) : nat :=
  List.length (filter p tr).

Definition isLaunch (e : Event) : bool :=
  match e with EvLaunch _ => true | _ => false end.

Definition isGetHome (e : Event) : bool :=
  match e with EvGetHome _ => true | _ => false end.

(** The query that asks for the identity of today's challenge. *)
Definition isOfTodayPost (e : Event) : bool :=
  match e with EvPost QOfToday _ => true | _ => false end.

Definition isBrowserClose (e : Event) : bool :=
  match e with EvBrowserClose _ => true | _ => false end.

(** Events of the API acquisition or of the browser. *)
Definition isAcquisition (e : Event) : bool :=
  match e with
  | EvGetHome _ | EvPost QOfToday _ | EvLaunch _ | EvNewPage _ | EvPage _ _
  | EvEvaluate _ | EvPageClose _ | EvBrowserClose _ | EvExit _ => true
  | _ => false
  end.

(** The API acquisition of the identity failed in this trace: the landing
    page gave no token, or the query for today's challenge failed. *)
Definition apiAcquisitionFailed (tr : list Event) : Prop :=
  In (EvGetHome false) tr \/ In (EvPost QOfToday false) tr.

(** [m] only adds events to the trace, and every event it adds satisfies [P]. *)
Definition emitsOnly {A} (P : Event -> bool) (m : M A) : Prop :=
  forall st, exists new,
    trace (snd (m st)) = (new ++ trace st)%list /\ forallb P new = true.

Definition notAcquisition (e : Event) : bool := negb (isAcquisition e).

(** The message each script logs when its browser fallback has succeeded. *)
Definition fallbackSucceededV2 : Event :=
  EvLog LSuccess "Successfully fetched via Puppeteer".
Definition fallbackSucceededV1 : Event :=
  EvLog LLog "Successfully created solution files for daily challenge!".

(** *** Materialization *)

(** What one turn of the loop did with its target file. *)
Inductive Outcome := Created | Updated | Skipped | Failed.

Definition wrote (o : Outcome) : bool :=
  match o with Created | Updated => true | _ => false end.

(** The push one turn makes on the result of [FileManager.createSolutionFiles]. *)
Definition record (o : Outcome) (p : string) (r : V2.FileOperationResult)
  : V2.FileOperationResult :=
  match o with
  | Created => {| V2.created := V2.created r ++ [p]; V2.updated := V2.updated r;
                  V2.skipped := V2.skipped r |}
  | Updated => {| V2.created := V2.created r; V2.updated := V2.updated r ++ [p];
                  V2.skipped := V2.skipped r |}
  | Skipped => {| V2.created := V2.created r; V2.updated := V2.updated r;
                  V2.skipped := V2.skipped r ++ [p] |}
  | Failed => r
  end.

(** The paths of the writes that succeeded, newest first. *)
Fixpoint writtenPaths (tr : list Event) : list string :=
  match tr with
  | [] => []
  | EvWriteFile p _ true :: r => p :: writtenPaths r
  | _ :: r => writtenPaths r
  end.

(** The body both scripts write for a language: the problem statement in
    the language's comment delimiters, then the snippet's code, or nothing
    when there is no snippet. *)
Definition fileBody (language : string) (d : ProblemDetails) : string :=
  V2.formatProblemFile language (content d)
    (codeOrEmpty (findSnippet language (codeSnippets d))).

(** The comment block alone. *)
Definition commentBlock (language : string) (d : ProblemDetails) : string :=
  let '(start, stop) :=
    match lookup language COMMENT_STYLES with
    | Some p => p
    | None => ("/*", "*/")
    end in
  start ++ JS.nl ++ V2.htmlToText (content d) ++ JS.nl ++ stop ++ JS.nl ++ JS.nl.

(** The file at [p] is there, can be read when the second script gets to
    it, and its scan finds a line that is neither blank nor comment. *)
Definition substantive (E : Env) (st : St) (p : string) : Prop :=
  exists text,
    lookup p (fs st) = Some text /\
    readFails E (EvAccess p true :: trace st) p = false /\
    V2.scanLines false (JS.splitLines text) = true.

Definition sameOutcome (a b : Outcome) : bool :=
  match a, b with
  | Created, Created | Updated, Updated | Skipped, Skipped | Failed, Failed => true
  | _, _ => false
  end.

(** The paths that got outcome [o], in catalog order. *)
Definition pathsWith (o : Outcome) (os : list (string * Outcome)) : list string :=
  map fst (filter (fun x => sameOutcome (snd x) o) os).

(** The paths whose file was written, in catalog order. *)
Definition pathsWritten (os : list (string * Outcome)) : list string :=
  map fst (filter (fun x => wrote (snd x)) os).

(** The target paths of the second script, in catalog order. *)
Definition targetPaths (d : ProblemDetails) : list string :=
  map (fun entry => V2.filePath (fst entry) d (V2.toKebabCase (title d)))
      LANGUAGE_EXTENSIONS.

Definition tallyOf (os : list (string * Outcome)) : V2.FileOperationResult :=
  {| V2.created := pathsWith Created os; V2.updated := pathsWith Updated os;
     V2.skipped := pathsWith Skipped os |}.

(** The last of the segments of a path. *)
Definition lastSegment (s : string) : string := last (Path.segments s) EmptyString.

(** The last segment of a file name: what is behind the last slash of the
    question id, and the rest of the name. *)
Definition nameTail (language extension : string) (d : ProblemDetails) : string :=
  if (language =? "dart")%string
  then "_" ++ JS.replaceAll (JS.reLit "-") "_" (V2.toKebabCase (title d))
       ++ "." ++ extension
  else "-" ++ V2.toKebabCase (title d) ++ "." ++ extension.


(** The push one turn of the first script's loop makes on its three lists;
    [existingFiles] is the list of the updated files. *)
Definition recordV1 (o : Outcome) (p : string) (ls : V1.Lists) : V1.Lists :=
  match o with
  | Created => {| V1.existingFiles := V1.existingFiles ls;
                  V1.createdFiles := V1.createdFiles ls ++ [p];
                  V1.skippedFiles := V1.skippedFiles ls |}
  | Updated => {| V1.existingFiles := V1.existingFiles ls ++ [p];
                  V1.createdFiles := V1.createdFiles ls;
                  V1.skippedFiles := V1.skippedFiles ls |}
  | Skipped => {| V1.existingFiles := V1.existingFiles ls;
                  V1.createdFiles := V1.createdFiles ls;
                  V1.skippedFiles := V1.skippedFiles ls ++ [p] |}
  | Failed => ls
  end.

Definition noLists : V1.Lists :=
  {| V1.existingFiles := []; V1.createdFiles := []; V1.skippedFiles := [] |}.

(** The target paths of the first script, in catalog order. *)
Definition targetPathsV1 (d : ProblemDetails) : list string :=
  map (fun entry => V1.filePath (fst entry) (snd entry) d (V1.toKebabCase (title d)))
      LANGUAGE_EXTENSIONS.

(** *** Concrete environments *)

(** An environment whose calls answer the same way whatever came before. *)
Definition steadyEnv (token : option string) (daily : option DailyChallenge)
           (answer : option QuestionResp) (snippets : option (list CodeSnippet))
           (launches pages : bool) (slug : option (option string))
           (readF mkdirF writeF : string -> bool) : Env :=
  {| homeToken := fun _ => token;
     ofToday := fun _ => daily;
     question := fun _ _ => answer;
     editorData := fun _ _ => snippets;
     launchOk := fun _ => launches;
     newPageOk := fun _ => pages;
     pageOk := fun _ _ => true;
     evaluated := fun _ => slug;
     pageCloseOk := fun _ => true;
     browserCloseOk := fun _ => true;
     readFails := fun _ p => readF p;
     mkdirFails := fun _ p => mkdirF p;
     writeFails := fun _ p => writeF p;
     spawnOk := fun _ => true |}.

Definition never (p : string) : bool := false.
Definition onlyAt (q p : string) : bool := (p =? q)%string.

Definition rainWaterDaily : DailyChallenge :=
  {| dc_questionId := "42"; dc_title := "Trapping Rain Water";
     dc_titleSlug := "trapping-rain-water"; dc_difficulty := "Hard" |}.

Definition rainWaterAnswer : QuestionResp :=
  {| q_content := "<p>Given <code>n</code> bars, compute the water.</p>";
     q_questionId := "42"; q_title := "Trapping Rain Water";
     q_difficulty := "Hard" |}.

Definition pythonSnippet : CodeSnippet :=
  {| lang := "Python3"; langSlug := "python";
     snippetCode := "class Solution: pass" |}.

(** The problem of the scenario, with and without a python snippet. *)
Definition rainWater (snippets : list CodeSnippet) : ProblemDetails :=
  trappingRainWater (q_content rainWaterAnswer) snippets.

Definition pythonTarget : string := "python/hard/42-trapping-rain-water.py".
Definition rubyTarget : string := "ruby/hard/42-trapping-rain-water.rb".

(** Everything works. *)
Definition healthyEnv (snippets : list CodeSnippet) : Env :=
  steadyEnv (Some "token") (Some rainWaterDaily) (Some rainWaterAnswer)
            (Some snippets) true true (Some (Some "trapping-rain-water"))
            never never never.

(** The network is down and no browser can be launched. *)
Definition offlineEnv : Env :=
  steadyEnv None None None None false false None never never never.

(** The API works, the python file cannot be written. *)
Definition pythonReadOnlyEnv : Env :=
  steadyEnv (Some "token") (Some rainWaterDaily) (Some rainWaterAnswer)
            (Some [pythonSnippet]) true true (Some (Some "trapping-rain-water"))
            never never (onlyAt pythonTarget).

(** The browser starts, but opens no page. *)
Definition noPageEnv : Env :=
  steadyEnv None None None None true false None never never never.

(** The python file cannot be read. *)
Definition pythonUnreadableEnv : Env :=
  steadyEnv (Some "token") (Some rainWaterDaily) (Some rainWaterAnswer)
            (Some []) true true (Some (Some "trapping-rain-water"))
            (onlyAt pythonTarget) never never.

(** The events of a run in the order they happened. *)
Definition chronicle {A} (m : M A) (st : St) : list Event :=
  rev (trace (snd (m st))).

Definition isAccess (e : Event) : bool :=
  match e with EvAccess _ _ => true | _ => false end.

Definition isWriteFile (e : Event) : bool :=
  match e with EvWriteFile _ _ _ => true | _ => false end.

(** The twelve targets of the scenario other than python and ruby. *)
Definition blockCommentTargets : list string :=
  [ "typescript/hard/42-trapping-rain-water.ts";
    "javascript/hard/42-trapping-rain-water.js";
    "java/hard/42-trapping-rain-water.java";
    "cpp/hard/42-trapping-rain-water.cpp";
    "c/hard/42-trapping-rain-water.c";
    "csharp/hard/42-trapping-rain-water.cs";
    "dart/hard/42_trapping_rain_water.dart";
    "php/hard/42-trapping-rain-water.php";
    "go/hard/42-trapping-rain-water.go";
    "rust/hard/42-trapping-rain-water.rs";
    "swift/hard/42-trapping-rain-water.swift";
    "kotlin/hard/42-trapping-rain-water.kt" ].

(* ================================================================== *)
(** ** More of the source: the token pattern and the totals *)

(** The pattern both scripts run on the landing page, lines 157 and 785:
    [/var csrfToken = '([^']+)'/].  [reCsrfAt] is the match that starts at
    the first character: the marker, the longest non-empty run of characters
    other than the apostrophe, and the apostrophe; the answer is the run
    (group 1). *)
Definition notQuote (c : ascii) : bool := negb (Ascii.eqb c "'"%char).

Definition csrfMarker : string := "var csrfToken = '".

Fixpoint takeN (n : nat) (s : string) : string :=
  match n, s with
  | O, _ => EmptyString
  | S k, EmptyString => EmptyString
  | S k, String c r => String c (takeN k r)
  end.

Definition reCsrfAt (s : string) : option string :=
  if JS.startsWith csrfMarker s then
    let rest := JS.dropN (String.length csrfMarker) s in
    match JS.spanLen notQuote rest with
    | O => None
    | n => match JS.dropN n rest with
           | String d _ => if Ascii.eqb d "'"%char then Some (takeN n rest) else None
           | EmptyString => None
           end
    end
  else None.

(** [data.match(pattern)] and its group 1: the leftmost match wins; [None]
    is the null the scripts answer with "CSRF token not found". *)
Fixpoint csrfTokenMatch (data : string) : option string :=
  match reCsrfAt data with
  | Some t => Some t
  | None =>
      match data with
      | EmptyString => None
      | String _ r => csrfTokenMatch r
      end
  end.

(** [totalProcessed] of [logResults], line 1183. *)
Definition totalProcessed (result : V2.FileOperationResult) : nat :=
  List.length (V2.created result) + List.length (V2.updated result)
  + List.length (V2.skipped result).

(** *** Vocabulary for the properties of the text functions *)

Definition startsWithSpace (s : string) : bool :=
  match s with
  | String c _ => JS.isSpace c
  | EmptyString => false
  end.

Fixpoint endsWithSpace (s : string) : bool :=
  match s with
  | EmptyString => false
  | String c EmptyString => JS.isSpace c
  | String _ r => endsWithSpace r
  end.

(** A character that is neither an opening angle bracket nor an ampersand. *)
Definition plainChar (c : ascii) : bool :=
  negb (Ascii.eqb c "<"%char) && negb (Ascii.eqb c "&"%char).

(** The text is white space only (the empty text included). *)
Definition blank (s : string) : bool := allChars JS.isSpace s.

(** *** Vocabulary for what a run leaves on disk *)

(** [m] keeps the property [I] of the state. *)
Definition preserves {A} (I : St -> Prop) (m : M A) : Prop :=
  forall st, I st -> I (snd (m st)).

(** The file at [p] holds [text]. *)
Definition holds (p text : string) (st : St) : Prop :=
  lookup p (fs st) = Some text.

(** [m] always returns a value. *)
Definition neverThrows {A} (m : M A) : Prop :=
  forall st, exists a, fst (m st) = Ok a.

(** *** More vocabulary for traces *)

Definition isReadFile (e : Event) : bool :=
  match e with EvReadFile _ _ => true | _ => false end.

(** Events other than looking at the disk: no [fs.access], no [fs.readFile]. *)
Definition notExamining (e : Event) : bool := negb (isAccess e || isReadFile e).

Definition isPageClose (e : Event) : bool :=
  match e with EvPageClose _ => true | _ => false end.

(** A page has been opened. *)
Definition isPageOpened (e : Event) : bool :=
  match e with EvNewPage true => true | _ => false end.

(** A call that closes the page or the browser has failed. *)
Definition closeFailed (tr : list Event) : Prop :=
  In (EvPageClose false) tr \/ In (EvBrowserClose false) tr.

(** Everything works but closing the page. *)
Definition stuckPageEnv : Env :=
  {| homeToken := fun _ => None;
     ofToday := fun _ => Some rainWaterDaily;
     question := fun _ _ => Some rainWaterAnswer;
     editorData := fun _ _ => Some [pythonSnippet];
     launchOk := fun _ => true;
     newPageOk := fun _ => true;
     pageOk := fun _ _ => true;
     evaluated := fun _ => Some (Some "trapping-rain-water");
     pageCloseOk := fun _ => false;
     browserCloseOk := fun _ => true;
     readFails := fun _ _ => false;
     mkdirFails := fun _ _ => false;
     writeFails := fun _ _ => false;
     spawnOk := fun _ => true |}.

(** The message [FileManager.createSolutionFiles] starts with, line 974. *)
Definition isMaterializationStart (e : Event) : bool :=
  match e with
  | EvLog LInfo msg => JS.startsWith "Creating solution files for: " msg
  | _ => false
  end.

Definition isSpawn (e : Event) : bool :=
  match e with EvSpawn _ _ => true | _ => false end.

(** Events of the part of a run in which the identity and the details are
    fetched: neither the start of the materialization nor the external
    command. *)
Definition beforeMaterialization (e : Event) : bool :=
  negb (isMaterializationStart e || isSpawn e).

(** The message a failed turn of [FileManager.createSolutionFiles] logs,
    line 1012. *)
Definition isFailureLog (e : Event) : bool :=
  match e with
  | EvLog LErr msg => JS.startsWith "Failed to create " msg
  | _ => false
  end.

Definition isMkdir (e : Event) : bool :=
  match e with EvMkdir _ _ => true | _ => false end.

(** Events that leave the disk alone: no [fs.mkdir], no [fs.writeFile]. *)
Definition leavesDisk (e : Event) : bool := negb (isMkdir e || isWriteFile e).

(* ================================================================== *)
(** ** The external command: [executeCommand], lines 27-77, and
    [CommandExecutor.execute], lines 1020-1066

    Both wrap [spawn] in a promise.  What the child process does comes
    from outside: it is the list of the events it emits, in the order in
    which they arrive.  The handlers are the ones of the source; [resolve]
    and [reject] act on a pending promise only. *)

From Stdlib Require DecimalString.

Module Cmd.

Inductive ProcEvent :=
| StdoutData (chunk : string)
| StderrData (chunk : string)
| Close (code : option nat)       (* [None]: null, the process was ended by a signal *)
| ProcError (err : string).       (* the event "error" *)

(** What [spawn] does: it throws, or gives a process that emits events. *)
Inductive Spawn :=
| SpawnThrows (err : string)
| Spawned (events : list ProcEvent).

Inductive Settled := Pending | Resolved | Rejected (msg : string).

Record Run := {
  output : string;
  errorOutput : string;
  promise : Settled;
  console : list (Level * string)     (* oldest first *)
}.

Definition start : Run :=
  {| output := EmptyString; errorOutput := EmptyString; promise := Pending;
     console := [] |}.

Definition settle (r : Run) (s : Settled) : Run :=
  {| output := output r; errorOutput := errorOutput r;
     promise := match promise r with Pending => s | settled => settled end;
     console := console r |}.

Definition say (r : Run) (l : Level) (msg : string) : Run :=
  {| output := output r; errorOutput := errorOutput r; promise := promise r;
     console := (console r ++ [(l, msg)])%list |}.

Definition addOutput (r : Run) (chunk : string) : Run :=
  {| output := output r ++ chunk; errorOutput := errorOutput r;
     promise := promise r; console := console r |}.

Definition addErrorOutput (r : Run) (chunk : string) : Run :=
  {| output := output r; errorOutput := errorOutput r ++ chunk;
     promise := promise r; console := console r |}.

(** A number or null inside a template literal. *)
Definition showCode (code : option nat) : string :=
  match code with
  | Some n => DecimalString.NilZero.string_of_uint (Nat.to_uint n)
  | None => "null"
  end.

(** [code === 0] *)
Definition isZero (code : option nat) : bool :=
  match code with
  | Some O => true
  | _ => false
  end.

Definition commandLine (command : string) (args : list string) : string :=
  command ++ " " ++ String.concat " " args.

Definition failedWithCode (command : string) (args : list string)
                          (code : option nat) : string :=
  "Command " ++ dq ++ commandLine command args ++ dq ++ " failed with code "
  ++ showCode code.

(** The handlers of the first script, lines 44-71.  The streams are there
    only when the output is piped, that is when [silent]. *)
Definition onEvent1 (command : string) (args : list string) (silent : bool)
                    (r : Run) (e : ProcEvent) : Run :=
  match e with
  | StdoutData chunk => if silent then addOutput r chunk else r
  | StderrData chunk => if silent then addErrorOutput r chunk else r
  | Close code =>
      if isZero code then settle r Resolved
      else
        settle
          (say (say (say (say r LErr ("Command failed: " ++ commandLine command args))
                         LErr ("Exit code: " ++ showCode code))
                    LErr ("Output: " ++ output r))
               LErr ("Error output: " ++ errorOutput r))
          (Rejected (failedWithCode command args code))
  | ProcError err => settle (say r LErr "Process error:") (Rejected err)
  end.

(** [executeCommand], lines 27-77. *)
Definition executeCommand (command : string) (args : list string) (silent : bool)
                          (spawned : Spawn) : Run :=
  match spawned with
  | SpawnThrows err => settle (say start LErr "Failed to spawn process:") (Rejected err)
  | Spawned events => fold_left (onEvent1 command args silent) events start
  end.

(** The handlers of the second script, lines 1037-1064. *)
Definition onEvent2 (command : string) (args : list string) (silent : bool)
                    (r : Run) (e : ProcEvent) : Run :=
  match e with
  | StdoutData chunk => if silent then addOutput r chunk else r
  | StderrData chunk => if silent then addErrorOutput r chunk else r
  | Close code =>
      if isZero code then settle r Resolved
      else
        settle
          (if silent
           then say (say r LErr ("Command output: " ++ output r))
                    LErr ("Command error: " ++ errorOutput r)
           else r)
          (Rejected (failedWithCode command args code))
  | ProcError err => settle r (Rejected "Process spawn failed")
  end.

(** [CommandExecutor.execute], lines 1021-1066; an exception of [spawn]
    inside the promise's executor rejects the promise. *)
Definition execute (command : string) (args : list string) (silent : bool)
                   (spawned : Spawn) : Run :=
  match spawned with
  | SpawnThrows err => settle start (Rejected err)
  | Spawned events => fold_left (onEvent2 command args silent) events start
  end.

End Cmd.

(** *** Vocabulary for the external command *)

(** The events that end a process: its close and its failure. *)
Definition isTerminal (e : Cmd.ProcEvent) : bool :=
  match e with
  | Cmd.Close _ | Cmd.ProcError _ => true
  | _ => false
  end.

(** What the process has written to its standard output. *)
Fixpoint stdoutOf (events : list Cmd.ProcEvent) : string :=
  match events with
  | [] => EmptyString
  | Cmd.StdoutData chunk :: r => chunk ++ stdoutOf r
  | _ :: r => stdoutOf r
  end.

(** How the promise ends when [e] is the first event that ends the
    process; [wrapped] is what the script makes of an error event. *)
Definition settledBy (command : string) (args : list string)
                     (wrapped : string -> string) (e : option Cmd.ProcEvent)
  : Cmd.Settled :=
  match e with
  | Some (Cmd.Close code) =>
      if Cmd.isZero code then Cmd.Resolved
      else Cmd.Rejected (Cmd.failedWithCode command args code)
  | Some (Cmd.ProcError err) => Cmd.Rejected (wrapped err)
  | _ => Cmd.Pending
  end.

(** The command both scripts run for a slug. *)
Definition problemsArgs (slug : string) : list string :=
  ["./node_modules/.bin/bun"; "run"; "problems"; slug; "all"].

(** Events of neither the acquisition nor the external command. *)
Definition quietEvent (e : Event) : bool := notAcquisition e && negb (isSpawn e).

Definition notSpawn (e : Event) : bool := negb (isSpawn e).

(** *** Vocabulary for what the scripts write

    The disk of a run is shared with whatever else runs on the machine,
    the external command included, and [fs.access] may reject for other
    reasons than a missing file.  The properties below therefore speak of
    the calls the script itself issues, as the trace records them. *)

(** The script calls [fs.writeFile] on [p]; the call may fail. *)
Definition isWriteTo (p : string) (e : Event) : bool :=
  match e with
  | EvWriteFile q _ _ => String.eqb q p
  | _ => false
  end.

(** A look at the file at [p] has failed: [fs.access] or [fs.readFile] has
    rejected. *)
Definition isFailedLookAt (p : string) (e : Event) : bool :=
  match e with
  | EvAccess q false => String.eqb q p
  | EvReadFile q false => String.eqb q p
  | _ => false
  end.

(** So far either a look at [p] has failed, or [p] still holds [text] and
    no write to it has been issued. *)
Definition spared (p text : string) (st : St) : Prop :=
  existsb (isFailedLookAt p) (trace st) = true \/
  (holds p text st /\ existsb (isWriteTo p) (trace st) = false).

(** The API works, the python file cannot be written and the external
    command fails. *)
Definition commandFailsEnv : Env :=
  {| homeToken := fun _ => Some "token";
     ofToday := fun _ => Some rainWaterDaily;
     question := fun _ _ => Some rainWaterAnswer;
     editorData := fun _ _ => Some [pythonSnippet];
     launchOk := fun _ => true;
     newPageOk := fun _ => true;
     pageOk := fun _ _ => true;
     evaluated := fun _ => Some (Some "trapping-rain-water");
     pageCloseOk := fun _ => true;
     browserCloseOk := fun _ => true;
     readFails := fun _ _ => false;
     mkdirFails := fun _ _ => false;
     writeFails := fun _ p => onlyAt pythonTarget p;
     spawnOk := fun _ => false |}.

(* ================================================================== *)
(** ** Characters and the replacement scanner *)

Ltac by_cases_on_ascii c :=
  destruct c as [[] [] [] [] [] [] [] []]; vm_compute; try reflexivity; try discriminate.

Lemma slugChar_lower (c : ascii) : JS.isSlugChar c = true -> JS.lowerChar c = c.
Proof. by_cases_on_ascii c. Qed.

Lemma slugChar_not_space (c : ascii) : JS.isSlugChar c = true -> JS.isSpace c = false.
Proof. by_cases_on_ascii c. Qed.

Lemma toLowerCase_slug (s : string) :
  allChars JS.isSlugChar s = true -> JS.toLowerCase s = s.
Proof.
  induction s as [|c r IH]; simpl; intros H; [reflexivity|].
  apply andb_true_iff in H as [Hc Hr].
  now rewrite slugChar_lower, IH.
Qed.

(** A pattern that matches nowhere in [s] leaves [s] as it is. *)
Lemma gsub_no_match (m : string -> option nat) (rep : string) (p : ascii -> bool) :
  (forall c r, p c = true -> m (String c r) = None) ->
  forall s, allChars p s = true -> JS.gsub m rep 0 s = s.
Proof.
  intros Hm s; induction s as [|c r IH]; simpl; intros H; [reflexivity|].
  apply andb_true_iff in H as [Hc Hr].
  now rewrite (Hm c r Hc), IH.
Qed.

Lemma replace_spaces_slug (s : string) :
  allChars JS.isSlugChar s = true -> JS.replaceAll JS.reSpaces "-" s = s.
Proof.
  apply gsub_no_match; intros c r Hc.
  unfold JS.reSpaces; simpl. now rewrite (slugChar_not_space c Hc).
Qed.

Lemma replace_notSlug_slug (s : string) :
  allChars JS.isSlugChar s = true -> JS.replaceAll JS.reNotSlug EmptyString s = s.
Proof.
  apply gsub_no_match; intros c r Hc. simpl. now rewrite Hc.
Qed.

Lemma gsub_notSlug_pattern (s : string) :
  forall k, allChars JS.isSlugChar (JS.gsub JS.reNotSlug EmptyString k s) = true.
Proof.
  induction s as [|c r IH]; intros k; simpl; [reflexivity|].
  destruct k as [|k]; [|apply IH].
  destruct (JS.isSlugChar c) eqn:Hc; simpl.
  - now rewrite Hc, IH.
  - apply IH.
Qed.

Lemma toKebabCase_pattern (T : string) :
  matchesSlugPattern (V2.toKebabCase T) = true.
Proof. apply gsub_notSlug_pattern. Qed.

Lemma toKebabCase_fixes_slugs (s : string) :
  matchesSlugPattern s = true -> V2.toKebabCase s = s.
Proof.
  intros H. unfold V2.toKebabCase.
  now rewrite (toLowerCase_slug s H), (replace_spaces_slug s H),
              (replace_notSlug_slug s H).
Qed.

Lemma toKebabCase_same (T : string) : V1.toKebabCase T = V2.toKebabCase T.
Proof. reflexivity. Qed.

(** C6.  [toKebabCase] (the slugify of the specification) is idempotent and
    its result matches [^[a-z0-9-]*$], for every title, in both scripts. *)
Theorem slugify_idempotent_and_pattern (T : string) :
  V2.toKebabCase (V2.toKebabCase T) = V2.toKebabCase T /\
  matchesSlugPattern (V2.toKebabCase T) = true /\
  V1.toKebabCase (V1.toKebabCase T) = V1.toKebabCase T /\
  matchesSlugPattern (V1.toKebabCase T) = true.
Proof.
  pose proof (toKebabCase_pattern T) as Hp.
  pose proof (toKebabCase_fixes_slugs _ Hp) as Hi.
  repeat split; assumption.
Qed.

(* ================================================================== *)
(** ** Strings *)

Lemma append_nil_r (s : string) : s ++ EmptyString = s.
Proof. induction s; simpl; congruence. Qed.

Lemma append_assoc (a b c : string) : (a ++ b) ++ c = a ++ (b ++ c).
Proof. induction a; simpl; congruence. Qed.

Lemma allChars_app (p : ascii -> bool) (a b : string) :
  allChars p (a ++ b) = allChars p a && allChars p b.
Proof.
  induction a as [|c r IH]; simpl; [reflexivity|].
  now rewrite IH, andb_assoc.
Qed.

Lemma allChars_impl (p q : ascii -> bool) (s : string) :
  (forall c, p c = true -> q c = true) ->
  allChars p s = true -> allChars q s = true.
Proof.
  intros Hpq; induction s as [|c r IH]; simpl; [reflexivity|].
  intros H; apply andb_true_iff in H as [Hc Hr].
  now rewrite (Hpq c Hc), IH.
Qed.

Lemma gsub_allChars (p : ascii -> bool) (m : string -> option nat) (rep : string) :
  allChars p rep = true ->
  forall s k, allChars p s = true -> allChars p (JS.gsub m rep k s) = true.
Proof.
  intros Hrep s; induction s as [|c r IH]; intros k H; simpl; [reflexivity|].
  simpl in H; apply andb_true_iff in H as [Hc Hr].
  destruct k as [|k]; [|now apply IH].
  destruct (m (String c r)) as [[|n]|]; simpl.
  - now rewrite Hc, IH.
  - rewrite allChars_app, Hrep; simpl. now apply IH.
  - now rewrite Hc, IH.
Qed.

Lemma includes_app_l (p a b : string) :
  JS.startsWith p b = true -> JS.includes p (a ++ b) = true.
Proof.
  intros Hp; induction a as [|c r IH]; simpl.
  - destruct b; simpl in *; rewrite Hp; reflexivity.
  - rewrite IH. apply orb_true_r.
Qed.

Lemma slugChar_not_slash (c : ascii) :
  JS.isSlugChar c = true -> negb (Ascii.eqb c "/"%char) = true.
Proof. by_cases_on_ascii c. Qed.

(* ================================================================== *)
(** ** [path.join] on plain segments *)

Lemma segments_nonempty (s : string) : Path.segments s <> [].
Proof.
  induction s as [|c r IH]; simpl; [discriminate|].
  destruct (Ascii.eqb c "/"%char); [discriminate|].
  destruct (Path.segments r); discriminate.
Qed.

Lemma segments_app (a b : string) :
  Path.segments (a ++ String "/"%char b) = (Path.segments a ++ Path.segments b)%list.
Proof.
  induction a as [|c r IH]; simpl; [reflexivity|].
  destruct (Ascii.eqb c "/"%char); [now rewrite IH|].
  rewrite IH. pose proof (segments_nonempty r) as Hne.
  destruct (Path.segments r) as [|h t]; [congruence|reflexivity].
Qed.

Lemma segments_noSlash (f : string) : noSlash f = true -> Path.segments f = [f].
Proof.
  induction f as [|c r IH]; simpl; [reflexivity|].
  intros H; apply andb_true_iff in H as [Hc Hr].
  apply negb_true_iff in Hc. rewrite Hc, (IH Hr). reflexivity.
Qed.

Lemma lastChar_app (a : string) (c : ascii) (r : string) :
  Path.lastChar (a ++ String c r) = Path.lastChar (String c r).
Proof.
  induction a as [|d a IH]; [reflexivity|].
  change (Path.lastChar (String d (a ++ String c r)) = Path.lastChar (String c r)).
  destruct (a ++ String c r) eqn:Heq.
  - destruct a; discriminate.
  - rewrite <- IH. reflexivity.
Qed.

Lemma lastChar_noSlash (f : string) :
  noSlash f = true -> Path.isSlash (Path.lastChar f) = false.
Proof.
  induction f as [|c r IH]; [reflexivity|].
  intros H; simpl in H; apply andb_true_iff in H as [Hc Hr].
  destruct r as [|d r]; [simpl; now apply negb_true_iff in Hc|].
  apply (IH Hr).
Qed.

Lemma concat_snoc (sep : string) (l : list string) (x y : string) :
  String.concat sep (l ++ [x; y])%list = String.concat sep (l ++ [x])%list ++ sep ++ y.
Proof.
  induction l as [|h t IH]; simpl; [reflexivity|].
  destruct (t ++ [x; y])%list eqn:H1; [destruct t; discriminate|].
  destruct (t ++ [x])%list eqn:H2; [destruct t; discriminate|].
  rewrite IH. now rewrite !append_assoc.
Qed.

(** Joining a normalized relative directory and a plain segment puts a slash
    between them. *)
Lemma join_plain (a f : string) (top : string) (rest : list string) :
  fold_left (Path.pushSeg true) (Path.segments a) [] = top :: rest ->
  String.concat "/" (rev (top :: rest)) = a ->
  JS.startsWith "/" a = false ->
  plainSegment f ->
  Path.join a f = a ++ "/" ++ f.
Proof.
  intros Hstack Hnorm Habs (Hns & Hne & Hd1 & Hd2).
  assert (Ha : a <> EmptyString).
  { intros ->. simpl in Hstack. discriminate. }
  unfold Path.join.
  destruct a as [|c a']; [congruence|]. destruct f as [|c' f']; [congruence|].
  set (a := String c a') in *. set (f := String c' f') in *.
  assert (Hc : Ascii.eqb c "/"%char = false).
  { simpl in Habs. rewrite andb_true_r in Habs.
    now rewrite Ascii.eqb_sym. }
  unfold Path.normalize.
  change (a ++ "/" ++ f) with (String c (a' ++ String "/"%char f)).
  cbv beta iota zeta.
  rewrite Hc. simpl negb.
  change (String c (a' ++ String "/"%char f)) with (a ++ String "/"%char f).
  unfold Path.normalizeString.
  rewrite segments_app, fold_left_app, Hstack, (segments_noSlash f Hns).
  simpl fold_left.
  assert (Hpush : Path.pushSeg true (top :: rest) f = f :: top :: rest).
  { unfold Path.pushSeg.
    apply String.eqb_neq in Hne, Hd1, Hd2. now rewrite Hne, Hd1, Hd2. }
  rewrite Hpush.
  assert (Hcat : String.concat "/" (rev (f :: top :: rest)) = a ++ "/" ++ f).
  { simpl rev. simpl rev in Hnorm.
    rewrite <- app_assoc. simpl app. rewrite concat_snoc, Hnorm. reflexivity. }
  rewrite Hcat.
  assert (Hlast : Path.lastChar (a ++ String "/"%char f) = Path.lastChar f).
  { replace (a ++ String "/"%char f) with ((a ++ "/") ++ String c' f')
      by (rewrite append_assoc; reflexivity).
    apply lastChar_app. }
  rewrite Hlast, (lastChar_noSlash f Hns).
  reflexivity.
Qed.

(* ================================================================== *)
(** ** Target paths *)

Ltac catalog_cases H :=
  simpl in H;
  repeat (destruct H as [H|H]; [inversion H; subst|]);
  try contradiction.

Lemma catalog_dir (language extension diff : string) :
  In (language, extension) LANGUAGE_EXTENSIONS ->
  In diff ["Easy"; "Medium"; "Hard"] ->
  let dir := language ++ "/" ++ JS.toLowerCase diff in
  Path.join language (JS.toLowerCase diff) = dir /\
  (exists top rest,
      fold_left (Path.pushSeg true) (Path.segments dir) [] = top :: rest /\
      String.concat "/" (rev (top :: rest)) = dir) /\
  JS.startsWith "/" dir = false.
Proof.
  intros Hl Hd. catalog_cases Hl; catalog_cases Hd;
    (split; [vm_compute; reflexivity|split; [|vm_compute; reflexivity]]);
    eexists; eexists; split; vm_compute; reflexivity.
Qed.

Lemma catalog_lookup (language extension : string) :
  In (language, extension) LANGUAGE_EXTENSIONS ->
  lookup language LANGUAGE_EXTENSIONS = Some extension /\
  noSlash extension = true.
Proof. intros Hl. catalog_cases Hl; split; reflexivity. Qed.

Lemma slug_noSlash (T : string) : noSlash (V2.toKebabCase T) = true.
Proof.
  apply (allChars_impl JS.isSlugChar); [apply slugChar_not_slash|].
  apply toKebabCase_pattern.
Qed.

Lemma differs_by_inclusion (p f g : string) :
  JS.includes p f = true -> JS.includes p g = false -> f <> g.
Proof. intros Hf Hg ->. congruence. Qed.

Lemma specFileName_plain (language extension : string) (d : ProblemDetails) :
  In (language, extension) LANGUAGE_EXTENSIONS ->
  noSlash (questionId d) = true ->
  plainSegment (specFileName language extension d).
Proof.
  intros Hl Hq. destruct (catalog_lookup _ _ Hl) as [_ He].
  unfold specFileName.
  destruct (language =? "dart")%string.
  - assert (Hin : JS.includes "_"
        (questionId d ++ "_" ++ JS.replaceAll (JS.reLit "-") "_"
           (V2.toKebabCase (title d)) ++ "." ++ extension) = true)
      by (apply includes_app_l; reflexivity).
    split; [|repeat split; eapply differs_by_inclusion; eauto].
    unfold noSlash in *. rewrite !allChars_app, Hq, He. simpl.
    rewrite andb_true_r. apply gsub_allChars; [reflexivity|apply slug_noSlash].
  - assert (Hin : JS.includes "-"
        (questionId d ++ "-" ++ V2.toKebabCase (title d) ++ "." ++ extension) = true)
      by (apply includes_app_l; reflexivity).
    split; [|repeat split; eapply differs_by_inclusion; eauto].
    pose proof (slug_noSlash (title d)) as Hs.
    unfold noSlash in *. rewrite !allChars_app, Hq, He, Hs. reflexivity.
Qed.

Lemma getFileName_spec (language extension : string) (d : ProblemDetails) :
  In (language, extension) LANGUAGE_EXTENSIONS ->
  V2.getFileName language d (V2.toKebabCase (title d))
  = specFileName language extension d.
Proof.
  intros Hl. destruct (catalog_lookup _ _ Hl) as [Hx _].
  unfold V2.getFileName, specFileName. now rewrite Hx.
Qed.

Lemma fileName_spec (language extension : string) (d : ProblemDetails) :
  V1.fileName language extension d (V1.toKebabCase (title d))
  = specFileName language extension d.
Proof.
  unfold V1.fileName, specFileName.
  destruct (language =? "dart")%string; [reflexivity|].
  now rewrite !append_assoc.
Qed.

Lemma filePath_explicit (language extension : string) (d : ProblemDetails) :
  In (language, extension) LANGUAGE_EXTENSIONS ->
  In (difficulty d) ["Easy"; "Medium"; "Hard"] ->
  noSlash (questionId d) = true ->
  V2.filePath language d (V2.toKebabCase (title d))
  = (language ++ "/" ++ JS.toLowerCase (difficulty d)) ++ "/"
    ++ specFileName language extension d.
Proof.
  intros Hl Hd Hq.
  destruct (catalog_dir _ _ _ Hl Hd) as (Hdir & (top & rest & Hst & Hcat) & Habs).
  unfold V2.filePath. rewrite Hdir, (getFileName_spec _ _ _ Hl).
  apply (join_plain _ _ top rest Hst Hcat Habs).
  now apply specFileName_plain.
Qed.

Lemma filePath_same (language extension : string) (d : ProblemDetails) :
  In (language, extension) LANGUAGE_EXTENSIONS ->
  V1.filePath language extension d (V1.toKebabCase (title d))
  = V2.filePath language d (V2.toKebabCase (title d)).
Proof.
  intros Hl. unfold V1.filePath, V2.filePath.
  now rewrite fileName_spec, (getFileName_spec _ _ _ Hl).
Qed.

(** C5.  The scenario of the specification: the title slugifies to
    trapping-rain-water and the python target is
    python/hard/42-trapping-rain-water.py.  For every identity and every
    catalog entry, both scripts compute the target as [path.join] of the
    directory (language, lower-cased difficulty) and the file name
    questionId-slug.ext; for dart the file name joins the id and the words
    of the slug with underscores.  When the difficulty is Easy, Medium or
    Hard and the question id has no slash, that path is the three names
    under one another. *)
Theorem target_path_layout :
  V2.toKebabCase "Trapping Rain Water" = "trapping-rain-water" /\
  (forall body snippets,
      V2.filePath "python" (trappingRainWater body snippets)
        (V2.toKebabCase "Trapping Rain Water")
      = "python/hard/42-trapping-rain-water.py") /\
  (forall (d : ProblemDetails) (language extension : string),
      In (language, extension) LANGUAGE_EXTENSIONS ->
      let slug := V2.toKebabCase (title d) in
      let file :=
        if (language =? "dart")%string
        then questionId d ++ "_" ++ JS.replaceAll (JS.reLit "-") "_" slug
             ++ "." ++ extension
        else questionId d ++ "-" ++ slug ++ "." ++ extension in
      (V2.filePath language d slug
       = Path.join (Path.join language (JS.toLowerCase (difficulty d))) file /\
       V1.filePath language extension d (V1.toKebabCase (title d))
       = Path.join (Path.join language (JS.toLowerCase (difficulty d))) file) /\
      (In (difficulty d) ["Easy"; "Medium"; "Hard"] ->
       noSlash (questionId d) = true ->
       let dir := language ++ "/" ++ JS.toLowerCase (difficulty d) in
       V2.filePath language d slug = dir ++ "/" ++ file /\
       V1.filePath language extension d (V1.toKebabCase (title d))
       = dir ++ "/" ++ file)).
Proof.
  split; [reflexivity|]. split; [intros; reflexivity|].
  intros d language extension Hl slug file. split.
  - rewrite (filePath_same _ _ _ Hl). unfold V2.filePath, file, slug.
    rewrite (getFileName_spec _ _ _ Hl). split; reflexivity.
  - intros Hd Hq dir. rewrite (filePath_same _ _ _ Hl).
    split; apply (filePath_explicit _ _ _ Hl Hd Hq).
Qed.

Lemma target_path_layout_witness :
  V2.filePath "dart" (trappingRainWater EmptyString []) (V2.toKebabCase "Trapping Rain Water")
  = "dart/hard/42_trapping_rain_water.dart".
Proof.
  apply (proj1 (proj2 (proj2 (proj2 target_path_layout) (trappingRainWater EmptyString [])
                         "dart" "dart" ltac:(simpl; tauto))
                      ltac:(simpl; tauto) ltac:(reflexivity))).
Defined.

(* ================================================================== *)
(** ** Markup to plain text: where the characters come from *)













(** *** What the tag pattern strips is what lies within a tag *)

Lemma get_lt (s : string) : forall n c, String.get n s = Some c -> n < String.length s.
Proof.
  induction s as [|d r IH]; intros n c H; [destruct n; discriminate|].
  destruct n as [|n]; simpl in *; [lia|]. apply IH in H. lia.
Qed.

Lemma dropN_get (s : string) : forall n k, String.get k (JS.dropN n s) = String.get (n + k) s.
Proof.
  induction s as [|d r IH]; intros n k.
  - destruct n; simpl; [reflexivity|]. now destruct k.
  - destruct n as [|n]; [reflexivity|]. simpl. apply IH.
Qed.

Lemma dropN_length (s : string) : forall n, String.length (JS.dropN n s) <= String.length s.
Proof.
  induction s as [|d r IH]; intros n; destruct n; simpl; try lia.
  specialize (IH n). lia.
Qed.

Lemma dropN_head (s : string) :
  forall n d, String.get n s = Some d -> exists t, JS.dropN n s = String d t.
Proof.
  induction s as [|c r IH]; intros n d H; [destruct n; discriminate|].
  destruct n as [|n]; simpl in *; [inversion H; now exists r|]. now apply IH.
Qed.

(** The run of characters that satisfy [q] ends at the first one that
    does not. *)
Lemma spanLen_first (q : ascii -> bool) (s : string) :
  forall m d,
    String.get m s = Some d -> q d = false ->
    (forall k c, k < m -> String.get k s = Some c -> q c = true) ->
    JS.spanLen q s = m.
Proof.
  induction s as [|c r IH]; intros m d Hm Hd Hall; [destruct m; discriminate|].
  destruct m as [|m]; simpl in *.
  - inversion Hm; subst. now rewrite Hd.
  - rewrite (Hall 0 c ltac:(lia) eq_refl). f_equal.
    apply (IH m d Hm Hd). intros k c' Hk Hg. apply (Hall (S k) c'); [lia|exact Hg].
Qed.

Lemma spanLen_inside (q : ascii -> bool) (s : string) :
  forall k c, k < JS.spanLen q s -> String.get k s = Some c -> q c = true.
Proof.
  induction s as [|d r IH]; intros k c Hk Hg; simpl in *; [lia|].
  destruct (q d) eqn:Hq; [|lia].
  destruct k as [|k]; [inversion Hg; now subst|]. apply (IH k c); [lia|exact Hg].
Qed.

Lemma notGt_false (c : ascii) : JS.notGt c = false <-> c = ">"%char.
Proof.
  unfold JS.notGt. rewrite negb_false_iff. apply Ascii.eqb_eq.
Qed.

(** A match of the tag pattern at the start of [s]: an opening bracket, [m]
    characters that are no closing bracket, [m] at least one, and a closing
    bracket. *)
Lemma reTag_match (s : string) (n : nat) :
  JS.reTag s = Some n ->
  exists m, n = S (S m) /\ 1 <= m /\
            String.get 0 s = Some "<"%char /\
            String.get (S m) s = Some ">"%char /\
            forall k, 0 < k < S m -> String.get k s <> Some ">"%char.
Proof.
  destruct s as [|c r]; [discriminate|]. unfold JS.reTag.
  destruct (Ascii.eqb_spec c "<"%char) as [->|]; [|discriminate].
  destruct (JS.spanLen JS.notGt r) as [|m] eqn:Hs; [discriminate|].
  destruct (JS.dropN (S m) r) as [|d t] eqn:Hd; [discriminate|].
  destruct (Ascii.eqb_spec d ">"%char) as [->|]; [|discriminate].
  intros H. inversion H; subst. exists (S m). repeat split; try lia.
  - change (String.get (S m) r = Some ">"%char).
    replace (S m) with (S m + 0) by lia. rewrite <- dropN_get, Hd. reflexivity.
  - intros k [k1 k2] Hg. destruct k as [|k]; [lia|]. simpl in Hg.
    assert (Hq := spanLen_inside JS.notGt r k ">"%char ltac:(lia) Hg).
    discriminate Hq.
Qed.

(** Where the tag pattern does not match, no tag starts. *)
Lemma reTag_no_match (s : string) (stop : nat) :
  JS.reTag s = None ->
  2 <= stop ->
  String.get 0 s = Some "<"%char ->
  String.get stop s = Some ">"%char ->
  (forall k, 0 < k < stop -> String.get k s <> Some ">"%char) ->
  False.
Proof.
  destruct s as [|c r]; [discriminate|]. unfold JS.reTag.
  intros Hn Hstop H0 Hs Hbetween. simpl in H0. inversion H0; subst.
  change (Ascii.eqb "<" "<") with true in Hn. cbv iota in Hn.
  destruct stop as [|m]; [lia|]. simpl in Hs.
  assert (Hspan : JS.spanLen JS.notGt r = m).
  { apply (spanLen_first JS.notGt r m ">"%char Hs eq_refl).
    intros k c Hk Hg. destruct (JS.notGt c) eqn:Hq; [reflexivity|].
    apply notGt_false in Hq. subst c.
    destruct (Hbetween (S k) ltac:(lia)). exact Hg. }
  rewrite Hspan in Hn. destruct m as [|m]; [lia|].
  destruct (dropN_head r (S m) _ Hs) as [t Ht]. rewrite Ht in Hn.
  change (Ascii.eqb ">" ">") with true in Hn. discriminate Hn.
Qed.

(** While the scan is behind a match, it strips; then it goes on as at the
    start. *)
Lemma strippedMask_skip (s : string) :
  forall k i,
    nth i (strippedMask k s) false
    = if i <? k then i <? String.length s
      else nth (i - k) (strippedMask 0 (JS.dropN k s)) false.
Proof.
  induction s as [|c r IH]; intros k i.
  - assert (Hnil : forall j, nth j (@nil bool) false = false) by (now intros [|j]).
    destruct k; cbn [strippedMask JS.dropN String.length]; rewrite !Hnil.
    + now destruct i.
    + destruct (i <? S k); [now destruct i|reflexivity].
  - destruct k as [|k]; [cbn [JS.dropN]; now rewrite Nat.sub_0_r|].
    cbn [strippedMask JS.dropN]. destruct i as [|i]; [reflexivity|].
    cbn [nth]. rewrite IH. reflexivity.
Qed.

Lemma withinTag_shift (c : ascii) (r : string) (i : nat) :
  withinTag r i -> withinTag (String c r) (S i).
Proof.
  intros (start & stop & Hi & Hlen & H1 & H2 & H3).
  exists (S start), (S stop). repeat split; try lia; try assumption.
  intros k Hk. destruct k as [|k]; [lia|]. simpl. apply H3. lia.
Qed.

(** Behind a closing bracket the tags are those of the rest. *)
Lemma withinTag_behind (s : string) (g i : nat) :
  String.get g s = Some ">"%char -> g < i ->
  (withinTag s i <-> withinTag (JS.dropN (S g) s) (i - S g)).
Proof.
  intros Hg Hi. split.
  - intros (start & stop & Hr & Hlen & H1 & H2 & H3).
    assert (Hs : g < start).
    { destruct (Nat.lt_trichotomy start g) as [Hlt|[Heq|Hgt]]; [|subst; congruence|exact Hgt].
      destruct (H3 g ltac:(lia)). exact Hg. }
    exists (start - S g), (stop - S g). rewrite !dropN_get.
    replace (S g + (start - S g)) with start by lia.
    replace (S g + (stop - S g)) with stop by lia.
    repeat split; try lia; try assumption.
    intros k Hk. rewrite dropN_get. apply H3. lia.
  - intros (start & stop & Hr & Hlen & H1 & H2 & H3).
    rewrite dropN_get in H1, H2.
    exists (S g + start), (S g + stop). repeat split; try lia; try assumption.
    intros k Hk. specialize (H3 (k - S g) ltac:(lia)). rewrite dropN_get in H3.
    now replace (S g + (k - S g)) with k in H3 by lia.
Qed.

(** The characters the tag pattern strips are those within a tag. *)
Lemma strippedMask_withinTag (n : nat) :
  forall s i,
    String.length s <= n ->
    (nth i (strippedMask 0 s) false = true <-> withinTag s i).
Proof.
  induction n as [|n IH]; intros s i Hn.
  - destruct s; [|simpl in Hn; lia]. simpl. split.
    + now destruct i.
    + intros (start & stop & _ & _ & H1 & _). now destruct start.
  - destruct s as [|c r].
    + simpl. split; [now destruct i|].
      intros (start & stop & _ & _ & H1 & _). now destruct start.
    + simpl in Hn. cbn [strippedMask].
      destruct (JS.reTag (String c r)) as [[|k]|] eqn:Ht.
      * destruct (reTag_match _ _ Ht) as (m & Hm & _). discriminate Hm.
      * destruct (reTag_match _ _ Ht) as (m & Hm & Hpos & H0 & Hstop & Hbetween).
        assert (k = S m) by lia. subst k. clear Hm.
        assert (Hlen := get_lt _ _ _ Hstop). simpl in Hlen.
        destruct i as [|i]; cbn [nth].
        { split; [|reflexivity]. intros _. exists 0, (S m).
          repeat split; try lia; assumption. }
        rewrite strippedMask_skip. destruct (Nat.ltb_spec i (S m)) as [Hi|Hi].
        { split.
          - intros _. exists 0, (S m). repeat split; try lia; assumption.
          - intros _. apply Nat.ltb_lt. lia. }
        rewrite (IH (JS.dropN (S m) r) (i - S m)).
        2:{ pose proof (dropN_length r (S m)). lia. }
        symmetry. apply (withinTag_behind (String c r) (S m) (S i) Hstop). lia.
      * destruct i as [|i]; cbn [nth].
        { split; [discriminate|].
          intros (start & stop & Hr & Hlen & H1 & H2 & H3).
          assert (start = 0) by lia. subst start.
          destruct (reTag_no_match _ stop Ht); auto; lia. }
        rewrite (IH r i) by lia. split; [apply withinTag_shift|].
        intros (start & stop & Hr & Hlen & H1 & H2 & H3).
        destruct start as [|start].
        { destruct (reTag_no_match _ stop Ht); auto; lia. }
        destruct stop as [|stop]; [lia|].
        exists start, stop. repeat split; try lia; try assumption.
        intros k Hk. apply (H3 (S k)). lia.
Qed.

(** What the code strips and what the specification calls a tag are the
    same positions of the markup. *)
Lemma stripped_iff_withinTag (html : string) (i : nat) :
  inStrippedTag html i = true <-> withinTag html i.
Proof. apply (strippedMask_withinTag (String.length html)). lia. Qed.




(** The markup [<p>2 > 1</p>]: the two tags are stripped, the bracket of
    the text is kept. *)
Example tags_and_a_bracket_of_the_text :
  V2.htmlToText "<p>2 > 1</p>" = "2 > 1" /\
  withinTag "<p>2 > 1</p>" 0 /\ withinTag "<p>2 > 1</p>" 2 /\
  withinTag "<p>2 > 1</p>" 8 /\ withinTag "<p>2 > 1</p>" 11 /\
  ~ withinTag "<p>2 > 1</p>" 5 /\
  In (">"%char, Some 5) (htmlToTextT (tracedFrom 0 "<p>2 > 1</p>")).
Proof.
  split; [reflexivity|].
  repeat split; try (apply stripped_iff_withinTag; reflexivity).
  - intros H. apply stripped_iff_withinTag in H. discriminate H.
  - vm_compute. tauto.
Qed.

(** The first script trims the same text inside its comment block. *)
Lemma formatProblemFile_same (language problemContent code : string) :
  V1.formatProblemFile language problemContent code
  = V2.formatProblemFile language problemContent code.
Proof.
  unfold V1.formatProblemFile, V1.htmlToComment, V2.formatProblemFile, V2.htmlToText.
  destruct (lookup language COMMENT_STYLES) as [[start stop]|];
    now rewrite !append_assoc.
Qed.

(** *** No tag is left after the tag pattern has run *)

Lemma spanLen_rest (p : ascii -> bool) (s : string) :
  JS.dropN (JS.spanLen p s) s = EmptyString \/
  exists d r, JS.dropN (JS.spanLen p s) s = String d r /\ p d = false.
Proof.
  induction s as [|c r IH]; simpl; [now left|].
  destruct (p c) eqn:Hc; simpl; [exact IH|].
  right; now exists c, r.
Qed.

Lemma spanLen_all (p : ascii -> bool) (s : string) :
  JS.dropN (JS.spanLen p s) s = EmptyString -> allChars p s = true.
Proof.
  induction s as [|c r IH]; simpl; [reflexivity|].
  destruct (p c) eqn:Hc; simpl; [exact IH|discriminate].
Qed.

Lemma allChars_spanLen (p : ascii -> bool) (s : string) :
  allChars p s = true -> JS.dropN (JS.spanLen p s) s = EmptyString.
Proof.
  induction s as [|c r IH]; simpl; [reflexivity|].
  intros H; apply andb_true_iff in H as [Hc Hr]. rewrite Hc. simpl. now apply IH.
Qed.

Lemma reTag_noGt (c : ascii) (r : string) :
  allChars JS.notGt r = true -> JS.reTag (String c r) = None.
Proof.
  intros H. unfold JS.reTag. destruct (Ascii.eqb c "<"%char); [|reflexivity].
  destruct (JS.spanLen JS.notGt r) as [|n] eqn:Hn; [reflexivity|].
  rewrite <- Hn, (allChars_spanLen _ _ H). reflexivity.
Qed.

Lemma strip_noGt (s : string) :
  allChars JS.notGt s = true -> JS.gsub JS.reTag EmptyString 0 s = s.
Proof.
  induction s as [|c r IH]; [reflexivity|].
  intros H. simpl in H. apply andb_true_iff in H as [Hc Hr].
  cbn [JS.gsub]. now rewrite (reTag_noGt c r Hr), (IH Hr).
Qed.

(** When no tag starts at an opening bracket, none starts there after the
    rest has been stripped either. *)
Lemma reTag_after_strip (c : ascii) (r : string) :
  JS.reTag (String c r) = None ->
  JS.reTag (String c (JS.gsub JS.reTag EmptyString 0 r)) = None.
Proof.
  intros H. remember (JS.gsub JS.reTag EmptyString 0 r) as X eqn:HX.
  unfold JS.reTag in H |- *.
  destruct (Ascii.eqb c "<"%char); [|reflexivity].
  destruct (JS.spanLen JS.notGt r) as [|n] eqn:Hn.
  - clear H. destruct r as [|d r']; [now subst X|].
    simpl in Hn. destruct (JS.notGt d) eqn:Hd; [discriminate|].
    assert (Hd' : Ascii.eqb d "<"%char = false).
    { unfold JS.notGt in Hd. apply negb_false_iff, Ascii.eqb_eq in Hd. now subst d. }
    cbn [JS.gsub] in HX. unfold JS.reTag in HX at 1. rewrite Hd' in HX.
    subst X. simpl. now rewrite Hd.
  - rewrite <- Hn in H. destruct (spanLen_rest JS.notGt r) as [He|(d & r' & He & Hd)].
    + rewrite (strip_noGt r (spanLen_all _ _ He)) in HX. subst X.
      now rewrite Hn, <- Hn, He.
    + rewrite He in H. unfold JS.notGt in Hd. apply negb_false_iff in Hd.
      rewrite Hd in H. discriminate.
Qed.

Lemma reTag_positive (s : string) : JS.reTag s <> Some 0.
Proof.
  unfold JS.reTag. destruct s as [|c r]; [discriminate|].
  destruct (Ascii.eqb c "<"%char); [|discriminate].
  destruct (JS.spanLen JS.notGt r); [discriminate|].
  destruct (JS.dropN (S n) r) as [|d r']; [discriminate|].
  destruct (Ascii.eqb d ">"%char); discriminate.
Qed.

Lemma strip_tagFree (s : string) :
  forall k, tagFree (JS.gsub JS.reTag EmptyString k s) = true.
Proof.
  induction s as [|c r IH]; intros k; [reflexivity|].
  destruct k as [|k]; [|apply IH].
  cbn [JS.gsub]. destruct (JS.reTag (String c r)) as [[|n]|] eqn:Hm.
  - destruct (reTag_positive _ Hm).
  - apply IH.
  - cbn [tagFree]. now rewrite (reTag_after_strip c r Hm), IH.
Qed.

(** For every markup, what the tag pattern leaves holds no tag. *)
Lemma stripped_markup_has_no_tag (html : string) :
  tagFree (JS.replaceAll JS.reTag EmptyString html) = true.
Proof. apply strip_tagFree. Qed.

Lemma replace_absent (p rep s : string) :
  JS.includes p s = false -> JS.replaceAll (JS.reLit p) rep s = s.
Proof.
  unfold JS.replaceAll. induction s as [|c r IH]; [reflexivity|].
  cbn [JS.includes JS.gsub]. intros H. apply orb_false_iff in H as [H1 H2].
  assert (Hm : JS.reLit p (String c r) = None) by (unfold JS.reLit; now rewrite H1).
  now rewrite Hm, IH.
Qed.

(** When the stripped markup holds no entity, the plain text is the stripped
    markup, trimmed.  The condition is on the stripped markup: stripping a
    tag can put the two halves of an entity together (next lemma). *)
Lemma htmlToText_without_entities (html : string) :
  noEntities (JS.replaceAll JS.reTag EmptyString html) = true ->
  V2.htmlToText html = JS.trim (JS.replaceAll JS.reTag EmptyString html).
Proof.
  unfold noEntities. intros H.
  apply andb_true_iff in H as [H H0]. apply andb_true_iff in H as [H H1].
  apply andb_true_iff in H as [H H2]. apply andb_true_iff in H as [H H3].
  apply andb_true_iff in H as [H H4].
  repeat match goal with
         | h : negb _ = true |- _ => apply negb_true_iff in h
         end.
  unfold V2.htmlToText.
  rewrite (replace_absent "&nbsp;" " " _ H), (replace_absent "&lt;" "<" _ H4),
    (replace_absent "&gt;" ">" _ H3), (replace_absent "&quot;" dq _ H2),
    (replace_absent "&#39;" "'" _ H1), (replace_absent "&amp;" "&" _ H0).
  reflexivity.
Qed.

Example entity_assembled_by_stripping :
  noEntities "&l<b>t;i&g<b>t;" = true /\
  V2.htmlToText "&l<b>t;i&g<b>t;" = "<i>".
Proof. split; reflexivity. Qed.

(* ================================================================== *)
(** ** Traces *)

Lemma count_app (p : Event -> bool) (a b : list Event) :
  count p (a ++ b) = count p a + count p b.
Proof. unfold count. now rewrite filter_app, length_app. Qed.

Lemma count_none (p q : Event -> bool) (l : list Event) :
  (forall e, q e = true -> p e = false) ->
  forallb q l = true -> count p l = 0.
Proof.
  intros Hpq. induction l as [|e l IH]; [reflexivity|].
  simpl. intros H; apply andb_true_iff in H as [He Hl].
  unfold count in *. simpl. rewrite (Hpq e He). now apply IH.
Qed.

Lemma forallb_not_in (q : Event -> bool) (l : list Event) (e : Event) :
  forallb q l = true -> q e = false -> ~ In e l.
Proof.
  intros H He Hin. rewrite forallb_forall in H. rewrite (H e Hin) in He. discriminate.
Qed.

Section EmitsOnly.
Variable P : Event -> bool.

Lemma emitsOnly_ret {A} (a : A) : emitsOnly P (ret a).
Proof. intros st. exists []. now split. Qed.

Lemma emitsOnly_throw {A} (msg : string) : emitsOnly P (@throw A msg).
Proof. intros st. exists []. now split. Qed.

Lemma emitsOnly_emit (e : Event) : P e = true -> emitsOnly P (emit e).
Proof. intros He st. exists [e]. simpl. now rewrite He. Qed.

Lemma emitsOnly_log (l : Level) (msg : string) :
  P (EvLog l msg) = true -> emitsOnly P (log l msg).
Proof. apply emitsOnly_emit. Qed.

Lemma emitsOnly_bind {A B} (m : M A) (k : A -> M B) :
  emitsOnly P m -> (forall a, emitsOnly P (k a)) -> emitsOnly P (bind m k).
Proof.
  intros Hm Hk st. unfold bind. destruct (Hm st) as (n1 & E1 & F1).
  destruct (m st) as [[a|e] st1]; simpl in E1.
  - destruct (Hk a st1) as (n2 & E2 & F2). exists (n2 ++ n1)%list.
    rewrite E2, E1, app_assoc, forallb_app, F1, F2. now split.
  - exists n1. now split.
Qed.

Lemma emitsOnly_tryCatch {A} (m : M A) (h : string -> M A) :
  emitsOnly P m -> (forall e, emitsOnly P (h e)) -> emitsOnly P (tryCatch m h).
Proof.
  intros Hm Hh st. unfold tryCatch. destruct (Hm st) as (n1 & E1 & F1).
  destruct (m st) as [[a|e] st1]; simpl in E1.
  - exists n1. now split.
  - destruct (Hh e st1) as (n2 & E2 & F2). exists (n2 ++ n1)%list.
    rewrite E2, E1, app_assoc, forallb_app, F1, F2. now split.
Qed.

Lemma emitsOnly_finally {A} (m : M A) (f : M unit) :
  emitsOnly P m -> emitsOnly P f -> emitsOnly P (finally m f).
Proof.
  intros Hm Hf st. unfold finally. destruct (Hm st) as (n1 & E1 & F1).
  destruct (m st) as [r st1]; simpl in E1.
  destruct (Hf st1) as (n2 & E2 & F2).
  exists (n2 ++ n1)%list.
  destruct (f st1) as [[u|e] st2]; simpl in *;
    rewrite E2, E1, app_assoc, forallb_app, F1, F2; now split.
Qed.

Lemma emitsOnly_all2 {A B} (m1 : M A) (m2 : M B) :
  emitsOnly P m1 -> emitsOnly P m2 -> emitsOnly P (all2 m1 m2).
Proof.
  intros H1 H2 st. unfold all2. destruct (H1 st) as (n1 & E1 & F1).
  destruct (m1 st) as [r1 st1]; simpl in E1.
  destruct (H2 st1) as (n2 & E2 & F2).
  exists (n2 ++ n1)%list.
  destruct (m2 st1) as [r2 st2]; simpl in *.
  destruct r1, r2; simpl; rewrite E2, E1, app_assoc, forallb_app, F1, F2; now split.
Qed.

Lemma emitsOnly_foldM {A B} (body : B -> A -> M A) (l : list B) :
  (forall x a, emitsOnly P (body x a)) -> forall a, emitsOnly P (foldM body l a).
Proof.
  intros Hb. induction l as [|x r IH]; intros a; simpl.
  - apply emitsOnly_ret.
  - apply emitsOnly_bind; [apply Hb|apply IH].
Qed.

Lemma emitsOnly_setCsrfToken (t : option string) : emitsOnly P (setCsrfToken t).
Proof. intros st. exists []. now split. Qed.

Lemma emitsOnly_setBrowser (b : bool) : emitsOnly P (setBrowser b).
Proof. intros st. exists []. now split. Qed.

Lemma emitsOnly_getBrowser : emitsOnly P getBrowser.
Proof. intros st. exists []. now split. Qed.

Lemma emitsOnly_putFile (p body : string) : emitsOnly P (putFile p body).
Proof. intros st. exists []. now split. Qed.

Lemma emitsOnly_attempt (ok : list Event -> bool) (ev : bool -> Event) (msg : string) :
  P (ev true) = true -> P (ev false) = true -> emitsOnly P (attempt ok ev msg).
Proof.
  intros Ht Hf st. unfold attempt. destruct (ok (trace st)).
  - exists [ev true]. simpl. now rewrite Ht.
  - exists [ev false]. simpl. now rewrite Hf.
Qed.

Lemma emitsOnly_request {A} (answer : list Event -> option A) (ev : bool -> Event)
      (msg : string) :
  P (ev true) = true -> P (ev false) = true -> emitsOnly P (request answer ev msg).
Proof.
  intros Ht Hf st. unfold request. destruct (answer (trace st)).
  - exists [ev true]. simpl. now rewrite Ht.
  - exists [ev false]. simpl. now rewrite Hf.
Qed.

Lemma emitsOnly_access (p : string) :
  P (EvAccess p true) = true -> P (EvAccess p false) = true ->
  emitsOnly P (access p).
Proof.
  intros Ht Hf st. unfold access. destruct (lookup p (fs st)).
  - exists [EvAccess p true]. simpl. now rewrite Ht.
  - exists [EvAccess p false]. simpl. now rewrite Hf.
Qed.

Lemma emitsOnly_readFile (E : Env) (p : string) :
  P (EvReadFile p true) = true -> P (EvReadFile p false) = true ->
  emitsOnly P (readFile E p).
Proof.
  intros Ht Hf st. unfold readFile.
  destruct (lookup p (fs st)); [destruct (readFails E (trace st) p)|].
  - exists [EvReadFile p false]. simpl. now rewrite Hf.
  - exists [EvReadFile p true]. simpl. now rewrite Ht.
  - exists [EvReadFile p false]. simpl. now rewrite Hf.
Qed.

Lemma emitsOnly_writeFile (E : Env) (p body : string) :
  P (EvWriteFile p body true) = true -> P (EvWriteFile p body false) = true ->
  emitsOnly P (writeFile E p body).
Proof.
  intros Ht Hf st. unfold writeFile. destruct (writeFails E (trace st) p).
  - exists [EvWriteFile p body false]. simpl. now rewrite Hf.
  - exists [EvWriteFile p body true]. simpl. now rewrite Ht.
Qed.

End EmitsOnly.

Create HintDb emits.
#[export] Hint Resolve emitsOnly_ret emitsOnly_throw emitsOnly_log emitsOnly_emit
  emitsOnly_setCsrfToken emitsOnly_setBrowser emitsOnly_getBrowser
  emitsOnly_putFile : emits.

(** Walks through a computation built from the combinators above. *)
Ltac emits_step :=
  match goal with
  | |- emitsOnly _ (bind _ _) => apply emitsOnly_bind; [|intros]
  | |- emitsOnly _ (tryCatch _ _) => apply emitsOnly_tryCatch; [|intros]
  | |- emitsOnly _ (finally _ _) => apply emitsOnly_finally
  | |- emitsOnly _ (all2 _ _) => apply emitsOnly_all2
  | |- emitsOnly _ (foldM _ _ _) => apply emitsOnly_foldM; intros
  | |- emitsOnly _ (attempt _ _ _) => apply emitsOnly_attempt; reflexivity
  | |- emitsOnly _ (request _ _ _) => apply emitsOnly_request; reflexivity
  | |- emitsOnly _ (access _) => apply emitsOnly_access; reflexivity
  | |- emitsOnly _ (readFile _ _) => apply emitsOnly_readFile; reflexivity
  | |- emitsOnly _ (writeFile _ _ _) => apply emitsOnly_writeFile; reflexivity
  | |- emitsOnly _ (ret _) => apply emitsOnly_ret
  | |- emitsOnly _ (throw _) => apply emitsOnly_throw
  | |- emitsOnly _ (log _ _) => apply emitsOnly_log; reflexivity
  | |- emitsOnly _ (emit _) => apply emitsOnly_emit; reflexivity
  | |- emitsOnly _ (setCsrfToken _) => apply emitsOnly_setCsrfToken
  | |- emitsOnly _ (setBrowser _) => apply emitsOnly_setBrowser
  | |- emitsOnly _ getBrowser => apply emitsOnly_getBrowser
  | |- emitsOnly _ (putFile _ _) => apply emitsOnly_putFile
  | |- emitsOnly _ (if ?b then _ else _) => destruct b
  | |- emitsOnly _ (match ?x with _ => _ end) => destruct x
  | |- emitsOnly _ (let '(_, _) := ?x in _) => destruct x
  end.

Ltac emits := repeat emits_step.

Lemma notAcquisition_counts (l : list Event) :
  forallb notAcquisition l = true ->
  count isLaunch l = 0 /\ count isOfTodayPost l = 0 /\ count isGetHome l = 0 /\
  count isBrowserClose l = 0.
Proof.
  intros H. repeat split; apply (count_none _ notAcquisition); auto;
    intros [] He; try reflexivity; try discriminate;
    destruct q; try reflexivity; discriminate.
Qed.

Lemma notAcquisition_api (l : list Event) :
  forallb notAcquisition l = true -> ~ apiAcquisitionFailed l.
Proof.
  intros H [Hin|Hin]; revert Hin; apply forallb_not_in with (q := notAcquisition); auto.
Qed.

(* ================================================================== *)
(** ** The second script: acquisition and fallback *)

Lemma V2_getProblemDetails_emits (E : Env) (slug : string) :
  emitsOnly notAcquisition (V2.getProblemDetails E slug).
Proof.
  unfold V2.getProblemDetails, postQuestion, postEditorData. emits.
Qed.

Lemma V2_hasNonCommentContent_emits (E : Env) (p : string) :
  emitsOnly notAcquisition (V2.hasNonCommentContent E p).
Proof. unfold V2.hasNonCommentContent. emits. Qed.

Lemma V2_processLanguage_emits (E : Env) (d : ProblemDetails) (k : string)
      (entry : string * string) (result : V2.FileOperationResult) :
  emitsOnly notAcquisition (V2.processLanguage E d k entry result).
Proof.
  unfold V2.processLanguage. destruct entry as [language extension].
  unfold mkdir. emits; apply V2_hasNonCommentContent_emits.
Qed.

Lemma V2_createSolutionFiles_emits (E : Env) (d : ProblemDetails) :
  emitsOnly notAcquisition (V2.createSolutionFiles E d).
Proof.
  unfold V2.createSolutionFiles. emits. apply V2_processLanguage_emits.
Qed.

Lemma V2_logResults_emits (r : V2.FileOperationResult) :
  emitsOnly notAcquisition (V2.logResults r).
Proof. unfold V2.logResults, V2.logGroup. emits. Qed.

Lemma V2_afterIdentity_emits (E : Env) (dc : DailyChallenge) :
  emitsOnly notAcquisition (V2.afterIdentity E dc).
Proof.
  unfold V2.afterIdentity, V2.execute, spawnProblems. emits.
  - apply V2_getProblemDetails_emits.
  - apply V2_createSolutionFiles_emits.
  - apply V2_logResults_emits.
Qed.

(** Finds the events a computed trace has in front of the old trace. *)
Ltac front_of l t :=
  lazymatch l with
  | t => constr:(@nil Event)
  | ?x :: ?r => let p := front_of r t in constr:(x :: p)
  end.

Ltac give_new :=
  lazymatch goal with
  | |- exists new, ?l = (new ++ ?t)%list /\ _ =>
      let p := front_of l t in exists p; split; [reflexivity|]
  end.

Ltac run_calls :=
  repeat (unfold bind, tryCatch, finally, all2, request, attempt, log, emit, ret,
                 throw, setCsrfToken, setBrowser, getBrowser, putFile);
  cbn [fst snd trace fs browser csrfToken negb].

Lemma V2_api_trace (E : Env) (st : St) :
  exists new,
    trace (snd (V2.getDailyChallengeViaAPI E st)) = (new ++ trace st)%list /\
    count isLaunch new = 0 /\ count isOfTodayPost new <= 1 /\
    count isGetHome new = 1 /\
    ((exists d, fst (V2.getDailyChallengeViaAPI E st) = Ok d) ->
     ~ apiAcquisitionFailed new).
Proof.
  destruct st as [files tr tok br].
  unfold V2.getDailyChallengeViaAPI, V2.initializeClient, getHomeToken, postOfToday.
  run_calls.
  destruct (homeToken E _); simpl; [destruct (ofToday E _); simpl|]; give_new;
    (split; [reflexivity|split; [unfold count; simpl; lia|split; [reflexivity|]]]).
  - intros _ [H|H]; simpl in H; intuition discriminate.
  - intros [d Hd]; discriminate.
  - intros [d Hd]; discriminate.
Qed.

(** The call whose answer decides how the computation under [t] goes on. *)
Ltac deciding_call t :=
  lazymatch t with
  | trace ?x => deciding_call x
  | fs ?x => deciding_call x
  | browser ?x => deciding_call x
  | snd ?x => deciding_call x
  | fst ?x => deciding_call x
  | negb ?x => deciding_call x
  | match ?x with _ => _ end => deciding_call x
  | match ?x with _ => _ end _ => deciding_call x
  | _ => t
  end.

Ltac is_call x :=
  lazymatch x with
  | homeToken _ _ => idtac
  | ofToday _ _ => idtac
  | question _ _ _ => idtac
  | editorData _ _ _ => idtac
  | launchOk _ _ => idtac
  | newPageOk _ _ => idtac
  | pageOk _ _ _ => idtac
  | evaluated _ _ => idtac
  | pageCloseOk _ _ => idtac
  | browserCloseOk _ _ => idtac
  | readFails _ _ _ => idtac
  | mkdirFails _ _ _ => idtac
  | writeFails _ _ _ => idtac
  | spawnOk _ _ => idtac
  | lookup _ _ => idtac
  | String.eqb _ _ => idtac
  | V2.scanLines _ _ => idtac
  | findSnippet _ _ => idtac
  | Nat.ltb _ _ => idtac
  | V1.includesPath _ _ => idtac
  end.

Ltac by_calls :=
  repeat (lazymatch goal with
          | |- exists new, ?lhs = _ /\ _ =>
              let x := deciding_call lhs in
              first [ is_var x; destruct x
                    | is_call x; destruct x eqn:? ];
              cbn [fst snd trace fs browser csrfToken negb]
          end).

Ltac no_such_event H := simpl in H; exfalso; intuition discriminate.

Lemma V2_fallback_trace (E : Env) (st : St) :
  browser st = false ->
  exists new,
    trace (snd (V2.getDailyChallengeViaPuppeteer E st)) = (new ++ trace st)%list /\
    count isLaunch new = 1 /\ count isOfTodayPost new = 0 /\
    count isGetHome new = 0 /\
    (In (EvLaunch true) new ->
     exists ok rest, new = EvBrowserClose ok :: rest /\ count isBrowserClose rest = 0) /\
    (In (EvLaunch false) new -> count isBrowserClose new = 0).
Proof.
  destruct st as [files tr tok br]. simpl. intros ->.
  unfold V2.getDailyChallengeViaPuppeteer, V2.initializeScraper, V2.getDailyChallenge,
    V2.getProblemDetails, V2.cleanup, launch, newPage, pageDo, pageEvaluate,
    pageClose, browserClose, postQuestion, postEditorData.
  run_calls. by_calls; give_new;
    (split; [reflexivity|split; [reflexivity|split; [reflexivity|split]]]);
    first [ intros _; eexists; eexists; split; reflexivity
          | intros _; reflexivity
          | intros H; no_such_event H ].
Qed.

Lemma V2_acquire_trace (E : Env) (st : St) :
  browser st = false ->
  exists new,
    trace (snd (V2.acquire E st)) = (new ++ trace st)%list /\
    count isOfTodayPost new <= 1 /\ count isGetHome new = 1 /\
    (apiAcquisitionFailed new ->
     count isLaunch new = 1 /\
     ((exists d, fst (V2.acquire E st) = Ok d) -> In fallbackSucceededV2 new)).
Proof.
  destruct st as [files tr tok br]. simpl. intros ->.
  unfold V2.acquire, V2.getDailyChallengeViaAPI, V2.initializeClient,
    V2.getDailyChallengeViaPuppeteer, V2.initializeScraper, V2.getDailyChallenge,
    V2.getProblemDetails, V2.cleanup, getHomeToken, postOfToday, launch, newPage,
    pageDo, pageEvaluate, pageClose, browserClose, postQuestion, postEditorData.
  run_calls.
  match goal with
  | |- exists new, trace (snd ?x) = _ /\ _ /\ _ /\ (_ -> _ /\ ((exists d, fst ?y = _) -> _)) =>
      change y with x
  end.
  by_calls; give_new;
    (split; [unfold count; simpl; lia|split; [reflexivity|]]);
    intros Hf;
    first [ split; [reflexivity|];
            first [ intros _; simpl; tauto | intros [d Hd]; discriminate ]
          | destruct Hf as [Hf|Hf]; no_such_event Hf ].
Qed.

(** Picks the failed acquisition out of a trace whose other parts cannot
    hold it. *)
Ltac failed_in H n :=
  let K := fresh "K" in
  assert (K : apiAcquisitionFailed n);
  [ destruct H as [H|H]; [left|right];
    simpl in H; rewrite ?in_app_iff in H; simpl in H;
    repeat (destruct H as [H|H]); try discriminate; try assumption;
    try contradiction; exfalso;
    (refine (forallb_not_in notAcquisition _ _ _ _ H); [eassumption|reflexivity])
  | clear H ].

Lemma V2_main_fallback (E : Env) (files : list (string * string)) :
  let out := V2.main E (initial files) in
  let tr := trace (snd out) in
  apiAcquisitionFailed tr ->
  count isLaunch tr = 1 /\ count isOfTodayPost tr <= 1 /\ count isGetHome tr = 1 /\
  (~ In fallbackSucceededV2 tr -> fst out = Ok 1 /\ In (EvExit 1) tr).
Proof.
  unfold V2.main, V2.run, initial. run_calls.
  match goal with
  | |- context [V2.acquire E ?s] =>
      destruct (V2_acquire_trace E s eq_refl) as (n1 & E1 & C1 & C2 & C3);
      destruct (V2.acquire E s) as [[dc|e] st2]
  end; cbn [fst snd trace] in *.
  - destruct (V2_afterIdentity_emits E dc st2) as (n2 & E2 & F2).
    destruct (notAcquisition_counts _ F2) as (L2 & O2 & G2 & _).
    destruct (V2.afterIdentity E dc st2) as [[u|e] st3];
      cbn [fst snd trace] in *; rewrite E2, E1; intros H; failed_in H n1;
      destruct (C3 K) as [C4 C5];
      (split; [|split; [|split]]).
    + change (count isLaunch (n2 ++ n1 ++ [EvLog LInfo "Starting LeetCode Daily Challenge fetch..."]) = 1).
      rewrite !count_app, L2, C4. reflexivity.
    + rewrite !count_app, O2. simpl. unfold count at 2. simpl. lia.
    + rewrite !count_app, G2, C2. reflexivity.
    + intros Hm. exfalso. apply Hm. rewrite !in_app_iff. right; left.
      apply C5. now exists dc.
    + unfold count. simpl. fold (count isLaunch (n2 ++ n1 ++ [EvLog LInfo "Starting LeetCode Daily Challenge fetch..."])).
      rewrite !count_app, L2, C4. reflexivity.
    + unfold count. simpl. fold (count isOfTodayPost (n2 ++ n1 ++ [EvLog LInfo "Starting LeetCode Daily Challenge fetch..."])).
      rewrite !count_app, O2. unfold count at 2. simpl. lia.
    + unfold count. simpl. fold (count isGetHome (n2 ++ n1 ++ [EvLog LInfo "Starting LeetCode Daily Challenge fetch..."])).
      rewrite !count_app, G2, C2. reflexivity.
    + intros _. split; [reflexivity|]. simpl. tauto.
  - rewrite E1. intros H. failed_in H n1. destruct (C3 K) as [C4 C5].
    split; [|split; [|split]].
    + unfold count. simpl. fold (count isLaunch (n1 ++ [EvLog LInfo "Starting LeetCode Daily Challenge fetch..."])).
      rewrite !count_app, C4. reflexivity.
    + unfold count. simpl. fold (count isOfTodayPost (n1 ++ [EvLog LInfo "Starting LeetCode Daily Challenge fetch..."])).
      rewrite !count_app. unfold count at 2. simpl. lia.
    + unfold count. simpl. fold (count isGetHome (n1 ++ [EvLog LInfo "Starting LeetCode Daily Challenge fetch..."])).
      rewrite !count_app, C2. reflexivity.
    + intros _. split; [reflexivity|]. simpl. tauto.
Qed.

(* ================================================================== *)
(** ** The first script: acquisition and fallback *)

Lemma count_cons (p : Event -> bool) (e : Event) (l : list Event) :
  count p (e :: l) = (if p e then 1 else 0) + count p l.
Proof. unfold count. simpl. destruct (p e); reflexivity. Qed.

Lemma count_nil (p : Event -> bool) : count p [] = 0.
Proof. reflexivity. Qed.

Ltac count_it :=
  repeat first [rewrite count_cons | rewrite count_app | rewrite count_nil];
  cbn [isLaunch isOfTodayPost isGetHome isBrowserClose]; lia.

Lemma V1_hasContent_emits (E : Env) (p : string) :
  emitsOnly notAcquisition (V1.hasContent E p).
Proof. unfold V1.hasContent. emits. Qed.

Lemma V1_mainFile_emits (E : Env) (d : ProblemDetails) (k : string)
      (entry : string * string) (ls : V1.Lists) :
  emitsOnly notAcquisition (V1.mainFile E d k entry ls).
Proof.
  unfold V1.mainFile. destruct entry as [language extension].
  unfold mkdir. emits. apply V1_hasContent_emits.
Qed.

Lemma V1_logList_emits (header : string) (l : list string) :
  emitsOnly notAcquisition (V1.logList header l).
Proof. unfold V1.logList. emits. Qed.

Lemma V1_scaffold_emits (E : Env) (q : DailyChallenge) :
  emitsOnly notAcquisition (V1.scaffold E q).
Proof.
  unfold V1.scaffold, postQuestion, postEditorData, spawnProblems. emits;
    first [apply V1_mainFile_emits | apply V1_logList_emits].
Qed.

Lemma V1_fallbackFile_emits (E : Env) (d : ProblemDetails) (k : string)
      (entry : string * string) (u : unit) :
  emitsOnly notAcquisition (V1.fallbackFile E d k entry u).
Proof.
  unfold V1.fallbackFile. destruct entry as [language extension].
  unfold mkdir. emits.
Qed.

Lemma V1_createSolutionFiles_emits (E : Env) (slug : string) :
  emitsOnly notAcquisition (V1.createSolutionFiles E slug).
Proof.
  unfold V1.createSolutionFiles, postQuestion, postEditorData. emits.
  apply V1_fallbackFile_emits.
Qed.

Lemma V1_puppeteer_trace (E : Env) (st : St) :
  exists new,
    trace (snd (V1.getDailyLeetcodeChallengeWithPuppeteer E st))
    = (new ++ trace st)%list /\
    count isLaunch new = 1 /\ count isOfTodayPost new = 0 /\
    count isGetHome new = 0 /\ ~ apiAcquisitionFailed new.
Proof.
  destruct st as [files tr tok br].
  unfold V1.getDailyLeetcodeChallengeWithPuppeteer, launch, newPage, pageDo,
    pageEvaluate, browserClose.
  run_calls. by_calls; give_new;
    (split; [reflexivity|split; [reflexivity|split; [reflexivity|]]]);
    intros [H|H]; no_such_event H.
Qed.

Lemma apiAcquisitionFailed_app (a b : list Event) :
  apiAcquisitionFailed (a ++ b) <-> apiAcquisitionFailed a \/ apiAcquisitionFailed b.
Proof. unfold apiAcquisitionFailed. rewrite !in_app_iff. tauto. Qed.

Ltac trace_eq :=
  repeat (progress (rewrite <- ?app_assoc, <- ?app_comm_cons)); simpl; reflexivity.

Lemma V1_browserPath_trace (E : Env) (e : string) (st : St) :
  exists new,
    trace (snd (V1.browserPath E e st)) = (new ++ trace st)%list /\
    count isLaunch new = 1 /\ count isOfTodayPost new = 0 /\
    count isGetHome new = 0 /\ ~ apiAcquisitionFailed new /\
    ((exists u, fst (V1.browserPath E e st) = Ok u) -> In fallbackSucceededV1 new).
Proof.
  destruct st as [files tr tok br].
  unfold V1.browserPath. run_calls.
  match goal with
  | |- context [V1.getDailyLeetcodeChallengeWithPuppeteer E ?s] =>
      destruct (V1_puppeteer_trace E s) as (n1 & E1 & L1 & O1 & G1 & A1);
      destruct (V1.getDailyLeetcodeChallengeWithPuppeteer E s) as [[slug|err] st2]
  end; cbn [fst snd trace fs browser csrfToken] in *.
  - match goal with
    | |- context [V1.createSolutionFiles E slug ?s] =>
        destruct (V1_createSolutionFiles_emits E slug s) as (n2 & E2 & F2);
        destruct (notAcquisition_counts _ F2) as (L2 & O2 & G2 & _);
        pose proof (notAcquisition_api _ F2) as A2;
        destruct (V1.createSolutionFiles E slug s) as [[u|err] st3]
    end; cbn [fst snd trace fs browser csrfToken] in *; rewrite E2, E1.
    + exists (EvLog LLog "Successfully created solution files for daily challenge!"
              :: n2 ++ EvLog LLog "Daily Challenge (Puppeteer):" :: n1
              ++ [EvLog LLog "Launching Puppeteer in headless mode with sandbox disabled...";
                  EvLog LLog "Attempting with Puppeteer...";
                  EvLog LErr ("Direct API call failed: " ++ e)])%list.
      split; [trace_eq|].
      split; [count_it|]. split; [count_it|]. split; [count_it|].
      split; [|intros _; now left].
      intros [H|H]; simpl in H; rewrite ?in_app_iff in H; simpl in H;
        rewrite ?in_app_iff in H; simpl in H; unfold apiAcquisitionFailed in *;
        intuition discriminate.
    + exists (EvLog LErr "Puppeteer error:"
              :: n2 ++ EvLog LLog "Daily Challenge (Puppeteer):" :: n1
              ++ [EvLog LLog "Launching Puppeteer in headless mode with sandbox disabled...";
                  EvLog LLog "Attempting with Puppeteer...";
                  EvLog LErr ("Direct API call failed: " ++ e)])%list.
      split; [trace_eq|].
      split; [count_it|]. split; [count_it|]. split; [count_it|].
      split; [|intros [u Hu]; discriminate].
      intros [H|H]; simpl in H; rewrite ?in_app_iff in H; simpl in H;
        rewrite ?in_app_iff in H; simpl in H; unfold apiAcquisitionFailed in *;
        intuition discriminate.
  - rewrite E1.
    exists (EvLog LErr "Puppeteer error:" :: n1
            ++ [EvLog LLog "Launching Puppeteer in headless mode with sandbox disabled...";
                EvLog LLog "Attempting with Puppeteer...";
                EvLog LErr ("Direct API call failed: " ++ e)])%list.
    split; [trace_eq|].
    split; [count_it|]. split; [count_it|]. split; [count_it|].
    split; [|intros [u Hu]; discriminate].
    intros [H|H]; simpl in H; rewrite ?in_app_iff in H; simpl in H;
      unfold apiAcquisitionFailed in *; intuition discriminate.
Qed.

(** Splits a claim that the API acquisition failed in a trace into the
    parts of the trace, and drops the parts that cannot hold the failure. *)
Ltac split_failed H :=
  destruct H as [H|H];
  simpl in H; rewrite ?in_app_iff in H; simpl in H;
  repeat (destruct H as [H|H]);
  try discriminate; try contradiction;
  try (exfalso; refine (forallb_not_in notAcquisition _ _ _ _ H);
       [eassumption|reflexivity]);
  try match goal with
      | A : ~ apiAcquisitionFailed ?n |- _ =>
          exfalso; apply A; first [left; exact H | right; exact H]
      end.

Lemma V1_run_fallback (E : Env) (files : list (string * string)) :
  let out := V1.run E (initial files) in
  let tr := trace (snd out) in
  apiAcquisitionFailed tr ->
  count isLaunch tr = 1 /\ count isOfTodayPost tr <= 1 /\ count isGetHome tr = 1 /\
  (~ In fallbackSucceededV1 tr -> fst out = Ok 1 /\ In (EvExit 1) tr).
Proof.
  unfold V1.run, V1.getDailyLeetcodeChallenge, V1.apiPath, getHomeToken,
    postOfToday, initial.
  run_calls.
  destruct (homeToken E _) as [tok|]; cbn [fst snd trace fs browser csrfToken].
  - destruct (ofToday E _) as [q|]; cbn [fst snd trace fs browser csrfToken].
    + match goal with
      | |- context [V1.scaffold E q ?s] =>
          destruct (V1_scaffold_emits E q s) as (n & En & Fn);
          destruct (V1.scaffold E q s) as [[u|err] st1]
      end; cbn [fst snd trace fs browser csrfToken] in *.
      * rewrite En. intros H. split_failed H.
      * match goal with
        | |- context [V1.browserPath E err ?s] =>
            destruct (V1_browserPath_trace E err s) as (nb & Eb & _ & _ & _ & Ab & _);
            destruct (V1.browserPath E err s) as [[u|err2] st2]
        end; cbn [fst snd trace fs browser csrfToken] in *;
          rewrite Eb, En; intros H; split_failed H.
    + match goal with
      | |- context [V1.browserPath E ?e ?s] =>
          destruct (V1_browserPath_trace E e s) as (nb & Eb & Lb & Ob & Gb & Ab & Sb);
          destruct (V1.browserPath E e s) as [[u|err2] st2]
      end; cbn [fst snd trace fs browser csrfToken] in *; rewrite Eb; intros _;
        (split; [count_it|split; [count_it|split; [count_it|]]]).
      * intros Hm. exfalso. apply Hm. rewrite in_app_iff. left. apply Sb. now exists u.
      * intros _. split; [reflexivity|]. simpl. tauto.
  - match goal with
    | |- context [V1.browserPath E ?e ?s] =>
        destruct (V1_browserPath_trace E e s) as (nb & Eb & Lb & Ob & Gb & Ab & Sb);
        destruct (V1.browserPath E e s) as [[u|err2] st2]
    end; cbn [fst snd trace fs browser csrfToken] in *; rewrite Eb; intros _;
      (split; [count_it|split; [count_it|split; [count_it|]]]).
    + intros Hm. exfalso. apply Hm. rewrite in_app_iff. left. apply Sb. now exists u.
    + intros _. split; [reflexivity|]. simpl. tauto.
Qed.

(** C2.  In every run in which the API acquisition of the identity fails
    (no token from the landing page, or the query for today's challenge
    fails), the browser is launched exactly once, the landing page is
    fetched once and the query for today's challenge is posted at most
    once; and when the fallback does not succeed either, the run ends with
    exit status 1.  This holds for the entry points of both scripts. *)
Theorem fallback_once_then_fatal (E : Env) (files : list (string * string)) :
  (let out := V2.main E (initial files) in
   let tr := trace (snd out) in
   apiAcquisitionFailed tr ->
   count isLaunch tr = 1 /\ count isOfTodayPost tr <= 1 /\ count isGetHome tr = 1 /\
   (~ In fallbackSucceededV2 tr -> fst out = Ok 1 /\ In (EvExit 1) tr)) /\
  (let out := V1.run E (initial files) in
   let tr := trace (snd out) in
   apiAcquisitionFailed tr ->
   count isLaunch tr = 1 /\ count isOfTodayPost tr <= 1 /\ count isGetHome tr = 1 /\
   (~ In fallbackSucceededV1 tr -> fst out = Ok 1 /\ In (EvExit 1) tr)).
Proof. split; [apply V2_main_fallback|apply V1_run_fallback]. Qed.

(* ================================================================== *)
(** ** The second script: one turn of the materialization loop *)

Ltac write_inv H :=
  simpl in H;
  repeat (destruct H as [H|H]); try discriminate; try contradiction;
  try (inversion H; subst; clear H).

Ltac turn_is o :=
  exists o; cbn [wrote record writtenPaths];
  split; [reflexivity|]; split; [reflexivity|]; split; [reflexivity|];
  split; [intros Ho; try discriminate; simpl; tauto|];
  split; [intros q body ok Hin; write_inv Hin; split; reflexivity|];
  split; [intros body Hin; write_inv Hin; reflexivity|];
  split; [intros Hw; try discriminate; simpl; tauto|];
  split; [split;
          [ intros Ho; try discriminate; eexists; repeat split; eauto
          | intros (text & H1 & H2 & H3); try reflexivity;
            try discriminate; inversion H1; subst; congruence ]|];
  split; [intros Ho; try discriminate; reflexivity|];
  split; [intros Ho; try discriminate|];
  split; [simpl; tauto|];
  intros Ho; try discriminate; simpl; tauto.

Lemma V2_turn (E : Env) (d : ProblemDetails) (language extension : string)
      (result : V2.FileOperationResult) (st : St) :
  let k := V2.toKebabCase (title d) in
  let p := V2.filePath language d k in
  let out := V2.processLanguage E d k (language, extension) result st in
  exists new,
    trace (snd out) = (new ++ trace st)%list /\
    exists o,
      fst out = Ok (record o p result) /\
      writtenPaths new = (if wrote o then [p] else []) /\
      fs (snd out) = (if wrote o then (p, fileBody language d) :: fs st else fs st) /\
      (o = Failed -> In (EvLog LErr ("Failed to create " ++ p)) new) /\
      (forall q body ok, In (EvWriteFile q body ok) new ->
                         q = p /\ body = fileBody language d) /\
      (forall body, In (EvWriteFile p body false) new -> o = Failed) /\
      (wrote o = true -> In (EvWriteFile p (fileBody language d) true) new) /\
      (o = Skipped <-> substantive E st p) /\
      (o = Created -> lookup p (fs st) = None) /\
      (o = Updated -> lookup p (fs st) <> None) /\
      (In (EvAccess p true) new \/ In (EvAccess p false) new) /\
      (o = Failed ->
       In (EvMkdir (Path.join language (JS.toLowerCase (difficulty d))) false) new \/
       In (EvWriteFile p (fileBody language d) false) new).
Proof.
  intros k p. destruct st as [files tr tok br].
  unfold V2.processLanguage, V2.hasNonCommentContent, access, readFile, mkdir,
    writeFile, substantive. fold k. fold p.
  generalize p. clear p. intros p.
  run_calls. by_calls; give_new.
  all: repeat match goal with
              | H : Some _ = Some _ |- _ => inversion H; subst; clear H
              | H : Some _ = None |- _ => discriminate H
              | H : None = Some _ |- _ => discriminate H
              end.
  all: first [turn_is Skipped | turn_is Updated | turn_is Created | turn_is Failed].
Qed.

(* ================================================================== *)
(** ** The second script: the whole materialization *)

Lemma writtenPaths_app (a b : list Event) :
  writtenPaths (a ++ b) = (writtenPaths a ++ writtenPaths b)%list.
Proof.
  induction a as [|e a IH]; [reflexivity|].
  destruct e; simpl; try apply IH. destruct ok; simpl; [now rewrite IH|apply IH].
Qed.

Lemma record_tally (os : list (string * Outcome)) :
  forall r,
    fold_left (fun r x => record (snd x) (fst x) r) os r
    = {| V2.created := V2.created r ++ pathsWith Created os;
         V2.updated := V2.updated r ++ pathsWith Updated os;
         V2.skipped := V2.skipped r ++ pathsWith Skipped os |}.
Proof.
  induction os as [|[p o] os IH]; intros r; simpl.
  - unfold pathsWith; simpl. rewrite !app_nil_r. now destruct r.
  - rewrite IH. unfold pathsWith. destruct o; simpl; rewrite <- ?app_assoc; reflexivity.
Qed.

Lemma V2_loop (E : Env) (d : ProblemDetails) (l : list (string * string)) :
  let k := V2.toKebabCase (title d) in
  forall result st,
    let out := foldM (V2.processLanguage E d k) l result st in
    exists new os,
      trace (snd out) = (new ++ trace st)%list /\
      map fst os = map (fun entry => V2.filePath (fst entry) d k) l /\
      fst out = Ok (fold_left (fun r x => record (snd x) (fst x) r) os result) /\
      rev (writtenPaths new) = pathsWritten os /\
      (forall p, In (p, Failed) os ->
                 In (EvLog LErr ("Failed to create " ++ p)) new) /\
      (forall p body, In (EvWriteFile p body false) new -> In (p, Failed) os) /\
      (forall p, In p (map fst os) ->
                 In (EvAccess p true) new \/ In (EvAccess p false) new).
Proof.
  intros k. induction l as [|[language extension] l IH]; intros result st out.
  - exists [], []. subst out. simpl. repeat split; try tauto; intros; contradiction.
  - subst out. cbn [foldM]. unfold bind.
    destruct (V2_turn E d language extension result st)
      as (n1 & E1 & o & R1 & W1 & _ & L1 & Q1 & F1 & _ & _ & _ & _ & A1 & _).
    fold k in E1, R1, W1, L1, Q1, F1, A1.
    destruct (V2.processLanguage E d k (language, extension) result st) as [r1 st1].
    cbn [fst snd] in *. subst r1.
    destruct (IH (record o (V2.filePath language d k) result) st1)
      as (n2 & os & E2 & M2 & R2 & W2 & L2 & F2 & A2).
    exists (n2 ++ n1)%list, ((V2.filePath language d k, o) :: os).
    split; [rewrite E2, E1; now rewrite app_assoc|].
    split; [simpl; now rewrite M2|].
    split; [exact R2|].
    split.
    { rewrite writtenPaths_app, rev_app_distr, W2, W1. unfold pathsWritten. simpl.
      destruct (wrote o); reflexivity. }
    split.
    { intros p [H|H]; rewrite in_app_iff.
      - inversion H; subst. right. now apply L1.
      - left. now apply L2. }
    split.
    { intros p body H. rewrite in_app_iff in H. destruct H as [H|H].
      - right. eapply F2; eauto.
      - left. destruct (Q1 _ _ _ H) as [-> _]. now rewrite (F1 _ H). }
    intros p [H|H].
    + simpl in H. subst p. rewrite !in_app_iff. tauto.
    + destruct (A2 p H); rewrite !in_app_iff; tauto.
Qed.

Lemma V2_materialize (E : Env) (d : ProblemDetails) (st : St) :
  let out := V2.createSolutionFiles E d st in
  exists new os,
    trace (snd out) = (new ++ trace st)%list /\
    map fst os = targetPaths d /\
    fst out = Ok (tallyOf os) /\
    rev (writtenPaths new) = pathsWritten os /\
    (forall p, In (p, Failed) os ->
               In (EvLog LErr ("Failed to create " ++ p)) new) /\
    (forall p body, In (EvWriteFile p body false) new -> In (p, Failed) os) /\
    (forall p, In p (targetPaths d) ->
               In (EvAccess p true) new \/ In (EvAccess p false) new).
Proof.
  unfold V2.createSolutionFiles, bind, log, emit. cbn [fst snd].
  match goal with
  | |- context [foldM _ _ ?r ?s] =>
      destruct (V2_loop E d LANGUAGE_EXTENSIONS r s)
        as (n & os & E1 & M1 & R1 & W1 & L1 & F1 & A1)
  end.
  exists (n ++ [EvLog LInfo ("Creating solution files for: " ++ title d)])%list, os.
  split; [rewrite E1; simpl; now rewrite <- app_assoc|].
  split; [exact M1|].
  split; [rewrite R1, record_tally; reflexivity|].
  split.
  { rewrite writtenPaths_app. simpl. now rewrite app_nil_r. }
  split; [intros p H; rewrite in_app_iff; left; now apply L1|].
  split.
  { intros p body H. rewrite in_app_iff in H. destruct H as [H|H].
    - eapply F1; eauto.
    - simpl in H. destruct H as [H|[]]. discriminate. }
  intros p H. unfold targetPaths in H. rewrite <- M1 in H.
  destruct (A1 p H); rewrite !in_app_iff; tauto.
Qed.

(* ================================================================== *)
(** ** The target paths of the catalog are pairwise different *)

Lemma noSlash_cons (c : ascii) (r : string) :
  noSlash (String c r) = negb (Ascii.eqb c "/"%char) && noSlash r.
Proof. reflexivity. Qed.

Lemma segments_noSlash_all (s : string) :
  Forall (fun x => noSlash x = true) (Path.segments s).
Proof.
  induction s as [|c r IH]; simpl; [repeat constructor|].
  destruct (Ascii.eqb c "/"%char) eqn:Hc; [constructor; [reflexivity|exact IH]|].
  destruct (Path.segments r) as [|h t].
  - constructor; [rewrite noSlash_cons, Hc; reflexivity|constructor].
  - inversion IH; subst. constructor; [|assumption].
    rewrite noSlash_cons, Hc. assumption.
Qed.

Lemma segments_app_noSlash (a b : string) :
  noSlash b = true ->
  Path.segments (a ++ b)
  = (removelast (Path.segments a) ++ [(last (Path.segments a) EmptyString ++ b)%string])%list.
Proof.
  intros Hb. induction a as [|c r IH].
  - simpl. now rewrite (segments_noSlash b Hb).
  - pose proof (segments_nonempty r) as N.
    change (String c r ++ b) with (String c (r ++ b)).
    cbn [Path.segments]. rewrite IH.
    destruct (Path.segments r) as [|h t]; [congruence|].
    destruct (Ascii.eqb c "/"%char).
    + reflexivity.
    + destruct t as [|h2 t2]; reflexivity.
Qed.

Lemma last_segments_app (a b : string) :
  noSlash b = true -> lastSegment (a ++ b) = lastSegment a ++ b.
Proof.
  intros Hb. unfold lastSegment.
  now rewrite (segments_app_noSlash a b Hb), last_last.
Qed.

Lemma pushSeg_noSlash (allow : bool) (stack : list string) (seg : string) :
  Forall (fun x => noSlash x = true) stack -> noSlash seg = true ->
  Forall (fun x => noSlash x = true) (Path.pushSeg allow stack seg).
Proof.
  intros Hs Hseg. unfold Path.pushSeg.
  destruct ((seg =? EmptyString)%string || (seg =? ".")%string); [assumption|].
  destruct (seg =? "..")%string.
  - destruct stack as [|top rest]; [destruct allow; repeat constructor|].
    inversion Hs; subst.
    destruct (top =? "..")%string; [destruct allow|]; auto.
  - now constructor.
Qed.

Lemma fold_pushSeg_noSlash (allow : bool) (segs : list string) :
  forall stack,
    Forall (fun x => noSlash x = true) stack ->
    Forall (fun x => noSlash x = true) segs ->
    Forall (fun x => noSlash x = true) (fold_left (Path.pushSeg allow) segs stack).
Proof.
  induction segs as [|s segs IH]; intros stack Hs Hsegs; simpl; [assumption|].
  inversion Hsegs; subst. apply IH; [now apply pushSeg_noSlash|assumption].
Qed.

Lemma last_app_nonempty {A} (l1 l2 : list A) (d : A) :
  l2 <> [] -> last (l1 ++ l2) d = last l2 d.
Proof.
  intros N. induction l1 as [|h t IH]; [reflexivity|].
  simpl. destruct (t ++ l2)%list eqn:H; [|exact IH].
  destruct t; [simpl in H; congruence|discriminate].
Qed.

Lemma last_segments_concat (l : list string) (x : string) :
  Forall (fun y => noSlash y = true) l -> noSlash x = true ->
  lastSegment (String.concat "/" (l ++ [x])) = x.
Proof.
  intros Hl Hx. induction l as [|h t IH]; simpl.
  - unfold lastSegment. now rewrite (segments_noSlash x Hx).
  - inversion Hl; subst.
    destruct (t ++ [x])%list as [|h' t'] eqn:Ht; [destruct t; discriminate|].
    unfold lastSegment in *. rewrite segments_app.
    rewrite last_app_nonempty; [now apply IH|apply segments_nonempty].
Qed.

Lemma lastChar_slash (s : string) :
  Path.isSlash (Path.lastChar s) = true -> lastSegment s = EmptyString.
Proof.
  intros H.
  assert (Hs : exists s', s = s' ++ "/").
  { induction s as [|c r IH]; [discriminate|].
    destruct r as [|d r'].
    - simpl in H. apply Ascii.eqb_eq in H. subst c. now exists EmptyString.
    - destruct (IH H) as [s' Hs']. exists (String c s'). simpl. now rewrite <- Hs'. }
  destruct Hs as [s' ->]. unfold lastSegment.
  rewrite segments_app. simpl. apply last_last.
Qed.

Lemma normalize_nonempty (p : string) : Path.normalize p <> EmptyString.
Proof.
  unfold Path.normalize. destruct p as [|c r]; [discriminate|].
  cbv zeta. destruct (Path.normalizeString (String c r) _) as [|d q].
  - destruct (Ascii.eqb c "/"%char); [discriminate|].
    destruct (Path.isSlash _); discriminate.
  - destruct (Ascii.eqb c "/"%char); [discriminate|].
    destruct (Path.isSlash _); discriminate.
Qed.

Lemma join_nonempty (a b : string) : Path.join a b <> EmptyString.
Proof. apply normalize_nonempty. Qed.

Lemma lastSegment_in (s : string) : noSlash (lastSegment s) = true.
Proof.
  unfold lastSegment. pose proof (segments_noSlash_all s) as H.
  pose proof (segments_nonempty s) as N.
  destruct (exists_last N) as (l & x & Hx). rewrite Hx in *. rewrite last_last.
  rewrite Forall_app in H. destruct H as [_ H]. now inversion H.
Qed.

(** Joining a directory and a file name keeps the last segment of the file
    name, when that segment is a plain one. *)
Lemma lastSegment_join (a f : string) :
  a <> EmptyString -> plainSegment (lastSegment f) ->
  lastSegment (Path.join a f) = lastSegment f.
Proof.
  intros Ha (Hns & Hne & Hd1 & Hd2).
  assert (Hf : f <> EmptyString) by (intros ->; now apply Hne).
  destruct a as [|c a']; [congruence|]. destruct f as [|c' f']; [congruence|].
  set (a := String c a') in *. set (f := String c' f') in *.
  set (l := lastSegment f) in *.
  unfold Path.join. change (match a with EmptyString => f | String _ _ => match f with EmptyString => a | String _ _ => a ++ "/" ++ f end end)
    with (String c (a' ++ String "/"%char f)).
  unfold Path.normalize. cbv beta iota zeta.
  change (String c (a' ++ String "/"%char f)) with (a ++ String "/"%char f).
  assert (Htr : Path.isSlash (Path.lastChar (a ++ String "/"%char f)) = false).
  { replace (a ++ String "/"%char f) with ((a ++ "/") ++ String c' f')
      by (rewrite append_assoc; reflexivity).
    rewrite lastChar_app. fold f.
    destruct (Path.isSlash (Path.lastChar f)) eqn:Hs; [|reflexivity].
    apply lastChar_slash in Hs. fold l in Hs. congruence. }
  rewrite Htr.
  assert (Hq : forall allow,
    lastSegment (Path.normalizeString (a ++ String "/"%char f) allow) = l).
  { intros allow. unfold Path.normalizeString.
    rewrite segments_app, fold_left_app.
    pose proof (segments_nonempty f) as N.
    destruct (exists_last N) as (init & x & Hx).
    assert (Hl : l = x) by (unfold l, lastSegment; rewrite Hx; apply last_last).
    rewrite Hx, fold_left_app. simpl fold_left. rewrite <- Hl.
    set (stack := fold_left (Path.pushSeg allow) init _).
    assert (Hstack : Forall (fun y => noSlash y = true) stack).
    { apply fold_pushSeg_noSlash.
      - apply fold_pushSeg_noSlash; [constructor|exact (segments_noSlash_all a)].
      - pose proof (segments_noSlash_all f) as Hall. rewrite Hx in Hall.
        rewrite Forall_app in Hall. tauto. }
    unfold Path.pushSeg.
    apply String.eqb_neq in Hne, Hd1, Hd2. rewrite Hne, Hd1, Hd2. simpl orb.
    cbv iota. simpl rev. apply last_segments_concat; [|assumption].
    now apply Forall_rev. }
  destruct (Path.normalizeString (a ++ String "/"%char f) (negb (Ascii.eqb c "/"%char)))
    as [|d q] eqn:Hn.
  - exfalso. specialize (Hq (negb (Ascii.eqb c "/"%char))). rewrite Hn in Hq.
    unfold lastSegment in Hq. simpl in Hq. congruence.
  - rewrite <- Hn. destruct (Ascii.eqb c "/"%char); [|apply Hq].
    unfold lastSegment. change ("/" ++ Path.normalizeString (a ++ String "/"%char f) (negb true))
      with (String "/"%char (Path.normalizeString (a ++ String "/"%char f) (negb true))).
    cbn [Path.segments]. rewrite Ascii.eqb_refl.
    pose proof (segments_nonempty (Path.normalizeString (a ++ String "/"%char f) (negb true))) as N.
    destruct (Path.segments _) as [|s0 l0] eqn:Hs in |- *; [congruence|].
    change (last (s0 :: l0) EmptyString = l). rewrite <- Hs. apply Hq.
Qed.

Lemma append_inv_head (a b c : string) : a ++ b = a ++ c -> b = c.
Proof. induction a as [|x a IH]; simpl; intros H; [assumption|]. inversion H. auto. Qed.

Lemma NoDup_map_in {A B} (f : A -> B) (l : list A) :
  NoDup l -> (forall x y, In x l -> In y l -> f x = f y -> x = y) ->
  NoDup (map f l).
Proof.
  induction 1 as [|x l Hx Hl IH]; intros Hinj; simpl; constructor.
  - rewrite in_map_iff. intros (y & Hy & Hin).
    assert (y = x) by (apply Hinj; simpl; auto). subst y. contradiction.
  - apply IH. intros a b Ha Hb. apply Hinj; simpl; auto.
Qed.

Lemma catalog_NoDup : NoDup LANGUAGE_EXTENSIONS.
Proof.
  unfold LANGUAGE_EXTENSIONS.
  repeat (constructor; [simpl; intuition discriminate|]). constructor.
Qed.

Lemma catalog_extension_inj (l1 l2 e : string) :
  In (l1, e) LANGUAGE_EXTENSIONS -> In (l2, e) LANGUAGE_EXTENSIONS -> l1 = l2.
Proof.
  intros H1 H2. catalog_cases H1; catalog_cases H2; reflexivity.
Qed.

Lemma catalog_language_inj (l e1 e2 : string) :
  In (l, e1) LANGUAGE_EXTENSIONS -> In (l, e2) LANGUAGE_EXTENSIONS -> e1 = e2.
Proof.
  intros H1 H2. catalog_cases H1; catalog_cases H2; reflexivity.
Qed.

Lemma specFileName_tail (language extension : string) (d : ProblemDetails) :
  specFileName language extension d
  = questionId d ++ nameTail language extension d.
Proof. unfold specFileName, nameTail. destruct (language =? "dart")%string; reflexivity. Qed.

Lemma nameTail_noSlash (language extension : string) (d : ProblemDetails) :
  In (language, extension) LANGUAGE_EXTENSIONS ->
  noSlash (nameTail language extension d) = true.
Proof.
  intros Hl. destruct (catalog_lookup _ _ Hl) as [_ He].
  pose proof (slug_noSlash (title d)) as Hs.
  assert (Hu : noSlash (JS.replaceAll (JS.reLit "-") "_" (V2.toKebabCase (title d))) = true)
    by (apply gsub_allChars; [reflexivity|exact Hs]).
  unfold nameTail, noSlash in *. destruct (language =? "dart")%string;
    rewrite !allChars_app; [rewrite Hu|rewrite Hs]; rewrite He; reflexivity.
Qed.

Lemma nameTail_marked (language extension : string) (d : ProblemDetails) (a : string) :
  JS.includes "_" (a ++ nameTail language extension d) = true \/
  JS.includes "-" (a ++ nameTail language extension d) = true.
Proof.
  unfold nameTail. destruct (language =? "dart")%string;
    [left|right]; apply includes_app_l; reflexivity.
Qed.

Lemma fileName_lastSegment (language extension : string) (d : ProblemDetails) :
  In (language, extension) LANGUAGE_EXTENSIONS ->
  lastSegment (specFileName language extension d)
  = lastSegment (questionId d) ++ nameTail language extension d /\
  plainSegment (lastSegment (specFileName language extension d)).
Proof.
  intros Hl. pose proof (nameTail_noSlash _ _ d Hl) as Ht.
  rewrite specFileName_tail, (last_segments_app _ _ Ht).
  split; [reflexivity|]. split.
  - unfold noSlash. rewrite allChars_app. fold (noSlash (lastSegment (questionId d))).
    fold (noSlash (nameTail language extension d)).
    now rewrite lastSegment_in, Ht.
  - destruct (nameTail_marked language extension d (lastSegment (questionId d)))
      as [H|H]; repeat split; eapply differs_by_inclusion; eauto.
Qed.

Lemma targetPath_lastSegment (language extension : string) (d : ProblemDetails) :
  In (language, extension) LANGUAGE_EXTENSIONS ->
  lastSegment (V2.filePath language d (V2.toKebabCase (title d)))
  = lastSegment (questionId d) ++ nameTail language extension d.
Proof.
  intros Hl. destruct (fileName_lastSegment _ _ d Hl) as [H1 H2].
  unfold V2.filePath. rewrite (getFileName_spec _ _ _ Hl), <- H1.
  apply lastSegment_join; [apply join_nonempty|exact H2].
Qed.

Lemma targetPath_inj (d : ProblemDetails) (x y : string * string) :
  In x LANGUAGE_EXTENSIONS -> In y LANGUAGE_EXTENSIONS ->
  V2.filePath (fst x) d (V2.toKebabCase (title d))
  = V2.filePath (fst y) d (V2.toKebabCase (title d)) ->
  x = y.
Proof.
  destruct x as [l1 e1], y as [l2 e2]. simpl. intros H1 H2 Heq.
  apply (f_equal lastSegment) in Heq.
  rewrite (targetPath_lastSegment _ _ _ H1), (targetPath_lastSegment _ _ _ H2) in Heq.
  apply append_inv_head in Heq. unfold nameTail in Heq.
  destruct (l1 =? "dart")%string eqn:D1, (l2 =? "dart")%string eqn:D2;
    try discriminate.
  - apply String.eqb_eq in D1, D2. subst.
    now rewrite (catalog_language_inj _ _ _ H1 H2).
  - apply (append_inv_head "-") in Heq. apply append_inv_head in Heq.
    apply (append_inv_head ".") in Heq. subst e2.
    now rewrite (catalog_extension_inj _ _ _ H1 H2).
Qed.

(** For every problem, the fourteen target paths are pairwise different. *)
Lemma targetPaths_NoDup (d : ProblemDetails) : NoDup (targetPaths d).
Proof.
  unfold targetPaths. apply NoDup_map_in; [apply catalog_NoDup|].
  intros x y Hx Hy. now apply targetPath_inj.
Qed.

(* ================================================================== *)
(** ** Outcomes, path by path *)

Lemma pathsWith_In (o : Outcome) (os : list (string * Outcome)) (p : string) :
  In p (pathsWith o os) <-> In (p, o) os.
Proof.
  unfold pathsWith. rewrite in_map_iff. split.
  - intros ([q o'] & Hq & Hin). simpl in Hq. subst q.
    apply filter_In in Hin as [Hin Ho]. simpl in Ho.
    destruct o', o; try discriminate; assumption.
  - intros Hin. exists (p, o). split; [reflexivity|].
    apply filter_In. split; [assumption|]. now destruct o.
Qed.

Lemma pathsWritten_In (os : list (string * Outcome)) (p : string) :
  In p (pathsWritten os) <-> In (p, Created) os \/ In (p, Updated) os.
Proof.
  unfold pathsWritten. rewrite in_map_iff. split.
  - intros ([q o] & Hq & Hin). simpl in Hq. subst q.
    apply filter_In in Hin as [Hin Ho]. destruct o; try discriminate; auto.
  - intros [Hin|Hin]; eexists; (split; [|apply filter_In; split; [exact Hin|]]);
      reflexivity.
Qed.

Lemma outcome_unique (os : list (string * Outcome)) (p : string) (o1 o2 : Outcome) :
  NoDup (map fst os) -> In (p, o1) os -> In (p, o2) os -> o1 = o2.
Proof.
  induction os as [|[q o] os IH]; simpl; intros Hnd H1 H2; [contradiction|].
  inversion Hnd as [|? ? Hq Hnd']; subst.
  destruct H1 as [H1|H1], H2 as [H2|H2].
  - congruence.
  - inversion H1; subst. exfalso. apply Hq. apply in_map_iff. now exists (p, o2).
  - inversion H2; subst. exfalso. apply Hq. apply in_map_iff. now exists (p, o1).
  - now apply IH.
Qed.

Lemma NoDup_map_filter {A B} (f : A -> B) (q : A -> bool) (l : list A) :
  NoDup (map f l) -> NoDup (map f (filter q l)).
Proof.
  induction l as [|x l IH]; simpl; intros H; [constructor|].
  inversion H as [|? ? Hx Hl]; subst.
  destruct (q x); simpl; [constructor|]; auto.
  rewrite in_map_iff in *. intros (y & Hy & Hin). apply Hx.
  exists y. split; [assumption|]. now apply filter_In in Hin as [Hin _].
Qed.

Lemma NoDup_app_disjoint {A} (l1 l2 : list A) :
  NoDup l1 -> NoDup l2 -> (forall x, In x l1 -> In x l2 -> False) ->
  NoDup (l1 ++ l2).
Proof.
  induction 1 as [|x l1 Hx H1 IH]; intros H2 Hd; simpl; [assumption|].
  constructor.
  - rewrite in_app_iff. intros [H|H]; [contradiction|]. apply (Hd x); simpl; auto.
  - apply IH; [assumption|]. intros y Hy1 Hy2. apply (Hd y); simpl; auto.
Qed.

(** When the paths are pairwise different, no path is in two of the lists,
    nor twice in one. *)
Lemma tally_NoDup (os : list (string * Outcome)) :
  NoDup (map fst os) ->
  NoDup (pathsWith Created os ++ pathsWith Updated os ++ pathsWith Skipped os).
Proof.
  intros Hnd.
  assert (Hone : forall o, NoDup (pathsWith o os))
    by (intros o; now apply NoDup_map_filter).
  apply NoDup_app_disjoint; [apply Hone| |].
  - apply NoDup_app_disjoint; try apply Hone.
    intros p H1 H2. apply pathsWith_In in H1, H2.
    pose proof (outcome_unique _ _ _ _ Hnd H1 H2). discriminate.
  - intros p H1 H2. apply pathsWith_In in H1. apply in_app_iff in H2.
    destruct H2 as [H2|H2]; apply pathsWith_In in H2;
      pose proof (outcome_unique _ _ _ _ Hnd H1 H2); discriminate.
Qed.

Lemma tally_within (os : list (string * Outcome)) (o : Outcome) (p : string) :
  In p (pathsWith o os) -> In p (map fst os).
Proof.
  intros H. apply pathsWith_In in H. apply in_map_iff. now exists (p, o).
Qed.

Lemma V2_partition (E : Env) (d : ProblemDetails) (st : St) :
  let out := V2.createSolutionFiles E d st in
  exists res new,
    fst out = Ok res /\
    trace (snd out) = (new ++ trace st)%list /\
    NoDup (V2.created res ++ V2.updated res ++ V2.skipped res) /\
    (forall p, In p (V2.created res ++ V2.updated res ++ V2.skipped res) ->
               In p (targetPaths d)) /\
    (forall p, In p (writtenPaths new) <-> In p (V2.created res ++ V2.updated res)) /\
    (forall p, In p (V2.skipped res) -> ~ In p (writtenPaths new)).
Proof.
  intros out. destruct (V2_materialize E d st) as (new & os & E1 & M1 & R1 & W1 & _).
  fold out in E1, R1.
  assert (Hnd : NoDup (map fst os)) by (rewrite M1; apply targetPaths_NoDup).
  assert (Hw : forall p, In p (writtenPaths new)
                         <-> In p (pathsWith Created os ++ pathsWith Updated os)).
  { intros p. rewrite in_rev, W1, pathsWritten_In, in_app_iff, !pathsWith_In. tauto. }
  exists (tallyOf os), new. cbn [tallyOf V2.created V2.updated V2.skipped].
  split; [exact R1|]. split; [exact E1|]. split; [now apply tally_NoDup|].
  split.
  { intros p H. rewrite <- M1. rewrite !in_app_iff in H.
    destruct H as [H|[H|H]]; eapply tally_within; eauto. }
  split; [exact Hw|].
  intros p Hs Hin. apply Hw in Hin. apply in_app_iff in Hin.
  apply pathsWith_In in Hs.
  destruct Hin as [Hin|Hin]; apply pathsWith_In in Hin;
    pose proof (outcome_unique _ _ _ _ Hnd Hs Hin); discriminate.
Qed.

(* ================================================================== *)
(** ** The first script: one turn of the materialization loop *)

Lemma includesPath_snoc (l : list string) (p : string) :
  V1.includesPath (l ++ [p]) p = true.
Proof.
  unfold V1.includesPath. rewrite existsb_app. simpl.
  rewrite String.eqb_refl. now rewrite orb_true_r.
Qed.

Lemma includesPath_other (l : list string) (p q : string) :
  p <> q -> V1.includesPath (l ++ [p]) q = V1.includesPath l q.
Proof.
  intros H. unfold V1.includesPath. rewrite existsb_app. simpl.
  apply String.eqb_neq in H. rewrite H. now rewrite !orb_false_r.
Qed.

Ltac turnV1_is o :=
  left; exists o; cbn [wrote recordV1 writtenPaths];
  split; [discriminate|]; split; [reflexivity|]; split; [reflexivity|];
  split; [intros q body ok Hin; write_inv Hin; repeat split; reflexivity|];
  split; [intros Hw; try discriminate; simpl; tauto|];
  split; [reflexivity|];
  split; [intros Ho; try discriminate; eexists; repeat split; eauto;
          intros Hz;
          match goal with
          | H : (0 <? String.length ?x) = true |- _ =>
              rewrite Hz in H; discriminate H
          end|];
  intros Ho; try discriminate; reflexivity.

Lemma V1_turn (E : Env) (d : ProblemDetails) (language extension : string)
      (ls : V1.Lists) (st : St) :
  let k := V1.toKebabCase (title d) in
  let p := V1.filePath language extension d k in
  let out := V1.mainFile E d k (language, extension) ls st in
  V1.includesPath (V1.existingFiles ls) p = false ->
  exists new,
    trace (snd out) = (new ++ trace st)%list /\
    ((exists o,
        o <> Failed /\
        fst out = Ok (recordV1 o p ls) /\
        writtenPaths new = (if wrote o then [p] else []) /\
        (forall q body ok, In (EvWriteFile q body ok) new ->
                           q = p /\ body = fileBody language d /\ ok = true) /\
        (wrote o = true -> In (EvWriteFile p (fileBody language d) true) new) /\
        fs (snd out) = (if wrote o then (p, fileBody language d) :: fs st else fs st) /\
        (o = Skipped ->
         exists text, lookup p (fs st) = Some text /\
                      readFails E (EvAccess p true :: trace st) p = false /\
                      V1.nonCommentContent text <> EmptyString) /\
        (o = Created -> lookup p (fs st) = None))
     \/
     (exists e, fst out = Throw e /\ writtenPaths new = [] /\
                (In (EvMkdir (Path.join language (JS.toLowerCase (difficulty d))) false) new \/
                 In (EvWriteFile p (fileBody language d) false) new))).
Proof.
  intros k p out Hpre. subst out. destruct st as [files tr tok br].
  unfold V1.mainFile, V1.hasContent, access, readFile, mkdir, writeFile.
  rewrite formatProblemFile_same. fold (fileBody language d). fold k. fold p.
  clearbody p.
  run_calls. by_calls;
    cbn [V1.existingFiles V1.createdFiles V1.skippedFiles];
    rewrite ?includesPath_snoc, ?Hpre;
    cbn [V1.existingFiles V1.createdFiles V1.skippedFiles];
    give_new.
  all: repeat match goal with
              | H : Some _ = Some _ |- _ => inversion H; subst; clear H
              | H : Some _ = None |- _ => discriminate H
              | H : None = Some _ |- _ => discriminate H
              end.
  all: first [ turnV1_is Skipped | turnV1_is Updated | turnV1_is Created
             | right; eexists; split; [reflexivity|split; [reflexivity|simpl; tauto]] ].
Qed.

(* ================================================================== *)
(** ** The first script: the whole loop, when it runs to its end *)

Lemma recordV1_tally (os : list (string * Outcome)) :
  forall ls,
    fold_left (fun r x => recordV1 (snd x) (fst x) r) os ls
    = {| V1.existingFiles := V1.existingFiles ls ++ pathsWith Updated os;
         V1.createdFiles := V1.createdFiles ls ++ pathsWith Created os;
         V1.skippedFiles := V1.skippedFiles ls ++ pathsWith Skipped os |}.
Proof.
  induction os as [|[p o] os IH]; intros ls; simpl.
  - unfold pathsWith; simpl. rewrite !app_nil_r. now destruct ls.
  - rewrite IH. unfold pathsWith. destruct o; simpl; rewrite <- ?app_assoc; reflexivity.
Qed.

Lemma targetPathsV1_same (d : ProblemDetails) : targetPathsV1 d = targetPaths d.
Proof.
  unfold targetPathsV1, targetPaths. apply map_ext_in.
  intros [language extension] Hin. simpl. now apply filePath_same.
Qed.

Lemma V1_loop (E : Env) (d : ProblemDetails) (l : list (string * string)) :
  let k := V1.toKebabCase (title d) in
  let path := fun entry : string * string => V1.filePath (fst entry) (snd entry) d k in
  forall ls st,
    NoDup (map path l) ->
    (forall q, In q (map path l) -> V1.includesPath (V1.existingFiles ls) q = false) ->
    let out := foldM (V1.mainFile E d k) l ls st in
    forall ls',
      fst out = Ok ls' ->
      exists new os,
        trace (snd out) = (new ++ trace st)%list /\
        map fst os = map path l /\
        ls' = fold_left (fun r x => recordV1 (snd x) (fst x) r) os ls /\
        rev (writtenPaths new) = pathsWritten os.
Proof.
  intros k path. induction l as [|[language extension] l IH];
    intros ls st Hnd Hpre out ls' Hok; subst out.
  - exists [], []. simpl in *. inversion Hok. repeat split; reflexivity.
  - cbn [foldM] in *. unfold bind in *.
    simpl map in Hnd, Hpre. inversion Hnd as [|? ? Hp Hnd']; subst.
    destruct (V1_turn E d language extension ls st (Hpre _ (or_introl eq_refl)))
      as (n1 & E1 & [(o & Ho & R1 & W1 & _)|(e & R1 & _)]);
      fold k in E1, R1; try fold k in W1;
      destruct (V1.mainFile E d k (language, extension) ls st) as [r1 st1];
      cbn [fst snd] in *; subst r1; [|discriminate].
    set (p := V1.filePath language extension d k) in *.
    assert (Hpre' : forall q, In q (map path l) ->
              V1.includesPath (V1.existingFiles (recordV1 o p ls)) q = false).
    { intros q Hq. assert (Hne : p <> q) by (intros Hpq; apply Hp; rewrite <- Hpq in Hq; exact Hq).
      destruct o; simpl; try (apply Hpre; now right).
      rewrite includesPath_other by assumption. apply Hpre. now right. }
    destruct (IH (recordV1 o p ls) st1 Hnd' Hpre' ls' Hok)
      as (n2 & os & E2 & M2 & R2 & W2).
    exists (n2 ++ n1)%list, ((p, o) :: os).
    split; [rewrite E2, E1; now rewrite app_assoc|].
    split; [simpl; now rewrite M2|].
    split; [exact R2|].
    rewrite writtenPaths_app, rev_app_distr, W2, W1. unfold pathsWritten. simpl.
    destruct (wrote o); reflexivity.
Qed.

Lemma V1_partition (E : Env) (d : ProblemDetails) (st : St) :
  let out := foldM (V1.mainFile E d (V1.toKebabCase (title d)))
                   LANGUAGE_EXTENSIONS noLists st in
  forall ls,
    fst out = Ok ls ->
    exists new,
      trace (snd out) = (new ++ trace st)%list /\
      NoDup (V1.createdFiles ls ++ V1.existingFiles ls ++ V1.skippedFiles ls) /\
      (forall p, In p (V1.createdFiles ls ++ V1.existingFiles ls ++ V1.skippedFiles ls) ->
                 In p (targetPathsV1 d)) /\
      (forall p, In p (writtenPaths new)
                 <-> In p (V1.createdFiles ls ++ V1.existingFiles ls)) /\
      (forall p, In p (V1.skippedFiles ls) -> ~ In p (writtenPaths new)).
Proof.
  intros out ls Hok.
  assert (Hnd0 : NoDup (targetPathsV1 d))
    by (rewrite targetPathsV1_same; apply targetPaths_NoDup).
  destruct (V1_loop E d LANGUAGE_EXTENSIONS noLists st Hnd0 (fun _ _ => eq_refl) ls Hok)
    as (new & os & E1 & M1 & R1 & W1).
  fold out in E1. fold (targetPathsV1 d) in M1.
  assert (Hnd : NoDup (map fst os)) by now rewrite M1.
  rewrite recordV1_tally in R1. simpl in R1. subst ls.
  cbn [V1.createdFiles V1.existingFiles V1.skippedFiles].
  assert (Hw : forall p, In p (writtenPaths new)
                         <-> In p (pathsWith Created os ++ pathsWith Updated os)).
  { intros p. rewrite in_rev, W1, pathsWritten_In, in_app_iff, !pathsWith_In. tauto. }
  exists new. split; [exact E1|]. split; [now apply tally_NoDup|].
  split.
  { intros p H. rewrite <- M1. rewrite !in_app_iff in H.
    destruct H as [H|[H|H]]; eapply tally_within; eauto. }
  split; [exact Hw|].
  intros p Hs Hin. apply Hw in Hin. apply in_app_iff in Hin.
  apply pathsWith_In in Hs.
  destruct Hin as [Hin|Hin]; apply pathsWith_In in Hin;
    pose proof (outcome_unique _ _ _ _ Hnd Hs Hin); discriminate.
Qed.

(** C10.  In every run of [FileManager.createSolutionFiles], and in every
    run of the first script's loop that reaches its end, no target path is
    in more than one of the lists created, updated and skipped, nor twice
    in one; every path in them is a target path of the catalog; a file is
    written exactly for the paths in created or updated, and for no path in
    skipped. *)
Theorem outcome_lists_partition (E : Env) (d : ProblemDetails) (st : St) :
  (let out := V2.createSolutionFiles E d st in
   exists res new,
     fst out = Ok res /\
     trace (snd out) = (new ++ trace st)%list /\
     NoDup (V2.created res ++ V2.updated res ++ V2.skipped res) /\
     (forall p, In p (V2.created res ++ V2.updated res ++ V2.skipped res) ->
                In p (targetPaths d)) /\
     (forall p, In p (writtenPaths new) <-> In p (V2.created res ++ V2.updated res)) /\
     (forall p, In p (V2.skipped res) -> ~ In p (writtenPaths new))) /\
  (let out := foldM (V1.mainFile E d (V1.toKebabCase (title d)))
                    LANGUAGE_EXTENSIONS noLists st in
   forall ls,
     fst out = Ok ls ->
     exists new,
       trace (snd out) = (new ++ trace st)%list /\
       NoDup (V1.createdFiles ls ++ V1.existingFiles ls ++ V1.skippedFiles ls) /\
       (forall p, In p (V1.createdFiles ls ++ V1.existingFiles ls ++ V1.skippedFiles ls) ->
                  In p (targetPathsV1 d)) /\
       (forall p, In p (writtenPaths new)
                  <-> In p (V1.createdFiles ls ++ V1.existingFiles ls)) /\
       (forall p, In p (V1.skippedFiles ls) -> ~ In p (writtenPaths new))).
Proof. split; [apply V2_partition|apply V1_partition]. Qed.

(* ================================================================== *)
(** ** Skipping: what the scan of the second script recognizes *)

(** One turn skips its target exactly when the file is there, is read, and
    the scan finds a line that is neither blank nor comment; a skipped
    target is not written. *)
Lemma V2_skip_rule (E : Env) (d : ProblemDetails)
      (language extension : string) (result : V2.FileOperationResult) (st : St) :
  let k := V2.toKebabCase (title d) in
  let p := V2.filePath language d k in
  let out := V2.processLanguage E d k (language, extension) result st in
  exists new o,
    trace (snd out) = (new ++ trace st)%list /\
    fst out = Ok (record o p result) /\
    (o = Skipped <-> substantive E st p) /\
    (o = Skipped -> writtenPaths new = [] /\ fs (snd out) = fs st) /\
    (o = Updated -> lookup p (fs st) <> None) /\
    (o = Created -> lookup p (fs st) = None).
Proof.
  intros k p out.
  destruct (V2_turn E d language extension result st)
    as (new & E1 & o & R1 & W1 & S1 & _ & _ & _ & _ & K1 & C1 & U1 & _).
  exists new, o.
  split; [exact E1|]. split; [exact R1|]. split; [exact K1|].
  split; [intros ->; split; [exact W1|exact S1]|].
  split; assumption.
Qed.

(** C1.  A python target that holds only what the script itself writes for
    a problem without snippets (the statement between the two docstring
    delimiters, the delimiters the catalog gives for python) is skipped on
    the next run, and so is the ruby target with its begin/end block; the
    twelve targets with slash-star comments are updated.  The scan keeps no
    state for the docstring and the begin/end delimiters, so the lines
    between them count as content. *)
Theorem comment_only_python_file_is_skipped :
  let E := healthyEnv [] in
  let d := rainWater [] in
  let disk := fs (snd (V2.createSolutionFiles E d (initial []))) in
  lookup pythonTarget disk = Some (commentBlock "python" d) /\
  lookup rubyTarget disk = Some (commentBlock "ruby" d) /\
  V2.scanLines false (JS.splitLines (commentBlock "python" d)) = true /\
  V2.scanLines false (JS.splitLines (commentBlock "ruby" d)) = true /\
  V2.scanLines false (JS.splitLines (commentBlock "java" d)) = false /\
  fst (V2.createSolutionFiles E d (initial disk))
  = Ok {| V2.created := []; V2.updated := blockCommentTargets;
          V2.skipped := [pythonTarget; rubyTarget] |}.
Proof. vm_compute. repeat split; reflexivity. Qed.

(** The first script's filter knows the line starts slash-star, star-slash
    and slash-slash only: the statement inside any comment block counts as
    content, so every file the script has written is skipped afterwards. *)
Example V1_comment_only_file_has_content :
  V1.nonCommentContent (commentBlock "java" (rainWater []))
  = "Given n bars, compute the water.".
Proof. vm_compute. reflexivity. Qed.

(* ================================================================== *)
(** ** Write failures *)

(** In [FileManager.createSolutionFiles] a failed write is logged, the path
    is in none of the three lists, every language of the catalog is still
    processed, and the materialization returns its result. *)
Lemma V2_write_failure_isolated (E : Env) (d : ProblemDetails) (st : St) :
  let out := V2.createSolutionFiles E d st in
  exists res new,
    fst out = Ok res /\
    trace (snd out) = (new ++ trace st)%list /\
    (forall p, In p (targetPaths d) ->
               In (EvAccess p true) new \/ In (EvAccess p false) new) /\
    (forall p body,
        In (EvWriteFile p body false) new ->
        In (EvLog LErr ("Failed to create " ++ p)) new /\
        ~ In p (V2.created res ++ V2.updated res ++ V2.skipped res)).
Proof.
  intros out.
  destruct (V2_materialize E d st) as (new & os & E1 & M1 & R1 & _ & L1 & F1 & A1).
  fold out in E1, R1.
  assert (Hnd : NoDup (map fst os)) by (rewrite M1; apply targetPaths_NoDup).
  exists (tallyOf os), new. split; [exact R1|]. split; [exact E1|].
  split; [exact A1|].
  intros p body H. pose proof (F1 _ _ H) as Hf. split; [now apply L1|].
  cbn [tallyOf V2.created V2.updated V2.skipped]. rewrite !in_app_iff.
  intros [Hin|[Hin|Hin]]; apply pathsWith_In in Hin;
    pose proof (outcome_unique _ _ _ _ Hnd Hf Hin); discriminate.
Qed.

(** C3.  In the first script the file is written outside the loop's [try]:
    when the write of the python file fails, the loop ends there.  The
    failure is reported as a failure of the API call, the browser is
    launched, and no other target of the catalog is reached by the loop. *)
Theorem V1_write_failure_aborts_the_loop :
  let events := chronicle (V1.run pythonReadOnlyEnv) (initial []) in
  firstn 7 (skipn 11 events)
  = [ EvAccess pythonTarget false;
      EvMkdir "python/hard" true;
      EvWriteFile pythonTarget (fileBody "python" (rainWater [pythonSnippet])) false;
      EvLog LErr "Direct API call failed: write failed";
      EvLog LLog "Attempting with Puppeteer...";
      EvLog LLog "Launching Puppeteer in headless mode with sandbox disabled...";
      EvLaunch true ] /\
  count isAccess events = 1 /\
  count isLaunch events = 1.
Proof. vm_compute. repeat split; reflexivity. Qed.

(* ================================================================== *)
(** ** Teardown of the browser *)

(** In the second script the browser is closed whenever it was launched,
    and closing is the last thing the fallback does. *)
Lemma V2_fallback_teardown (E : Env) (st : St) :
  browser st = false ->
  exists new,
    trace (snd (V2.getDailyChallengeViaPuppeteer E st)) = (new ++ trace st)%list /\
    (In (EvLaunch true) new ->
     exists ok rest, new = EvBrowserClose ok :: rest /\ count isBrowserClose rest = 0) /\
    (In (EvLaunch false) new -> count isBrowserClose new = 0).
Proof.
  intros Hb. destruct (V2_fallback_trace E st Hb) as (new & E1 & _ & _ & _ & H1 & H2).
  exists new. repeat split; assumption.
Qed.

(** In the first script the browser is closed once a page has been opened,
    whatever happens then, a failed extraction included. *)
Lemma V1_fallback_teardown_after_newPage (E : Env) (st : St) :
  exists new,
    trace (snd (V1.getDailyLeetcodeChallengeWithPuppeteer E st))
    = (new ++ trace st)%list /\
    (In (EvNewPage true) new ->
     exists ok rest, new = EvBrowserClose ok :: rest /\ count isBrowserClose rest = 0) /\
    (In (EvNewPage false) new -> count isBrowserClose new = 0).
Proof.
  destruct st as [files tr tok br].
  unfold V1.getDailyLeetcodeChallengeWithPuppeteer, launch, newPage, pageDo,
    pageEvaluate, browserClose.
  run_calls. by_calls; give_new; split;
    first [ intros _; eexists; eexists; split; reflexivity
          | intros _; reflexivity
          | intros H; no_such_event H ].
Qed.

(** C8.  In the first script the page is opened before the [try] whose
    [finally] closes the browser: when the browser has been launched and
    opening the page fails, the fallback throws and the browser is never
    closed. *)
Theorem V1_browser_left_open_when_newPage_fails :
  chronicle (V1.getDailyLeetcodeChallengeWithPuppeteer noPageEnv) (initial [])
  = [EvLaunch true; EvNewPage false] /\
  fst (V1.getDailyLeetcodeChallengeWithPuppeteer noPageEnv (initial []))
  = Throw "newPage failed" /\
  chronicle (V2.getDailyChallengeViaPuppeteer noPageEnv) (initial [])
  = [EvLog LInfo "Launching Puppeteer browser..."; EvLaunch true;
     EvNewPage false; EvBrowserClose true].
Proof. vm_compute. repeat split; reflexivity. Qed.

(* ================================================================== *)
(** ** Languages without a snippet *)

Lemma lookup_head {A} (p : string) (v : A) (l : list (string * A)) :
  lookup p ((p, v) :: l) = Some v.
Proof. simpl. now rewrite String.eqb_refl. Qed.

Lemma fileBody_without_snippet (language : string) (d : ProblemDetails) :
  findSnippet language (codeSnippets d) = None ->
  fileBody language d = commentBlock language d.
Proof.
  intros H. unfold fileBody, commentBlock, V2.formatProblemFile. rewrite H.
  cbn [codeOrEmpty].
  destruct (lookup language COMMENT_STYLES) as [[start stop]|];
    cbv beta iota zeta; apply append_nil_r.
Qed.

Lemma V1_fallbackFile_without_snippet (E : Env) (d : ProblemDetails)
      (language extension : string) (st : St) :
  findSnippet language (codeSnippets d) = None ->
  let out := V1.fallbackFile E d (V1.toKebabCase (title d)) (language, extension) tt st in
  fst out = Ok tt /\ fs (snd out) = fs st /\
  exists new,
    trace (snd out) = (new ++ trace st)%list /\ count isWriteFile new = 0.
Proof.
  intros Hs. destruct st as [files tr tok br].
  unfold V1.fallbackFile, mkdir. rewrite Hs. run_calls.
  destruct (mkdirFails E tr _); cbn [fst snd trace fs negb];
    (split; [reflexivity|split; [reflexivity|]]); give_new; reflexivity.
Qed.

(** What each of the three paths does for a catalog language without a
    matching snippet, in every environment.  The body of the file is the
    comment block alone.  One turn of [FileManager.createSolutionFiles]
    always returns; it writes that body unless the target already has
    substantive content or making the directory or writing fails.  One turn
    of the first script's API-path loop does the same, except that a
    failing directory or write throws.  One turn of the first script's
    browser-path [createSolutionFiles] returns without writing anything. *)
Lemma placeholder_unless_browser_path (E : Env) (d : ProblemDetails)
        (language extension : string) :
  In (language, extension) LANGUAGE_EXTENSIONS ->
  findSnippet language (codeSnippets d) = None ->
  let k := V2.toKebabCase (title d) in
  let p := V2.filePath language d k in
  let dir := Path.join language (JS.toLowerCase (difficulty d)) in
  let block := commentBlock language d in
  fileBody language d = block /\
  (forall result st,
      let out := V2.processLanguage E d k (language, extension) result st in
      exists new,
        trace (snd out) = (new ++ trace st)%list /\
        (exists res, fst out = Ok res) /\
        (substantive E st p \/
         In (EvMkdir dir false) new \/
         In (EvWriteFile p block false) new \/
         (In (EvWriteFile p block true) new /\
          lookup p (fs (snd out)) = Some block))) /\
  (forall ls st,
      V1.includesPath (V1.existingFiles ls) p = false ->
      let out := V1.mainFile E d k (language, extension) ls st in
      exists new,
        trace (snd out) = (new ++ trace st)%list /\
        ((exists text, lookup p (fs st) = Some text /\
                       V1.nonCommentContent text <> EmptyString) \/
         In (EvMkdir dir false) new \/
         In (EvWriteFile p block false) new \/
         (In (EvWriteFile p block true) new /\
          lookup p (fs (snd out)) = Some block))) /\
  (forall st,
      let out := V1.fallbackFile E d k (language, extension) tt st in
      fst out = Ok tt /\ fs (snd out) = fs st /\
      exists new,
        trace (snd out) = (new ++ trace st)%list /\ count isWriteFile new = 0).
Proof.
  intros Hin Hnone k p dir block.
  pose proof (fileBody_without_snippet language d Hnone) as Hbody. fold block in Hbody.
  split; [exact Hbody|]. split; [|split].
  - intros result st out.
    destruct (V2_turn E d language extension result st)
      as (new & E1 & o & R1 & _ & S1 & _ & _ & _ & W1 & K1 & _ & _ & _ & F1).
    fold k in E1, R1, S1, W1, K1, F1. fold p in R1, S1, W1, K1, F1. fold out in E1, R1, S1.
    fold dir in F1. rewrite Hbody in S1, W1, F1.
    exists new. split; [exact E1|]. split; [eexists; exact R1|].
    destruct o.
    + right; right; right. split; [now apply W1|]. rewrite S1. apply lookup_head.
    + right; right; right. split; [now apply W1|]. rewrite S1. apply lookup_head.
    + left. now apply K1.
    + destruct (F1 eq_refl); tauto.
  - intros ls st Hpre out. subst out.
    assert (Hp : V1.filePath language extension d (V1.toKebabCase (title d)) = p)
      by now apply filePath_same.
    rewrite <- Hp in Hpre.
    destruct (V1_turn E d language extension ls st Hpre)
      as (new & E1 & [(o & Ho & R1 & _ & _ & W1 & S1 & K1 & _)|(e & R1 & _ & F1)]);
      rewrite ?Hp in *; change (V1.toKebabCase (title d)) with k in *;
      exists new; (split; [exact E1|]).
    + rewrite Hbody in S1, W1.
      destruct o; try congruence.
      * right; right; right. split; [now apply W1|]. rewrite S1. apply lookup_head.
      * right; right; right. split; [now apply W1|]. rewrite S1. apply lookup_head.
      * left. destruct (K1 eq_refl) as (text & H1 & _ & H3). now exists text.
    + fold dir in F1. rewrite Hbody in F1. tauto.
  - intros st. now apply V1_fallbackFile_without_snippet.
Qed.

Lemma placeholder_unless_browser_path_witness :
  fileBody "python" (rainWater []) = commentBlock "python" (rainWater []).
Proof.
  apply (proj1 (placeholder_unless_browser_path (healthyEnv []) (rainWater [])
                  "python" "py" ltac:(simpl; tauto) ltac:(reflexivity))).
Defined.

(** C4.  The first script's browser-path [createSolutionFiles], lines
    356-381, run on an empty disk for a problem that has no snippet for any
    language: under the comment "Create files for each language" it makes
    the fourteen directories (the [mkdir] of line 365 is unconditional),
    writes nothing because the write stands inside [if (snippet)], and
    returns normally; the python target does not exist afterwards.  For the
    same problem on the same disk the two sibling paths,
    [FileManager.createSolutionFiles] and the loop of the first script's
    API path, leave the comment block alone in the python target, as the
    claim says. *)
Theorem V1_browser_path_writes_no_placeholder :
  let d := rainWater [] in
  let block := commentBlock "python" d in
  let browserPath :=
    V1.createSolutionFiles (healthyEnv []) "trapping-rain-water" (initial []) in
  let second := V2.createSolutionFiles (healthyEnv []) d (initial []) in
  let apiPath := V1.apiPath (healthyEnv []) (initial []) in
  findSnippet "python" (codeSnippets d) = None /\
  fst browserPath = Ok tt /\
  count isMkdir (trace (snd browserPath)) = 14 /\
  count isWriteFile (trace (snd browserPath)) = 0 /\
  lookup pythonTarget (fs (snd browserPath)) = None /\
  lookup pythonTarget (fs (snd second)) = Some block /\
  lookup pythonTarget (fs (snd apiPath)) = Some block.
Proof. vm_compute. repeat split; reflexivity. Qed.

(* ================================================================== *)
(** ** A target that cannot be read *)

Lemma classifiers_answer_false_on_read_failure (E : Env) (p : string) (st : St) :
  lookup p (fs st) = None \/ readFails E (trace st) p = true ->
  fst (V2.hasNonCommentContent E p st) = Ok false /\
  fst (V1.hasContent E p st) = Ok false.
Proof.
  destruct st as [files tr tok br]. simpl.
  unfold V2.hasNonCommentContent, V1.hasContent, readFile. run_calls.
  intros [H|H].
  - rewrite H. split; reflexivity.
  - rewrite H. destruct (lookup p files); split; reflexivity.
Qed.

(** C9.  When the read of an existing target fails, both classifiers answer
    that the file has no content.  The turn of the second script's loop then
    does not skip the target: it overwrites it and records it as updated,
    unless making the directory or the write fails, which is logged.  The
    turn of the first script's loop overwrites it and records it in
    [existingFiles], unless the write fails, which throws. *)
Theorem unreadable_target_is_overwritten (E : Env) (d : ProblemDetails)
        (language extension : string) (st : St) (text : string) :
  In (language, extension) LANGUAGE_EXTENSIONS ->
  let k := V2.toKebabCase (title d) in
  let p := V2.filePath language d k in
  let dir := Path.join language (JS.toLowerCase (difficulty d)) in
  let body := fileBody language d in
  lookup p (fs st) = Some text ->
  readFails E (EvAccess p true :: trace st) p = true ->
  (forall st', readFails E (trace st') p = true ->
               fst (V2.hasNonCommentContent E p st') = Ok false /\
               fst (V1.hasContent E p st') = Ok false) /\
  (forall result,
      let out := V2.processLanguage E d k (language, extension) result st in
      exists new,
        trace (snd out) = (new ++ trace st)%list /\
        ((fst out = Ok (record Updated p result) /\
          In (EvWriteFile p body true) new /\
          lookup p (fs (snd out)) = Some body)
         \/
         (fst out = Ok result /\
          In (EvLog LErr ("Failed to create " ++ p)) new /\
          (In (EvMkdir dir false) new \/ In (EvWriteFile p body false) new)))) /\
  (forall ls,
      V1.includesPath (V1.existingFiles ls) p = false ->
      let out := V1.mainFile E d k (language, extension) ls st in
      exists new,
        trace (snd out) = (new ++ trace st)%list /\
        ((fst out = Ok (recordV1 Updated p ls) /\
          In (EvWriteFile p body true) new /\
          lookup p (fs (snd out)) = Some body)
         \/
         (exists e, fst out = Throw e /\
                    (In (EvMkdir dir false) new \/ In (EvWriteFile p body false) new)))).
Proof.
  intros Hin k p dir body Hex Hrd.
  split; [intros st' H; apply classifiers_answer_false_on_read_failure; now right|].
  split.
  - intros result out.
    destruct (V2_turn E d language extension result st)
      as (new & E1 & o & R1 & _ & S1 & L1 & _ & _ & W1 & K1 & C1 & _ & _ & F1).
    fold k in E1, R1, S1, L1, W1, K1, C1, F1.
    fold p in R1, S1, L1, W1, K1, C1, F1. fold out in E1, R1, S1.
    fold dir in F1. fold body in S1, W1, F1.
    exists new. split; [exact E1|].
    destruct o.
    + rewrite (C1 eq_refl) in Hex. discriminate.
    + left. split; [exact R1|]. split; [now apply W1|]. rewrite S1. apply lookup_head.
    + exfalso. destruct (proj1 K1 eq_refl) as (text' & _ & H2 & _). congruence.
    + right. split; [exact R1|]. split; [now apply L1|now apply F1].
  - intros ls Hpre out. subst out.
    assert (Hp : V1.filePath language extension d (V1.toKebabCase (title d)) = p)
      by now apply filePath_same.
    rewrite <- Hp in Hpre.
    destruct (V1_turn E d language extension ls st Hpre)
      as (new & E1 & [(o & Ho & R1 & _ & _ & W1 & S1 & K1 & C1)|(e & R1 & _ & F1)]);
      rewrite ?Hp in *; change (V1.toKebabCase (title d)) with k in *;
      exists new; (split; [exact E1|]).
    + fold body in W1, S1. destruct o; try congruence.
      * rewrite (C1 eq_refl) in Hex. discriminate.
      * left. split; [exact R1|]. split; [now apply W1|]. rewrite S1. apply lookup_head.
      * exfalso. destruct (K1 eq_refl) as (text' & _ & H2 & _). congruence.
    + fold body in F1. right. exists e. split; [exact R1|]. exact F1.
Qed.


Lemma fallback_once_then_fatal_witness :
  count isLaunch (trace (snd (V2.main offlineEnv (initial [])))) = 1 /\
  fst (V2.main offlineEnv (initial [])) = Ok 1.
Proof.
  assert (Hfail : apiAcquisitionFailed (trace (snd (V2.main offlineEnv (initial [])))))
    by (left; vm_compute; tauto).
  assert (Hnot : ~ In fallbackSucceededV2 (trace (snd (V2.main offlineEnv (initial [])))))
    by (vm_compute; intuition discriminate).
  pose proof (proj1 (fallback_once_then_fatal offlineEnv []) Hfail) as (H1 & _ & _ & H4).
  split; [exact H1|exact (proj1 (H4 Hnot))].
Defined.

Lemma unreadable_target_is_overwritten_witness :
  fst (V2.hasNonCommentContent pythonUnreadableEnv pythonTarget
         (initial [(pythonTarget, "print(42)")])) = Ok false /\
  fst (V1.hasContent pythonUnreadableEnv pythonTarget
         (initial [(pythonTarget, "print(42)")])) = Ok false.
Proof.
  assert (Hp : V2.filePath "python" (rainWater []) (V2.toKebabCase (title (rainWater [])))
               = pythonTarget) by (vm_compute; reflexivity).
  assert (Hin : In ("python", "py") LANGUAGE_EXTENSIONS) by (simpl; tauto).
  assert (Hex : lookup
                  (V2.filePath "python" (rainWater []) (V2.toKebabCase (title (rainWater []))))
                  (fs (initial [(pythonTarget, "print(42)")])) = Some "print(42)")
    by (vm_compute; reflexivity).
  assert (Hrd : readFails pythonUnreadableEnv
                  (EvAccess (V2.filePath "python" (rainWater [])
                               (V2.toKebabCase (title (rainWater [])))) true
                   :: trace (initial [(pythonTarget, "print(42)")]))
                  (V2.filePath "python" (rainWater []) (V2.toKebabCase (title (rainWater []))))
                = true)
    by (vm_compute; reflexivity).
  pose proof (proj1 (unreadable_target_is_overwritten pythonUnreadableEnv (rainWater [])
                       "python" "py" (initial [(pythonTarget, "print(42)")])
                       "print(42)" Hin Hex Hrd)) as H.
  cbv zeta in H. rewrite Hp in H.
  apply H. vm_compute. reflexivity.
Defined.

Lemma outcome_lists_partition_witness :
  exists ls new,
    fst (foldM (V1.mainFile (healthyEnv [pythonSnippet]) (rainWater [pythonSnippet])
                  (V1.toKebabCase (title (rainWater [pythonSnippet]))))
               LANGUAGE_EXTENSIONS noLists (initial [])) = Ok ls /\
    NoDup (V1.createdFiles ls ++ V1.existingFiles ls ++ V1.skippedFiles ls) /\
    (forall p, In p (V1.skippedFiles ls) -> ~ In p (writtenPaths new)).
Proof.
  destruct (fst (foldM (V1.mainFile (healthyEnv [pythonSnippet]) (rainWater [pythonSnippet])
                  (V1.toKebabCase (title (rainWater [pythonSnippet]))))
               LANGUAGE_EXTENSIONS noLists (initial []))) as [ls|e] eqn:Hout;
    [|vm_compute in Hout; discriminate].
  destruct (proj2 (outcome_lists_partition (healthyEnv [pythonSnippet])
                     (rainWater [pythonSnippet]) (initial [])) ls Hout)
    as (new & _ & N1 & _ & _ & S1).
  exists ls, new. split; [reflexivity|]. split; assumption.
Defined.

(* ================================================================== *)
(** ** More about [toKebabCase] *)

(** X1.  The strings [toKebabCase] leaves as they are, are exactly those
    made of lower-case letters, digits and hyphens. *)
Theorem toKebabCase_fixed_points (s : string) :
  (V1.toKebabCase s = s <-> matchesSlugPattern s = true) /\
  (V2.toKebabCase s = s <-> matchesSlugPattern s = true).
Proof.
  assert (H : V2.toKebabCase s = s <-> matchesSlugPattern s = true).
  { split.
    - intros Hs. rewrite <- Hs. apply toKebabCase_pattern.
    - apply toKebabCase_fixes_slugs. }
  split; exact H.
Qed.

(* ================================================================== *)
(** ** Trimming *)

Lemma trimEnd_blank (s : string) : blank s = true -> JS.trimEnd s = EmptyString.
Proof.
  unfold blank. induction s as [|c r IH]; simpl; [reflexivity|].
  intros H. apply andb_true_iff in H as [Hc Hr]. now rewrite (IH Hr), Hc.
Qed.

Lemma trimEnd_not_blank (s : string) :
  blank s = false -> JS.trimEnd s <> EmptyString.
Proof.
  unfold blank. induction s as [|c r IH]; simpl; [discriminate|].
  intros H. destruct (JS.trimEnd r) eqn:Hr; [|discriminate].
  destruct (JS.isSpace c) eqn:Hc; [|discriminate].
  simpl in H. exfalso. now apply IH.
Qed.

Lemma trimStart_blank (s : string) : blank s = true -> JS.trimStart s = EmptyString.
Proof.
  unfold blank. induction s as [|c r IH]; simpl; [reflexivity|].
  intros H. apply andb_true_iff in H as [Hc Hr]. now rewrite Hc, IH.
Qed.

Lemma trimStart_keeps_blankness (s : string) : blank (JS.trimStart s) = blank s.
Proof.
  unfold blank. induction s as [|c r IH]; simpl; [reflexivity|].
  destruct (JS.isSpace c) eqn:Hc; simpl; [exact IH|now rewrite Hc].
Qed.

(** A text trims to nothing exactly when it is white space only. *)
Lemma trim_empty_iff (s : string) : JS.trim s = EmptyString <-> blank s = true.
Proof.
  unfold JS.trim. split; intros H.
  - destruct (blank s) eqn:Hb; [reflexivity|].
    rewrite <- trimStart_keeps_blankness in Hb.
    now destruct (trimEnd_not_blank _ Hb).
  - apply trimEnd_blank. now rewrite trimStart_keeps_blankness.
Qed.

Lemma trimStart_starts (s : string) : startsWithSpace (JS.trimStart s) = false.
Proof.
  induction s as [|c r IH]; simpl; [reflexivity|].
  destruct (JS.isSpace c) eqn:Hc; [exact IH|simpl; exact Hc].
Qed.

Lemma trimEnd_ends (s : string) : endsWithSpace (JS.trimEnd s) = false.
Proof.
  induction s as [|c r IH]; simpl; [reflexivity|].
  destruct (JS.trimEnd r) as [|d r'] eqn:Hr.
  - destruct (JS.isSpace c) eqn:Hc; simpl; [reflexivity|exact Hc].
  - exact IH.
Qed.

(** Trimming the end leaves a first character that is no white space. *)
Lemma trimEnd_starts (s : string) :
  startsWithSpace s = false -> startsWithSpace (JS.trimEnd s) = false.
Proof.
  destruct s as [|c r]; simpl; [reflexivity|]. intros Hc.
  destruct (JS.trimEnd r); [now rewrite Hc|exact Hc].
Qed.

Lemma trim_edges (s : string) :
  startsWithSpace (JS.trim s) = false /\ endsWithSpace (JS.trim s) = false.
Proof.
  unfold JS.trim. split; [apply trimEnd_starts, trimStart_starts|apply trimEnd_ends].
Qed.

(** X2.  The plain text [htmlToText] gives never begins and never ends with
    white space, whatever the markup: what is put between the comment
    delimiters starts right behind the opening line and ends right before
    the closing line. *)
Theorem htmlToText_has_no_outer_space (html : string) :
  startsWithSpace (V2.htmlToText html) = false /\
  endsWithSpace (V2.htmlToText html) = false.
Proof. unfold V2.htmlToText. apply trim_edges. Qed.

(* ================================================================== *)
(** ** Text without markup *)

Lemma plainChar_reTag (c : ascii) (r : string) :
  plainChar c = true -> JS.reTag (String c r) = None.
Proof.
  unfold plainChar. intros H. apply andb_true_iff in H as [H _].
  apply negb_true_iff in H. unfold JS.reTag. now rewrite H.
Qed.

Lemma plainChar_reLit (c : ascii) (p r : string) :
  plainChar c = true -> JS.reLit (String "&"%char p) (String c r) = None.
Proof.
  unfold plainChar. intros H. apply andb_true_iff in H as [_ H].
  apply negb_true_iff in H. unfold JS.reLit. cbn [JS.startsWith].
  rewrite Ascii.eqb_sym, H. reflexivity.
Qed.

(** X3.  A text with no opening angle bracket and no ampersand in it is
    only trimmed by [htmlToText]: closing brackets, quotes and everything
    else stay as they are. *)
Theorem htmlToText_on_plain_text (s : string) :
  allChars plainChar s = true -> V2.htmlToText s = JS.trim s.
Proof.
  intros H. unfold V2.htmlToText, JS.replaceAll.
  rewrite (gsub_no_match JS.reTag EmptyString plainChar plainChar_reTag s H).
  rewrite (gsub_no_match _ " " plainChar (fun c r => plainChar_reLit c _ r) s H).
  rewrite (gsub_no_match _ "<" plainChar (fun c r => plainChar_reLit c _ r) s H).
  rewrite (gsub_no_match _ ">" plainChar (fun c r => plainChar_reLit c _ r) s H).
  rewrite (gsub_no_match _ dq plainChar (fun c r => plainChar_reLit c _ r) s H).
  rewrite (gsub_no_match _ "'" plainChar (fun c r => plainChar_reLit c _ r) s H).
  rewrite (gsub_no_match _ "&" plainChar (fun c r => plainChar_reLit c _ r) s H).
  reflexivity.
Qed.

Lemma htmlToText_on_plain_text_witness :
  V2.htmlToText "  if 2 > 1 then 'yes' " = "if 2 > 1 then 'yes'".
Proof.
  rewrite (htmlToText_on_plain_text "  if 2 > 1 then 'yes' "); reflexivity.
Defined.

(* ================================================================== *)
(** ** Lines, prefixes and parts of a text *)

Lemma splitLines_nonempty (s : string) : JS.splitLines s <> [].
Proof.
  induction s as [|c r IH]; simpl; [discriminate|].
  destruct (Ascii.eqb c "010"%char); [discriminate|].
  destruct (JS.splitLines r); [contradiction|discriminate].
Qed.

(** The lines of two texts put together with a newline between them are
    the lines of the first and then the lines of the second. *)
Lemma splitLines_app (a b : string) :
  JS.splitLines (a ++ JS.nl ++ b) = (JS.splitLines a ++ JS.splitLines b)%list.
Proof.
  induction a as [|c r IH]; [reflexivity|].
  change (String c r ++ JS.nl ++ b) with (String c (r ++ JS.nl ++ b)).
  cbn [JS.splitLines]. rewrite IH.
  destruct (Ascii.eqb c "010"%char); [reflexivity|].
  pose proof (splitLines_nonempty r) as Hr.
  destruct (JS.splitLines r) as [|h t]; [contradiction|reflexivity].
Qed.

Lemma startsWith_app (p a b : string) :
  JS.startsWith p a = true -> JS.startsWith p (a ++ b) = true.
Proof.
  revert a. induction p as [|x p IH]; intros a; [reflexivity|].
  destruct a as [|y a]; simpl; [discriminate|].
  intros H. apply andb_true_iff in H as [H1 H2]. now rewrite H1, IH.
Qed.

Lemma includes_app_r (p a b : string) :
  JS.includes p a = true -> JS.includes p (a ++ b) = true.
Proof.
  induction a as [|c r IH]; intros H.
  - simpl in H. rewrite orb_false_r in H.
    destruct p; [|discriminate]. destruct b; reflexivity.
  - change (String c r ++ b) with (String c (r ++ b)).
    cbn [JS.includes] in *. apply orb_true_iff in H as [H|H].
    + pose proof (startsWith_app _ _ b H) as H'.
      change (String c r ++ b) with (String c (r ++ b)) in H'. now rewrite H'.
    + rewrite (IH H). apply orb_true_r.
Qed.

Lemma includes_app_behind (p a b : string) :
  JS.includes p b = true -> JS.includes p (a ++ b) = true.
Proof.
  intros H. induction a as [|c r IH]; [exact H|].
  change (String c r ++ b) with (String c (r ++ b)).
  cbn [JS.includes]. rewrite IH. apply orb_true_r.
Qed.

Lemma trimStart_part (s : string) : exists a, s = a ++ JS.trimStart s.
Proof.
  induction s as [|c r [a IH]]; [now exists EmptyString|].
  simpl. destruct (JS.isSpace c).
  - exists (String c a). simpl. now rewrite <- IH.
  - now exists EmptyString.
Qed.

Lemma trimEnd_part (s : string) : exists b, s = JS.trimEnd s ++ b.
Proof.
  induction s as [|c r [b IH]]; [now exists EmptyString|].
  simpl. destruct (JS.trimEnd r) as [|d r'] eqn:Hr.
  - destruct (JS.isSpace c).
    + now exists (String c r).
    + exists r. reflexivity.
  - exists b. simpl in *. now rewrite <- IH.
Qed.

(** What a trimmed text includes, the text includes. *)
Lemma includes_trim (p s : string) :
  JS.includes p (JS.trim s) = true -> JS.includes p s = true.
Proof.
  unfold JS.trim. intros H.
  destruct (trimStart_part s) as [a Ha].
  destruct (trimEnd_part (JS.trimStart s)) as [b Hb].
  rewrite Ha. apply includes_app_behind. rewrite Hb. now apply includes_app_r.
Qed.

(** The first line starts the text. *)
Lemma first_line_starts (s : string) :
  forall h t, JS.splitLines s = h :: t -> exists b, s = h ++ b.
Proof.
  induction s as [|c r IH]; intros h t Hs.
  - simpl in Hs. inversion Hs. now exists EmptyString.
  - cbn [JS.splitLines] in Hs. destruct (Ascii.eqb c "010"%char).
    + inversion Hs. now exists (String c r).
    + destruct (JS.splitLines r) as [|h' t'] eqn:Hs'.
      * inversion Hs. destruct (splitLines_nonempty r Hs').
      * destruct (IH h' t' eq_refl) as [b Hb].
        inversion Hs. exists b. simpl. now rewrite <- Hb.
Qed.

(** Every line of a text is a part of it. *)
Lemma line_part (s l : string) :
  In l (JS.splitLines s) -> exists a b, s = a ++ l ++ b.
Proof.
  revert l. induction s as [|c r IH]; intros l H.
  - simpl in H. destruct H as [<-|[]]. now exists EmptyString, EmptyString.
  - cbn [JS.splitLines] in H. destruct (Ascii.eqb c "010"%char) eqn:Hc.
    + destruct H as [<-|H].
      * now exists EmptyString, (String c r).
      * destruct (IH l H) as (a & b & ->). now exists (String c a), b.
    + destruct (JS.splitLines r) as [|h t] eqn:Hs.
      * destruct (splitLines_nonempty r Hs).
      * destruct H as [<-|H].
        -- destruct (first_line_starts r h t Hs) as [b ->].
           now exists EmptyString, b.
        -- destruct (IH l (or_intror H)) as (a & b & ->). now exists (String c a), b.
Qed.

Lemma includes_line (p s l : string) :
  In l (JS.splitLines s) -> JS.includes p (JS.trim l) = true -> JS.includes p s = true.
Proof.
  intros Hl H. apply includes_trim in H. destruct (line_part s l Hl) as (a & b & ->).
  apply includes_app_behind. now apply includes_app_r.
Qed.

(* ================================================================== *)
(** ** The scan of a file the script has generated *)

Lemma scanLines_cons (inBlockComment : bool) (line : string) (rest : list string) :
  V2.scanLines inBlockComment (line :: rest)
  = if (JS.trim line =? EmptyString)%string then V2.scanLines inBlockComment rest
    else if (if JS.includes "/*" (JS.trim line) then true else inBlockComment)
         then V2.scanLines (if JS.includes "*/" (JS.trim line) then false else true) rest
         else if JS.startsWith "//" (JS.trim line)
                 || JS.startsWith "#" (JS.trim line)
                 || JS.startsWith "=begin" (JS.trim line)
                 || JS.startsWith "=end" (JS.trim line)
                 || (JS.trim line =? tripleQuote)%string
              then V2.scanLines false rest
              else true.
Proof. reflexivity. Qed.

(** Inside a block comment, lines without the closing delimiter are passed
    over. *)
Lemma scanLines_inside_block (lines rest : list string) :
  (forall l, In l lines -> JS.includes "*/" (JS.trim l) = false) ->
  V2.scanLines true (lines ++ rest) = V2.scanLines true rest.
Proof.
  induction lines as [|l lines IH]; intros H; [reflexivity|].
  change ((l :: lines) ++ rest)%list with (l :: (lines ++ rest))%list.
  rewrite scanLines_cons, (H l (or_introl eq_refl)).
  assert (IH' : V2.scanLines true (lines ++ rest) = V2.scanLines true rest)
    by (apply IH; intros l' Hl'; apply H; now right).
  destruct (JS.trim l =? EmptyString)%string; [exact IH'|].
  destruct (JS.includes "/*" (JS.trim l)); exact IH'.
Qed.

Lemma block_style (language : string) :
  language <> "python" -> language <> "ruby" ->
  match lookup language COMMENT_STYLES with
  | Some p => p
  | None => ("/*", "*/")
  end = ("/*", "*/").
Proof.
  intros Hp Hr. unfold COMMENT_STYLES. cbn [lookup].
  repeat match goal with
         | |- context [String.eqb ?k language] =>
             destruct (String.eqb_spec k language) as [He|He];
             [try reflexivity; exfalso; first [now apply Hp | now apply Hr]|clear He]
         end.
  reflexivity.
Qed.

(** X4.  For a language whose comment block is delimited by slash-star and
    star-slash (every language of the catalog but python and ruby, and every
    key outside it), and a statement whose plain text holds no star-slash,
    the scan of [hasNonCommentContent] over the file [formatProblemFile]
    builds finds exactly what it finds in the code template alone: the
    comment block counts for nothing. *)
Theorem scan_passes_over_the_generated_comment (language problemContent code : string) :
  language <> "python" -> language <> "ruby" ->
  JS.includes "*/" (V2.htmlToText problemContent) = false ->
  V2.scanLines false (JS.splitLines (V2.formatProblemFile language problemContent code))
  = V2.scanLines false (JS.splitLines code).
Proof.
  intros Hp Hr Hfree. unfold V2.formatProblemFile.
  rewrite (block_style language Hp Hr).
  rewrite !append_assoc.
  change ("/*" ++ JS.nl ++ V2.htmlToText problemContent ++ JS.nl ++ "*/" ++ JS.nl ++ JS.nl ++ code)
    with ("/*" ++ JS.nl ++ (V2.htmlToText problemContent ++ JS.nl
                            ++ ("*/" ++ JS.nl ++ (EmptyString ++ JS.nl ++ code)))).
  rewrite !splitLines_app.
  change (JS.splitLines "/*") with ["/*"].
  change (JS.splitLines "*/") with ["*/"].
  change (JS.splitLines EmptyString) with [EmptyString].
  change (["/*"] ++ JS.splitLines (V2.htmlToText problemContent)
          ++ ["*/"] ++ [EmptyString] ++ JS.splitLines code)%list
    with ("/*" :: (JS.splitLines (V2.htmlToText problemContent)
                   ++ "*/" :: EmptyString :: JS.splitLines code))%list.
  rewrite scanLines_cons.
  change (JS.trim "/*") with "/*".
  change (("/*" =? EmptyString)%string) with false.
  change (JS.includes "/*" "/*") with true.
  change (JS.includes "*/" "/*") with false.
  cbv iota.
  rewrite scanLines_inside_block.
  - rewrite scanLines_cons.
    change (JS.trim "*/") with "*/".
    change (("*/" =? EmptyString)%string) with false.
    change (JS.includes "/*" "*/") with false.
    change (JS.includes "*/" "*/") with true.
    cbv iota.
    rewrite scanLines_cons. reflexivity.
  - intros l Hl. destruct (JS.includes "*/" (JS.trim l)) eqn:Hi; [|reflexivity].
    rewrite (includes_line _ _ _ Hl Hi) in Hfree. discriminate.
Qed.

Lemma scan_passes_over_the_generated_comment_witness :
  V2.scanLines false
    (JS.splitLines (V2.formatProblemFile "java" "<p>Add two numbers.</p>" EmptyString))
  = false.
Proof.
  rewrite (scan_passes_over_the_generated_comment "java" "<p>Add two numbers.</p>"
             EmptyString); [reflexivity|discriminate|discriminate|reflexivity].
Defined.

(* ================================================================== *)
(** ** Files that are white space only *)

Lemma blank_app (a b : string) : blank (a ++ b) = blank a && blank b.
Proof. apply allChars_app. Qed.

Lemma blank_lines (s l : string) :
  blank s = true -> In l (JS.splitLines s) -> blank l = true.
Proof.
  intros Hs Hl. destruct (line_part s l Hl) as (a & b & ->).
  rewrite !blank_app in Hs.
  apply andb_true_iff in Hs as [_ Hs]. now apply andb_true_iff in Hs as [Hs _].
Qed.

Lemma scanLines_blank (lines : list string) (inBlockComment : bool) :
  (forall l, In l lines -> blank l = true) ->
  V2.scanLines inBlockComment lines = false.
Proof.
  induction lines as [|l lines IH]; intros H; [reflexivity|].
  rewrite scanLines_cons.
  rewrite (proj2 (trim_empty_iff l) (H l (or_introl eq_refl))).
  apply IH. intros l' Hl'. apply H. now right.
Qed.

Lemma keepsLine_blank (l : string) : blank l = true -> V1.keepsLine l = false.
Proof.
  intros H. unfold V1.keepsLine. rewrite (proj2 (trim_empty_iff l) H).
  reflexivity.
Qed.

Lemma filter_none {A} (f : A -> bool) (l : list A) :
  (forall x, In x l -> f x = false) -> filter f l = [].
Proof.
  induction l as [|x l IH]; intros H; [reflexivity|].
  simpl. rewrite (H x (or_introl eq_refl)). apply IH. intros y Hy. apply H. now right.
Qed.

(** X5.  A target that holds white space only (the empty file included) has
    no content for either classifier, whether or not it can be read: the
    scripts then write over it. *)
Theorem blank_file_has_no_content (E : Env) (p text : string) (st : St) :
  lookup p (fs st) = Some text ->
  blank text = true ->
  fst (V2.hasNonCommentContent E p st) = Ok false /\
  fst (V1.hasContent E p st) = Ok false.
Proof.
  intros Hp Hb.
  unfold V2.hasNonCommentContent, V1.hasContent, V1.nonCommentContent, readFile,
    tryCatch, bind, emit, ret, throw.
  rewrite Hp. destruct (readFails E (trace st) p); cbn [fst snd]; [now split|].
  split.
  - rewrite scanLines_blank; [reflexivity|]. intros l. now apply blank_lines.
  - rewrite filter_none; [reflexivity|].
    intros l Hl. apply keepsLine_blank. now apply (blank_lines text).
Qed.

Lemma blank_file_has_no_content_witness :
  fst (V2.hasNonCommentContent (healthyEnv []) pythonTarget
         (initial [(pythonTarget, "  " ++ JS.nl ++ " ")])) = Ok false /\
  fst (V1.hasContent (healthyEnv []) pythonTarget
         (initial [(pythonTarget, "  " ++ JS.nl ++ " ")])) = Ok false.
Proof.
  apply (blank_file_has_no_content (healthyEnv []) pythonTarget ("  " ++ JS.nl ++ " "));
    reflexivity.
Defined.

(* ================================================================== *)
(** ** The first script takes the files it has written for content *)

Lemma blank_concat (l : list string) :
  blank (JS.joinEmpty l) = forallb blank l.
Proof.
  unfold JS.joinEmpty. induction l as [|x l IH]; [reflexivity|].
  destruct l as [|y l].
  - simpl. now rewrite andb_true_r.
  - change (String.concat EmptyString (x :: y :: l))
      with (x ++ EmptyString ++ String.concat EmptyString (y :: l)).
    rewrite blank_app. cbn [append]. rewrite IH. reflexivity.
Qed.

Lemma forallb_false_in {A} (f : A -> bool) (l : list A) (x : A) :
  In x l -> f x = false -> forallb f l = false.
Proof.
  intros Hin Hx. destruct (forallb f l) eqn:H; [|reflexivity].
  rewrite forallb_forall in H. rewrite (H x Hin) in Hx. discriminate.
Qed.

Lemma not_space_not_newline (c : ascii) :
  JS.isSpace c = false -> Ascii.eqb c "010"%char = false.
Proof. by_cases_on_ascii c. Qed.

(** The trimmed first line of a text that starts with a character other
    than white space starts with that character, and starts the text. *)
Lemma first_line_trimmed (c : ascii) (r : string) :
  JS.isSpace c = false ->
  exists h t x b,
    JS.splitLines (String c r) = String c h :: t /\
    JS.trim (String c h) = String c x /\
    String c r = String c x ++ b.
Proof.
  intros Hc. cbn [JS.splitLines]. rewrite (not_space_not_newline c Hc).
  destruct (JS.splitLines r) as [|h t] eqn:Hs; [destruct (splitLines_nonempty r Hs)|].
  destruct (first_line_starts r h t Hs) as [b1 Hb1].
  destruct (trimEnd_part h) as [b2 Hb2].
  exists h, t, (JS.trimEnd h), (b2 ++ b1). split; [reflexivity|]. split.
  - unfold JS.trim. cbn [JS.trimStart]. rewrite Hc. cbn [JS.trimEnd].
    destruct (JS.trimEnd h); [now rewrite Hc|reflexivity].
  - simpl. rewrite <- append_assoc, <- Hb2, <- Hb1. reflexivity.
Qed.

Lemma keepsLine_first_line (text : string) :
  text <> EmptyString ->
  startsWithSpace text = false ->
  JS.startsWith "/*" text = false ->
  JS.startsWith "*/" text = false ->
  JS.startsWith "//" text = false ->
  exists l, In l (JS.splitLines text) /\ V1.keepsLine l = true /\ blank l = false.
Proof.
  intros Hne Hsp H1 H2 H3. destruct text as [|c r]; [contradiction|].
  simpl in Hsp. destruct (first_line_trimmed c r Hsp) as (h & t & x & b & Hs & Ht & Hb).
  exists (String c h). split; [rewrite Hs; now left|]. split.
  - unfold V1.keepsLine. rewrite Ht.
    assert (Hpre : forall p, JS.startsWith p (String c r) = false ->
                             JS.startsWith p (String c x) = false).
    { intros p Hp. destruct (JS.startsWith p (String c x)) eqn:Hx; [|reflexivity].
      rewrite Hb, (startsWith_app _ _ b Hx) in Hp. discriminate. }
    rewrite (Hpre _ H1), (Hpre _ H2), (Hpre _ H3). reflexivity.
  - unfold blank. simpl. now rewrite Hsp.
Qed.

(** X6.  The first script's classifier finds content in every file the
    script itself has written, placeholders included, as soon as the
    statement's plain text is not empty and does not begin with slash-star,
    star-slash or two slashes: the filter of [hasContent] drops lines by
    their first two characters only, so the first line of the statement
    inside the comment block is kept.  Such a target is skipped by every
    later run of the loop. *)
Theorem V1_generated_file_counts_as_content
        (E : Env) (language problemContent code p : string) (st : St) :
  V2.htmlToText problemContent <> EmptyString ->
  JS.startsWith "/*" (V2.htmlToText problemContent) = false ->
  JS.startsWith "*/" (V2.htmlToText problemContent) = false ->
  JS.startsWith "//" (V2.htmlToText problemContent) = false ->
  lookup p (fs st) = Some (V1.formatProblemFile language problemContent code) ->
  readFails E (trace st) p = false ->
  fst (V1.hasContent E p st) = Ok true.
Proof.
  intros Hne H1 H2 H3 Hp Hrd.
  destruct (keepsLine_first_line _ Hne (proj1 (trim_edges _)) H1 H2 H3)
    as (l & Hl & Hk & Hb).
  unfold V1.hasContent, V1.nonCommentContent, readFile, tryCatch, bind, emit, ret.
  rewrite Hp, Hrd. cbn [fst snd]. f_equal.
  rewrite formatProblemFile_same. unfold V2.formatProblemFile.
  destruct (match lookup language COMMENT_STYLES with
            | Some q => q
            | None => ("/*", "*/")
            end) as [start stop].
  rewrite !append_assoc.
  change (start ++ JS.nl ++ V2.htmlToText problemContent ++ JS.nl ++ stop ++ JS.nl ++ JS.nl ++ code)
    with (start ++ JS.nl ++ (V2.htmlToText problemContent ++ JS.nl
                             ++ (stop ++ JS.nl ++ JS.nl ++ code))).
  rewrite !splitLines_app.
  match goal with
  | |- (0 <? String.length (JS.trim ?s)) = true =>
      assert (Hnb : blank s = false)
  end.
  { rewrite blank_concat. apply forallb_false_in with (x := l); [|exact Hb].
    apply filter_In. split; [|exact Hk].
    rewrite !in_app_iff. right. now left. }
  match goal with
  | |- (0 <? String.length (JS.trim ?s)) = true =>
      destruct (JS.trim s) eqn:Ht; [|reflexivity]
  end.
  apply trim_empty_iff in Ht. rewrite Ht in Hnb. discriminate.
Qed.

Lemma V1_generated_file_counts_as_content_witness :
  fst (V1.hasContent (healthyEnv []) "java/easy/1-two-sum.java"
         (initial [("java/easy/1-two-sum.java",
                    V1.formatProblemFile "java" "<p>Add two numbers.</p>" EmptyString)]))
  = Ok true.
Proof.
  apply (V1_generated_file_counts_as_content (healthyEnv []) "java"
           "<p>Add two numbers.</p>" EmptyString "java/easy/1-two-sum.java");
    first [discriminate | reflexivity].
Defined.

(* ================================================================== *)
(** ** The token pattern *)

Lemma startsWith_split (p s : string) :
  JS.startsWith p s = true -> s = p ++ JS.dropN (String.length p) s.
Proof.
  revert s. induction p as [|x p IH]; intros s H; [reflexivity|].
  destruct s as [|y s]; [discriminate|].
  simpl in H. apply andb_true_iff in H as [H1 H2].
  apply Ascii.eqb_eq in H1. subst y. simpl. now rewrite <- IH.
Qed.

Lemma startsWith_self (p s : string) : JS.startsWith p (p ++ s) = true.
Proof. induction p as [|x p IH]; simpl; [reflexivity|]. now rewrite Ascii.eqb_refl. Qed.

Lemma dropN_app (p s : string) : JS.dropN (String.length p) (p ++ s) = s.
Proof. induction p as [|x p IH]; simpl; [reflexivity|exact IH]. Qed.

Lemma takeN_spanLen (q : ascii -> bool) (s : string) :
  allChars q (takeN (JS.spanLen q s) s) = true /\
  s = takeN (JS.spanLen q s) s ++ JS.dropN (JS.spanLen q s) s.
Proof.
  induction s as [|c r [IH1 IH2]]; simpl; [now split|].
  destruct (q c) eqn:Hc; simpl; [|now split].
  rewrite Hc, IH1. split; [reflexivity|]. now rewrite <- IH2.
Qed.

Lemma spanLen_app (q : ascii -> bool) (a : string) (d : ascii) (r : string) :
  allChars q a = true -> q d = false ->
  JS.spanLen q (a ++ String d r) = String.length a.
Proof.
  intros Ha Hd. induction a as [|c a IH]; simpl in *.
  - now rewrite Hd.
  - apply andb_true_iff in Ha as [Hc Ha]. now rewrite Hc, IH.
Qed.

Lemma takeN_app (a b : string) : takeN (String.length a) (a ++ b) = a.
Proof. induction a as [|c a IH]; simpl; [now destruct b|]. now rewrite IH. Qed.

Lemma reCsrfAt_sound (s t : string) :
  reCsrfAt s = Some t ->
  t <> EmptyString /\ allChars notQuote t = true /\
  exists b, s = csrfMarker ++ t ++ "'" ++ b.
Proof.
  unfold reCsrfAt. destruct (JS.startsWith csrfMarker s) eqn:Hm; [|discriminate].
  apply startsWith_split in Hm.
  remember (JS.dropN (String.length csrfMarker) s) as rest eqn:Hrest.
  cbv zeta.
  destruct (takeN_spanLen notQuote rest) as [H1 H2].
  destruct (JS.spanLen notQuote rest) as [|n] eqn:Hn; [discriminate|].
  destruct (JS.dropN (S n) rest) as [|d b] eqn:Hd; [discriminate|].
  destruct (Ascii.eqb_spec d "'"%char) as [->|]; [|discriminate].
  intros H. assert (Ht : takeN (S n) rest = t) by congruence. clear H.
  assert (Hne : t <> EmptyString).
  { rewrite <- Ht. destruct rest; [discriminate Hn|discriminate]. }
  rewrite Ht in H1. rewrite Ht in H2.
  split; [exact Hne|]. split; [exact H1|].
  exists b. rewrite Hm at 1. now rewrite H2 at 1.
Qed.

(** X7.  The token the scripts take from the landing page is never empty,
    holds no apostrophe, and stands in the page between the marker
    [var csrfToken = '] and an apostrophe. *)
Theorem csrfTokenMatch_sound (data t : string) :
  csrfTokenMatch data = Some t ->
  t <> EmptyString /\ allChars notQuote t = true /\
  exists a b, data = a ++ csrfMarker ++ t ++ "'" ++ b.
Proof.
  induction data as [|c r IH]; cbn [csrfTokenMatch].
  - destruct (reCsrfAt EmptyString) eqn:H0; [|discriminate].
    intros H. inversion H; subst.
    destruct (reCsrfAt_sound _ _ H0) as (H1 & H2 & b & Hb).
    split; [exact H1|]. split; [exact H2|]. now exists EmptyString, b.
  - destruct (reCsrfAt (String c r)) eqn:H0.
    + intros H. inversion H; subst.
      destruct (reCsrfAt_sound _ _ H0) as (H1 & H2 & b & Hb).
      split; [exact H1|]. split; [exact H2|]. now exists EmptyString, b.
    + intros H. destruct (IH H) as (H1 & H2 & a & b & Hab).
      split; [exact H1|]. split; [exact H2|].
      exists (String c a), b. rewrite Hab. reflexivity.
Qed.

Lemma csrfTokenMatch_sound_witness :
  exists a b,
    "<script>var csrfToken = 'abc123';</script>" = a ++ csrfMarker ++ "abc123" ++ "'" ++ b.
Proof.
  destruct (csrfTokenMatch_sound "<script>var csrfToken = 'abc123';</script>" "abc123"
              eq_refl) as (_ & _ & H).
  exact H.
Defined.

Lemma reCsrfAt_here (t post : string) :
  t <> EmptyString -> allChars notQuote t = true ->
  reCsrfAt (csrfMarker ++ t ++ "'" ++ post) = Some t.
Proof.
  intros Hne Ht. unfold reCsrfAt.
  rewrite startsWith_self, dropN_app. cbv zeta.
  change (t ++ "'" ++ post) with (t ++ String "'"%char post).
  rewrite (spanLen_app notQuote t "'"%char post Ht eq_refl).
  destruct t as [|c t]; [contradiction|].
  cbn [String.length].
  change (S (String.length t)) with (String.length (String c t)).
  rewrite dropN_app, takeN_app. reflexivity.
Qed.

(** No match of the pattern starts inside a run without apostrophe that
    stands before the marker. *)
Lemma reCsrfAt_before (c : ascii) (pre rest : string) :
  allChars notQuote (String c pre) = true ->
  reCsrfAt (String c pre ++ csrfMarker ++ rest) = None.
Proof.
  intros Hq. unfold reCsrfAt.
  destruct (JS.startsWith csrfMarker (String c pre ++ csrfMarker ++ rest)) eqn:Hm;
    [|reflexivity].
  exfalso. apply startsWith_split in Hm.
  remember (JS.dropN (String.length csrfMarker) (String c pre ++ csrfMarker ++ rest)) as x.
  (* the first apostrophe of the text, counted in two ways *)
  assert (H1 : JS.spanLen notQuote (csrfMarker ++ x) = 16) by reflexivity.
  assert (H2 : JS.spanLen notQuote (String c pre ++ csrfMarker ++ rest)
               = String.length (String c pre) + 16).
  { clear -Hq. induction (String c pre) as [|d s IH]; [reflexivity|].
    simpl in Hq. apply andb_true_iff in Hq as [Hd Hs].
    change (String d s ++ csrfMarker ++ rest) with (String d (s ++ csrfMarker ++ rest)).
    cbn [JS.spanLen String.length]. rewrite Hd, (IH Hs). reflexivity. }
  rewrite Hm in H2 at 1. rewrite H1 in H2. simpl in H2. lia.
Qed.

(** X8.  When no apostrophe stands before the marker, the token is what
    stands between the marker and the next apostrophe, provided that is not
    empty: the pattern finds the token wherever the marker is on the page. *)
Theorem csrfTokenMatch_finds_the_token (pre t post : string) :
  allChars notQuote pre = true ->
  t <> EmptyString ->
  allChars notQuote t = true ->
  csrfTokenMatch (pre ++ csrfMarker ++ t ++ "'" ++ post) = Some t.
Proof.
  intros Hpre Hne Ht. induction pre as [|c pre IH].
  - change (EmptyString ++ csrfMarker ++ t ++ "'" ++ post)
      with (String "v"%char ("ar csrfToken = '" ++ t ++ "'" ++ post)).
    cbn [csrfTokenMatch].
    change (String "v"%char ("ar csrfToken = '" ++ t ++ "'" ++ post))
      with (csrfMarker ++ t ++ "'" ++ post).
    now rewrite reCsrfAt_here.
  - pose proof (reCsrfAt_before c pre (t ++ "'" ++ post) Hpre) as Hno.
    change (String c pre ++ csrfMarker ++ t ++ "'" ++ post)
      with (String c (pre ++ csrfMarker ++ t ++ "'" ++ post)) in *.
    cbn [csrfTokenMatch]. rewrite Hno. apply IH.
    simpl in Hpre. now apply andb_true_iff in Hpre as [_ Hpre].
Qed.

Lemma csrfTokenMatch_finds_the_token_witness :
  csrfTokenMatch ("<script>" ++ csrfMarker ++ "abc123" ++ "'" ++ ";</script>")
  = Some "abc123".
Proof.
  apply (csrfTokenMatch_finds_the_token "<script>" "abc123" ";</script>");
    first [discriminate | reflexivity].
Defined.

(* ================================================================== *)
(** ** What is kept through a computation *)

Section Preserves.
Variable I : St -> Prop.

Lemma preserves_ret {A} (a : A) : preserves I (ret a).
Proof. intros st H. exact H. Qed.

Lemma preserves_throw {A} (msg : string) : preserves I (@throw A msg).
Proof. intros st H. exact H. Qed.

Lemma preserves_bind {A B} (m : M A) (k : A -> M B) :
  preserves I m -> (forall a, preserves I (k a)) -> preserves I (bind m k).
Proof.
  intros Hm Hk st H. unfold bind. specialize (Hm st H).
  destruct (m st) as [[a|e] st1]; simpl in Hm; [now apply Hk|exact Hm].
Qed.

Lemma preserves_tryCatch {A} (m : M A) (h : string -> M A) :
  preserves I m -> (forall e, preserves I (h e)) -> preserves I (tryCatch m h).
Proof.
  intros Hm Hh st H. unfold tryCatch. specialize (Hm st H).
  destruct (m st) as [[a|e] st1]; simpl in Hm; [exact Hm|now apply Hh].
Qed.

Lemma preserves_finally {A} (m : M A) (f : M unit) :
  preserves I m -> preserves I f -> preserves I (finally m f).
Proof.
  intros Hm Hf st H. unfold finally. specialize (Hm st H).
  destruct (m st) as [r st1]; simpl in Hm. specialize (Hf st1 Hm).
  destruct (f st1) as [[u|e] st2]; exact Hf.
Qed.

Lemma preserves_all2 {A B} (m1 : M A) (m2 : M B) :
  preserves I m1 -> preserves I m2 -> preserves I (all2 m1 m2).
Proof.
  intros H1 H2 st H. unfold all2. specialize (H1 st H).
  destruct (m1 st) as [r1 st1]; simpl in H1. specialize (H2 st1 H1).
  destruct (m2 st1) as [r2 st2]; simpl in H2. destruct r1, r2; exact H2.
Qed.

Lemma preserves_foldM {A B} (body : B -> A -> M A) (l : list B) :
  (forall x a, preserves I (body x a)) -> forall a, preserves I (foldM body l a).
Proof.
  intros Hb. induction l as [|x r IH]; intros a; simpl.
  - apply preserves_ret.
  - apply preserves_bind; [apply Hb|apply IH].
Qed.

Lemma preserves_getBrowser : preserves I getBrowser.
Proof. intros st H. exact H. Qed.

End Preserves.

Lemma lookup_other {A} (p q : string) (v : A) (l : list (string * A)) :
  q <> p -> lookup p ((q, v) :: l) = lookup p l.
Proof.
  intros H. simpl. destruct (String.eqb_spec q p); [contradiction|reflexivity].
Qed.

(* ================================================================== *)
(** ** The disk after the materialization *)

Lemma lookup_app_notin {A} (p : string) (ws l : list (string * A)) :
  ~ In p (map fst ws) -> lookup p (ws ++ l) = lookup p l.
Proof.
  induction ws as [|[q v] ws IH]; intros H; [reflexivity|].
  simpl in *. destruct (String.eqb_spec q p) as [->|Hne]; [tauto|].
  apply IH. tauto.
Qed.

Lemma lookup_app_in {A} (p : string) (ws l : list (string * A)) :
  In p (map fst ws) -> exists v, lookup p (ws ++ l) = Some v /\ In (p, v) ws.
Proof.
  induction ws as [|[q v] ws IH]; intros H; [contradiction|].
  simpl in *. destruct (String.eqb_spec q p) as [->|Hne].
  - exists v. split; [reflexivity|now left].
  - destruct H as [H|H]; [contradiction|].
    destruct (IH H) as (v' & H1 & H2). exists v'. split; [exact H1|now right].
Qed.

Lemma record_written (o : Outcome) (p q : string) (r : V2.FileOperationResult) :
  In q (V2.created (record o p r) ++ V2.updated (record o p r))
  <-> In q (V2.created r ++ V2.updated r) \/ (wrote o = true /\ q = p).
Proof.
  destruct o; simpl; rewrite ?in_app_iff; simpl; rewrite ?in_app_iff; simpl;
    intuition (try discriminate; auto).
Qed.

(** The loop of [FileManager.createSolutionFiles]: the files it leaves are
    its own writes on top of the files it found, one write for each path
    it has put in created or updated. *)
Lemma V2_loop_disk (E : Env) (d : ProblemDetails) (l : list (string * string)) :
  let k := V2.toKebabCase (title d) in
  forall result st,
    let out := foldM (V2.processLanguage E d k) l result st in
    exists r ws,
      fst out = Ok r /\
      fs (snd out) = (ws ++ fs st)%list /\
      (forall q, In q (V2.created r ++ V2.updated r)
                 <-> In q (V2.created result ++ V2.updated result) \/ In q (map fst ws)) /\
      (forall q body, In (q, body) ws ->
         exists language extension,
           In (language, extension) l /\ q = V2.filePath language d k /\
           body = fileBody language d).
Proof.
  intros k. induction l as [|[language extension] l IH]; intros result st out.
  - exists result, []. subst out. simpl. repeat split; try tauto; try (intros ? ? []).
  - subst out. cbn [foldM]. unfold bind.
    destruct (V2_turn E d language extension result st)
      as (n1 & _ & o & R1 & _ & S1 & _).
    fold k in R1, S1.
    destruct (V2.processLanguage E d k (language, extension) result st) as [r1 st1].
    cbn [fst snd] in *. subst r1.
    destruct (IH (record o (V2.filePath language d k) result) st1)
      as (r & ws & R2 & S2 & M2 & B2).
    exists r, (ws ++ (if wrote o then [(V2.filePath language d k, fileBody language d)]
                      else []))%list.
    split; [exact R2|]. split.
    { rewrite S2, S1, <- app_assoc. now destruct (wrote o). }
    split.
    { intros q. rewrite M2, record_written, map_app, !in_app_iff.
      destruct (wrote o); simpl; intuition (subst; try discriminate; auto 6). }
    intros q body Hin. apply in_app_iff in Hin as [Hin|Hin].
    + destruct (B2 q body Hin) as (la & ex & H1 & H2 & H3).
      exists la, ex. split; [now right|]. now split.
    + destruct (wrote o); [|contradiction]. destruct Hin as [Hin|[]].
      inversion Hin; subst. exists language, extension. split; [now left|]. now split.
Qed.

Lemma V2_materialization_disk (E : Env) (d : ProblemDetails) (st : St) :
  let out := V2.createSolutionFiles E d st in
  exists res,
    fst out = Ok res /\
    (forall q, ~ In q (V2.created res ++ V2.updated res) ->
               lookup q (fs (snd out)) = lookup q (fs st)) /\
    (forall language extension,
        In (language, extension) LANGUAGE_EXTENSIONS ->
        In (V2.filePath language d (V2.toKebabCase (title d)))
           (V2.created res ++ V2.updated res) ->
        lookup (V2.filePath language d (V2.toKebabCase (title d))) (fs (snd out))
        = Some (fileBody language d)).
Proof.
  unfold V2.createSolutionFiles, bind, log, emit. cbn [fst snd].
  match goal with
  | |- context [foldM _ _ ?r ?s] =>
      destruct (V2_loop_disk E d LANGUAGE_EXTENSIONS r s) as (res & ws & R & S & Mb & B)
  end.
  cbn [fs V2.created V2.updated app] in S, Mb.
  exists res. split; [exact R|]. split.
  - intros q Hq. rewrite S. apply lookup_app_notin.
    intros Hin. apply Hq. apply Mb. now right.
  - intros language extension Hl Hin. rewrite S.
    apply Mb in Hin. destruct Hin as [[]|Hin].
    destruct (lookup_app_in _ ws (fs st) Hin) as (v & Hv & Hw).
    rewrite Hv. f_equal.
    destruct (B _ _ Hw) as (la & ex & H1 & H2 & H3).
    pose proof (targetPath_inj d (language, extension) (la, ex) Hl H1 H2) as Heq.
    inversion Heq; subst. reflexivity.
Qed.

(** X10.  What [FileManager.createSolutionFiles] leaves on disk: every path
    that is not in the lists created and updated it returns, a path outside
    the catalog's targets included, holds what it held before (or still does
    not exist); and every target in created or updated holds the body
    generated for its language: the comment block, then the snippet's code
    or nothing. *)
Theorem V2_disk_after_materialization (E : Env) (d : ProblemDetails) (st : St) :
  let out := V2.createSolutionFiles E d st in
  exists res,
    fst out = Ok res /\
    (forall q, ~ In q (V2.created res ++ V2.updated res) ->
               lookup q (fs (snd out)) = lookup q (fs st)) /\
    (forall language extension,
        In (language, extension) LANGUAGE_EXTENSIONS ->
        In (V2.filePath language d (V2.toKebabCase (title d)))
           (V2.created res ++ V2.updated res) ->
        lookup (V2.filePath language d (V2.toKebabCase (title d))) (fs (snd out))
        = Some (fileBody language d)).
Proof. apply V2_materialization_disk. Qed.


(* ================================================================== *)
(** ** The first script's browser path and the files on disk *)

Lemma V1_fallbackFile_examines_nothing (E : Env) (d : ProblemDetails) (k : string)
      (entry : string * string) (u : unit) :
  emitsOnly notExamining (V1.fallbackFile E d k entry u).
Proof.
  unfold V1.fallbackFile. destruct entry as [language extension].
  unfold mkdir. emits.
Qed.

(** X11.  [createSolutionFiles] of the first script, the one the browser
    path runs, never looks at the disk: it issues no [fs.access] and no
    [fs.readFile], so it cannot tell a target that holds a solution from
    one that does not exist. *)
Theorem V1_browser_path_never_examines_the_disk (E : Env) (slug : string) :
  emitsOnly notExamining (V1.createSolutionFiles E slug).
Proof.
  unfold V1.createSolutionFiles, postQuestion, postEditorData. emits.
  apply V1_fallbackFile_examines_nothing.
Qed.

Section V1Fallback.
Variable E : Env.
Hypothesis mkdir_works : forall tr p, mkdirFails E tr p = false.
Hypothesis write_works : forall tr p, writeFails E tr p = false.

Lemma V1_fallback_turn (d : ProblemDetails) (k language extension : string) (st : St) :
  let out := V1.fallbackFile E d k (language, extension) tt st in
  fst out = Ok tt /\
  fs (snd out)
  = match findSnippet language (codeSnippets d) with
    | Some snippet =>
        (V1.filePath language extension d k,
         V1.formatProblemFile language (content d) (snippetCode snippet)) :: fs st
    | None => fs st
    end.
Proof.
  unfold V1.fallbackFile, mkdir, writeFile. run_calls. rewrite mkdir_works.
  cbn [negb fst snd trace fs]. destruct (findSnippet language (codeSnippets d)).
  - cbn [fst snd trace fs]. rewrite write_works. split; reflexivity.
  - split; reflexivity.
Qed.

Lemma V1_fallback_loop (d : ProblemDetails) (l : list (string * string)) :
  let k := V1.toKebabCase (title d) in
  let path := fun entry : string * string => V1.filePath (fst entry) (snd entry) d k in
  NoDup (map path l) ->
  forall st,
    let out := foldM (V1.fallbackFile E d k) l tt st in
    (forall q, ~ In q (map path l) -> lookup q (fs (snd out)) = lookup q (fs st)) /\
    (forall language extension snippet,
        In (language, extension) l ->
        findSnippet language (codeSnippets d) = Some snippet ->
        lookup (path (language, extension)) (fs (snd out))
        = Some (V1.formatProblemFile language (content d) (snippetCode snippet))).
Proof.
  intros k path. induction l as [|[language extension] l IH]; intros Hnd st out.
  - subst out. simpl. split; [reflexivity|]. intros ? ? ? [].
  - subst out. cbn [foldM]. unfold bind.
    destruct (V1_fallback_turn d k language extension st) as [R1 S1].
    destruct (V1.fallbackFile E d k (language, extension) tt st) as [r1 st1].
    cbn [fst snd] in *. subst r1.
    inversion Hnd as [|? ? Hp Hnd']; subst.
    destruct (IH Hnd' st1) as [F2 C2].
    assert (Hstep : forall q, q <> path (language, extension) ->
                              lookup q (fs st1) = lookup q (fs st)).
    { intros q Hq. rewrite S1. destruct (findSnippet language (codeSnippets d));
        [|reflexivity].
      apply lookup_other. intros Heq. apply Hq. now rewrite <- Heq. }
    split.
    + intros q Hq. simpl in Hq. rewrite F2 by tauto. apply Hstep.
      intros Heq. apply Hq. left. now rewrite Heq.
    + intros la ex snippet [Hin|Hin] Hs.
      * inversion Hin; subst la ex. rewrite F2 by exact Hp.
        rewrite S1, Hs. apply lookup_head.
      * now apply C2.
Qed.

End V1Fallback.

(** X12.  When the three queries of the first script's browser path are
    answered and neither [mkdir] nor [writeFile] fails, every language
    that has a snippet ends with the generated body in its target, whatever
    the disk held there before: a solution the user has written is
    replaced. *)
Theorem V1_browser_path_writes_over_existing_files
        (E : Env) (slug : string) (a b : QuestionResp) (snippets : list CodeSnippet)
        (st : St) (language extension : string) (snippet : CodeSnippet) :
  (forall tr, question E tr (QContent slug) = Some a) ->
  (forall tr, editorData E tr slug = Some snippets) ->
  (forall tr, question E tr (QData slug) = Some b) ->
  (forall tr p, mkdirFails E tr p = false) ->
  (forall tr p, writeFails E tr p = false) ->
  In (language, extension) LANGUAGE_EXTENSIONS ->
  findSnippet language snippets = Some snippet ->
  let d := {| content := q_content a; codeSnippets := snippets;
              difficulty := q_difficulty b; questionId := q_questionId b;
              title := q_title b; titleSlug := slug |} in
  lookup (V1.filePath language extension d (V1.toKebabCase (title d)))
         (fs (snd (V1.createSolutionFiles E slug st)))
  = Some (V1.formatProblemFile language (q_content a) (snippetCode snippet)).
Proof.
  intros Ha Hs Hb Hmk Hwr Hin Hfind d.
  unfold V1.createSolutionFiles, postQuestion, postEditorData. run_calls.
  rewrite Ha. cbn [fst snd trace fs]. rewrite Hs. cbn [fst snd trace fs].
  rewrite Hb. cbn [fst snd trace fs].
  fold d.
  match goal with
  | |- context [foldM _ _ tt ?s] =>
      destruct (V1_fallback_loop E Hmk Hwr d LANGUAGE_EXTENSIONS
                  ltac:(fold (targetPathsV1 d); rewrite targetPathsV1_same;
                        apply targetPaths_NoDup) s) as [_ C];
      pose proof (C language extension snippet Hin Hfind) as C';
      destruct (foldM (V1.fallbackFile E d (V1.toKebabCase (title d)))
                      LANGUAGE_EXTENSIONS tt s) as [[u|e] st']
  end; exact C'.
Qed.

Lemma V1_browser_path_writes_over_existing_files_witness :
  lookup pythonTarget (initial [(pythonTarget, "x = 1")]).(fs) = Some "x = 1" /\
  lookup pythonTarget
    (fs (snd (V1.createSolutionFiles (healthyEnv [pythonSnippet]) "trapping-rain-water"
                (initial [(pythonTarget, "x = 1")]))))
  = Some (V1.formatProblemFile "python" (q_content rainWaterAnswer)
            (snippetCode pythonSnippet)).
Proof.
  split; [reflexivity|].
  assert (Hp : V1.filePath "python" "py"
                 {| content := q_content rainWaterAnswer; codeSnippets := [pythonSnippet];
                    difficulty := q_difficulty rainWaterAnswer;
                    questionId := q_questionId rainWaterAnswer;
                    title := q_title rainWaterAnswer;
                    titleSlug := "trapping-rain-water" |}
                 (V1.toKebabCase (q_title rainWaterAnswer))
               = pythonTarget) by (vm_compute; reflexivity).
  pose proof (V1_browser_path_writes_over_existing_files
                (healthyEnv [pythonSnippet]) "trapping-rain-water"
                rainWaterAnswer rainWaterAnswer [pythonSnippet]
                (initial [(pythonTarget, "x = 1")]) "python" "py" pythonSnippet
                (fun _ => eq_refl) (fun _ => eq_refl) (fun _ => eq_refl)
                (fun _ _ => eq_refl) (fun _ _ => eq_refl)
                ltac:(simpl; tauto) eq_refl) as H.
  cbv zeta in H. cbn [title] in H. rewrite Hp in H. exact H.
Defined.

(* ================================================================== *)
(** ** When the browser is launched *)

Lemma V2_acquire_launch (E : Env) (st : St) :
  browser st = false ->
  exists new,
    trace (snd (V2.acquire E st)) = (new ++ trace st)%list /\
    count isLaunch new <= 1 /\
    (0 < count isLaunch new -> apiAcquisitionFailed new).
Proof.
  destruct st as [files tr tok br]. simpl. intros ->.
  unfold V2.acquire, V2.getDailyChallengeViaAPI, V2.initializeClient,
    V2.getDailyChallengeViaPuppeteer, V2.initializeScraper, V2.getDailyChallenge,
    V2.getProblemDetails, V2.cleanup, getHomeToken, postOfToday, launch, newPage,
    pageDo, pageEvaluate, pageClose, browserClose, postQuestion, postEditorData.
  run_calls.
  by_calls; give_new;
    (split; [unfold count; simpl; lia|]);
    first [ intros _; left; simpl; tauto
          | intros _; right; simpl; tauto
          | unfold count; simpl; lia ].
Qed.

(** Finds a failed acquisition in a trace that holds the part [K] speaks of. *)
Ltac failed_within K :=
  unfold apiAcquisitionFailed in *; destruct K as [K|K]; [left|right];
  simpl; rewrite ?in_app_iff; simpl; rewrite ?in_app_iff; tauto.

Lemma V2_main_launch (E : Env) (files : list (string * string)) :
  let tr := trace (snd (V2.main E (initial files))) in
  count isLaunch tr <= 1 /\ (0 < count isLaunch tr -> apiAcquisitionFailed tr).
Proof.
  unfold V2.main, V2.run, initial. run_calls.
  match goal with
  | |- context [V2.acquire E ?s] =>
      destruct (V2_acquire_launch E s eq_refl) as (n1 & E1 & C1 & C2);
      destruct (V2.acquire E s) as [[dc|e] st2]
  end; cbn [fst snd trace] in *.
  - destruct (V2_afterIdentity_emits E dc st2) as (n2 & E2 & F2).
    destruct (notAcquisition_counts _ F2) as (L2 & _).
    destruct (V2.afterIdentity E dc st2) as [[u|e] st3];
      cbn [fst snd trace] in *; rewrite E2, E1;
      repeat rewrite ?count_cons, ?count_app, ?count_nil;
      cbn [isLaunch]; rewrite L2;
      (split; [lia|]); intros H;
      assert (K : apiAcquisitionFailed n1) by (apply C2; lia);
      failed_within K.
  - rewrite E1. repeat rewrite ?count_cons, ?count_app, ?count_nil.
    cbn [isLaunch]. split; [lia|]. intros H.
    assert (K : apiAcquisitionFailed n1) by (apply C2; lia).
    failed_within K.
Qed.

Lemma V1_run_launch (E : Env) (files : list (string * string)) :
  count isLaunch (trace (snd (V1.run E (initial files)))) <= 1.
Proof.
  unfold V1.run, V1.getDailyLeetcodeChallenge, V1.apiPath, getHomeToken,
    postOfToday, initial.
  run_calls.
  destruct (homeToken E _) as [tok|]; cbn [fst snd trace fs browser csrfToken].
  - destruct (ofToday E _) as [q|]; cbn [fst snd trace fs browser csrfToken].
    + match goal with
      | |- context [V1.scaffold E q ?s] =>
          destruct (V1_scaffold_emits E q s) as (n & En & Fn);
          destruct (notAcquisition_counts _ Fn) as (Ln & _);
          destruct (V1.scaffold E q s) as [[u|err] st1]
      end; cbn [fst snd trace fs browser csrfToken] in *.
      * rewrite En. count_it.
      * match goal with
        | |- context [V1.browserPath E err ?s] =>
            destruct (V1_browserPath_trace E err s) as (nb & Eb & Lb & _);
            destruct (V1.browserPath E err s) as [[u|err2] st2]
        end; cbn [fst snd trace fs browser csrfToken] in *;
          rewrite Eb, En; count_it.
    + match goal with
      | |- context [V1.browserPath E ?e ?s] =>
          destruct (V1_browserPath_trace E e s) as (nb & Eb & Lb & _);
          destruct (V1.browserPath E e s) as [[u|err2] st2]
      end; cbn [fst snd trace fs browser csrfToken] in *; rewrite Eb; count_it.
  - match goal with
    | |- context [V1.browserPath E ?e ?s] =>
        destruct (V1_browserPath_trace E e s) as (nb & Eb & Lb & _);
        destruct (V1.browserPath E e s) as [[u|err2] st2]
    end; cbn [fst snd trace fs browser csrfToken] in *; rewrite Eb; count_it.
Qed.

(** X13.  Every run of either script launches the browser at most once, and
    the second script launches it only in a run in which the API
    acquisition of the identity has failed: no token from the landing page,
    or no answer to the query for today's challenge. *)
Theorem browser_launched_at_most_once (E : Env) (files : list (string * string)) :
  count isLaunch (trace (snd (V1.run E (initial files)))) <= 1 /\
  count isLaunch (trace (snd (V2.main E (initial files)))) <= 1 /\
  (0 < count isLaunch (trace (snd (V2.main E (initial files)))) ->
   apiAcquisitionFailed (trace (snd (V2.main E (initial files))))).
Proof.
  split; [apply V1_run_launch|apply V2_main_launch].
Qed.

Lemma browser_launched_at_most_once_witness :
  apiAcquisitionFailed (trace (snd (V2.main offlineEnv (initial [])))).
Proof.
  assert (H : 0 < count isLaunch (trace (snd (V2.main offlineEnv (initial [])))))
    by (vm_compute; lia).
  exact (proj2 (proj2 (browser_launched_at_most_once offlineEnv [])) H).
Defined.

(* ================================================================== *)
(** ** Closing the page and the browser *)

Lemma V2_acquire_browser (E : Env) (st : St) :
  browser st = false ->
  exists new,
    trace (snd (V2.acquire E st)) = (new ++ trace st)%list /\
    count isPageClose new = count isPageOpened new /\
    (closeFailed new -> exists e, fst (V2.acquire E st) = Throw e).
Proof.
  destruct st as [files tr tok br]. simpl. intros ->.
  unfold V2.acquire, V2.getDailyChallengeViaAPI, V2.initializeClient,
    V2.getDailyChallengeViaPuppeteer, V2.initializeScraper, V2.getDailyChallenge,
    V2.getProblemDetails, V2.cleanup, getHomeToken, postOfToday, launch, newPage,
    pageDo, pageEvaluate, pageClose, browserClose, postQuestion, postEditorData.
  run_calls.
  match goal with
  | |- exists new, trace (snd ?x) = _ /\ _ /\ (_ -> exists e, fst ?y = _) =>
      change y with x
  end.
  by_calls; give_new; (split; [reflexivity|]);
    first [ intros _; eexists; reflexivity
          | intros [H|H]; no_such_event H ].
Qed.

Lemma notAcquisition_closing (l : list Event) :
  forallb notAcquisition l = true ->
  count isPageClose l = 0 /\ count isPageOpened l = 0 /\ ~ closeFailed l.
Proof.
  intros H. split; [|split].
  - apply (count_none _ notAcquisition); auto. intros [] He; try reflexivity; discriminate.
  - apply (count_none _ notAcquisition); auto. intros [] He; try reflexivity; discriminate.
  - intros [Hin|Hin]; revert Hin; apply forallb_not_in with (q := notAcquisition); auto.
Qed.

Ltac close_failed_within K :=
  unfold closeFailed in *; destruct K as [K|K]; [left|right];
  simpl; rewrite ?in_app_iff; simpl; rewrite ?in_app_iff; tauto.

(** Picks the failed close out of a trace whose other parts cannot hold it. *)
Ltac close_failed_in H n :=
  let K := fresh "K" in
  assert (K : closeFailed n);
  [ destruct H as [H|H]; [left|right];
    repeat (progress (simpl in H; rewrite ?in_app_iff in H));
    repeat (destruct H as [H|H]); try discriminate; try assumption;
    try contradiction; exfalso;
    (refine (forallb_not_in notAcquisition _ _ _ _ H); [eassumption|reflexivity])
  | clear H ].

Lemma V2_main_browser (E : Env) (files : list (string * string)) :
  let out := V2.main E (initial files) in
  let tr := trace (snd out) in
  count isPageClose tr = count isPageOpened tr /\
  (closeFailed tr -> fst out = Ok 1).
Proof.
  unfold V2.main, V2.run, initial. run_calls.
  match goal with
  | |- context [V2.acquire E ?s] =>
      destruct (V2_acquire_browser E s eq_refl) as (n1 & E1 & C1 & C2);
      destruct (V2.acquire E s) as [[dc|e] st2]
  end; cbn [fst snd trace] in *.
  - destruct (V2_afterIdentity_emits E dc st2) as (n2 & E2 & F2).
    destruct (notAcquisition_closing _ F2) as (P2 & O2 & K2).
    destruct (V2.afterIdentity E dc st2) as [[u|e] st3];
      cbn [fst snd trace] in *; rewrite E2, E1;
      repeat rewrite ?count_cons, ?count_app, ?count_nil;
      cbn [isPageClose isPageOpened]; rewrite P2, O2;
      (split; [lia|]); intros H; try reflexivity;
      exfalso; close_failed_in H n1; destruct (C2 K) as [e' He']; discriminate.
  - rewrite E1. repeat rewrite ?count_cons, ?count_app, ?count_nil.
    cbn [isPageClose isPageOpened]. split; [lia|]. reflexivity.
Qed.

Lemma V1_puppeteer_close (E : Env) (st : St) :
  exists new,
    trace (snd (V1.getDailyLeetcodeChallengeWithPuppeteer E st))
    = (new ++ trace st)%list /\
    (closeFailed new ->
     exists e, fst (V1.getDailyLeetcodeChallengeWithPuppeteer E st) = Throw e).
Proof.
  destruct st as [files tr tok br].
  unfold V1.getDailyLeetcodeChallengeWithPuppeteer, launch, newPage, pageDo,
    pageEvaluate, browserClose.
  run_calls.
  match goal with
  | |- exists new, trace (snd ?x) = _ /\ (_ -> exists e, fst ?y = _) =>
      change y with x
  end.
  by_calls; give_new;
    first [ intros _; eexists; reflexivity
          | intros [H|H]; no_such_event H ].
Qed.

Lemma V1_browserPath_close (E : Env) (e : string) (st : St) :
  exists new,
    trace (snd (V1.browserPath E e st)) = (new ++ trace st)%list /\
    (closeFailed new -> exists e', fst (V1.browserPath E e st) = Throw e').
Proof.
  destruct st as [files tr tok br].
  unfold V1.browserPath. run_calls.
  match goal with
  | |- context [V1.getDailyLeetcodeChallengeWithPuppeteer E ?s] =>
      destruct (V1_puppeteer_close E s) as (n1 & E1 & C1);
      destruct (V1.getDailyLeetcodeChallengeWithPuppeteer E s) as [[slug|err] st2]
  end; cbn [fst snd trace fs browser csrfToken] in *.
  - match goal with
    | |- context [V1.createSolutionFiles E slug ?s] =>
        destruct (V1_createSolutionFiles_emits E slug s) as (n2 & E2 & F2);
        destruct (V1.createSolutionFiles E slug s) as [[u|err] st3]
    end; cbn [fst snd trace fs browser csrfToken] in *; rewrite E2, E1.
    + exists (EvLog LLog "Successfully created solution files for daily challenge!"
              :: n2 ++ EvLog LLog "Daily Challenge (Puppeteer):" :: n1
              ++ [EvLog LLog "Launching Puppeteer in headless mode with sandbox disabled...";
                  EvLog LLog "Attempting with Puppeteer...";
                  EvLog LErr ("Direct API call failed: " ++ e)])%list.
      split; [trace_eq|]. intros H. exfalso. close_failed_in H n1.
      destruct (C1 K) as [e' He']. discriminate.
    + exists (EvLog LErr "Puppeteer error:"
              :: n2 ++ EvLog LLog "Daily Challenge (Puppeteer):" :: n1
              ++ [EvLog LLog "Launching Puppeteer in headless mode with sandbox disabled...";
                  EvLog LLog "Attempting with Puppeteer...";
                  EvLog LErr ("Direct API call failed: " ++ e)])%list.
      split; [trace_eq|]. intros _. eexists; reflexivity.
  - rewrite E1.
    exists (EvLog LErr "Puppeteer error:" :: n1
            ++ [EvLog LLog "Launching Puppeteer in headless mode with sandbox disabled...";
                EvLog LLog "Attempting with Puppeteer...";
                EvLog LErr ("Direct API call failed: " ++ e)])%list.
    split; [trace_eq|]. intros _. eexists; reflexivity.
Qed.

Lemma V1_run_close (E : Env) (files : list (string * string)) :
  let out := V1.run E (initial files) in
  closeFailed (trace (snd out)) -> fst out = Ok 1.
Proof.
  unfold V1.run, V1.getDailyLeetcodeChallenge, V1.apiPath, getHomeToken,
    postOfToday, initial.
  run_calls.
  destruct (homeToken E _) as [tok|]; cbn [fst snd trace fs browser csrfToken].
  - destruct (ofToday E _) as [q|]; cbn [fst snd trace fs browser csrfToken].
    + match goal with
      | |- context [V1.scaffold E q ?s] =>
          destruct (V1_scaffold_emits E q s) as (n & En & Fn);
          destruct (V1.scaffold E q s) as [[u|err] st1]
      end; cbn [fst snd trace fs browser csrfToken] in *.
      * rewrite En. intros H. exfalso.
        destruct H as [H|H];
          repeat (progress (simpl in H; rewrite ?in_app_iff in H));
          repeat (destruct H as [H|H]); try discriminate; try contradiction;
          (refine (forallb_not_in notAcquisition _ _ _ _ H); [eassumption|reflexivity]).
      * match goal with
        | |- context [V1.browserPath E err ?s] =>
            destruct (V1_browserPath_close E err s) as (nb & Eb & Cb);
            destruct (V1.browserPath E err s) as [[u|err2] st2]
        end; cbn [fst snd trace fs browser csrfToken] in *;
          rewrite Eb, En; intros H; try reflexivity.
        exfalso. close_failed_in H nb. destruct (Cb K) as [e' He']. discriminate.
    + match goal with
      | |- context [V1.browserPath E ?e ?s] =>
          destruct (V1_browserPath_close E e s) as (nb & Eb & Cb);
          destruct (V1.browserPath E e s) as [[u|err2] st2]
      end; cbn [fst snd trace fs browser csrfToken] in *; rewrite Eb;
        intros H; try reflexivity.
      exfalso. close_failed_in H nb. destruct (Cb K) as [e' He']. discriminate.
  - match goal with
    | |- context [V1.browserPath E ?e ?s] =>
        destruct (V1_browserPath_close E e s) as (nb & Eb & Cb);
        destruct (V1.browserPath E e s) as [[u|err2] st2]
    end; cbn [fst snd trace fs browser csrfToken] in *; rewrite Eb;
      intros H; try reflexivity.
    exfalso. close_failed_in H nb. destruct (Cb K) as [e' He']. discriminate.
Qed.

(** X14.  A run in which closing the page or the browser fails ends with
    exit status 1, in both scripts: the close is made in a [finally], and
    when it throws, its exception replaces the slug the fallback had
    extracted. *)
Theorem failed_close_is_fatal (E : Env) (files : list (string * string)) :
  (closeFailed (trace (snd (V2.main E (initial files)))) ->
   fst (V2.main E (initial files)) = Ok 1) /\
  (closeFailed (trace (snd (V1.run E (initial files)))) ->
   fst (V1.run E (initial files)) = Ok 1).
Proof.
  split; [apply V2_main_browser|apply V1_run_close].
Qed.

Lemma failed_close_is_fatal_witness :
  In (EvEvaluate true) (trace (snd (V2.main stuckPageEnv (initial [])))) /\
  fst (V2.main stuckPageEnv (initial [])) = Ok 1.
Proof.
  split; [vm_compute; tauto|].
  assert (H : closeFailed (trace (snd (V2.main stuckPageEnv (initial [])))))
    by (left; vm_compute; tauto).
  exact (proj1 (failed_close_is_fatal stuckPageEnv []) H).
Defined.

(** X15.  In every run of the second script each page that has been opened
    is closed: the trace holds as many calls of [page.close] as pages
    opened, whatever fails in between. *)
Theorem V2_every_page_is_closed (E : Env) (files : list (string * string)) :
  count isPageClose (trace (snd (V2.main E (initial files))))
  = count isPageOpened (trace (snd (V2.main E (initial files)))).
Proof. apply V2_main_browser. Qed.

(* ================================================================== *)
(** ** Computations that always return *)

Lemma neverThrows_ret {A} (a : A) : neverThrows (ret a).
Proof. intros st. now exists a. Qed.

Lemma neverThrows_log (l : Level) (msg : string) : neverThrows (log l msg).
Proof. intros st. now exists tt. Qed.

Lemma neverThrows_bind {A B} (m : M A) (k : A -> M B) :
  neverThrows m -> (forall a, neverThrows (k a)) -> neverThrows (bind m k).
Proof.
  intros Hm Hk st. unfold bind. destruct (Hm st) as [a Ha].
  destruct (m st) as [r st1]. simpl in Ha. subst r. apply Hk.
Qed.

Lemma neverThrows_tryCatch {A} (m : M A) (h : string -> M A) :
  (forall e, neverThrows (h e)) -> neverThrows (tryCatch m h).
Proof.
  intros Hh st. unfold tryCatch. destruct (m st) as [[a|e] st1].
  - now exists a.
  - apply Hh.
Qed.

Lemma neverThrows_foldM {A B} (body : B -> A -> M A) (l : list B) :
  (forall x a, neverThrows (body x a)) -> forall a, neverThrows (foldM body l a).
Proof.
  intros Hb. induction l as [|x r IH]; intros a; simpl.
  - apply neverThrows_ret.
  - apply neverThrows_bind; [apply Hb|apply IH].
Qed.

Lemma V2_logResults_returns (result : V2.FileOperationResult) :
  neverThrows (V2.logResults result).
Proof.
  assert (Hg : forall h l, neverThrows (V2.logGroup h l)).
  { intros h l. unfold V2.logGroup. destruct l; [apply neverThrows_ret|].
    apply neverThrows_bind; [apply neverThrows_log|intros _].
    apply neverThrows_foldM. intros; apply neverThrows_log. }
  unfold V2.logResults.
  repeat (apply neverThrows_bind; [apply Hg|intros _]).
  apply neverThrows_log.
Qed.

Lemma V2_createSolutionFiles_returns (E : Env) (d : ProblemDetails) :
  neverThrows (V2.createSolutionFiles E d).
Proof.
  intros st. destruct (V2_materialize E d st) as (new & os & _ & _ & R & _).
  now exists (tallyOf os).
Qed.

Lemma V2_acquire_before (E : Env) : emitsOnly beforeMaterialization (V2.acquire E).
Proof.
  unfold V2.acquire, V2.getDailyChallengeViaAPI, V2.initializeClient,
    V2.getDailyChallengeViaPuppeteer, V2.initializeScraper, V2.getDailyChallenge,
    V2.getProblemDetails, V2.cleanup, getHomeToken, postOfToday, launch, newPage,
    pageDo, pageEvaluate, pageClose, browserClose, postQuestion, postEditorData.
  emits.
Qed.

Lemma V2_getProblemDetails_before (E : Env) (slug : string) :
  emitsOnly beforeMaterialization (V2.getProblemDetails E slug).
Proof. unfold V2.getProblemDetails, postQuestion, postEditorData. emits. Qed.

(** Drops the parts of a trace that cannot hold the event [H] speaks of. *)
Ltac not_before H He :=
  exfalso;
  repeat (progress (simpl in H; rewrite ?in_app_iff in H));
  repeat (destruct H as [H|H]); try contradiction;
  first [ rewrite <- H in He; vm_compute in He; discriminate He
        | refine (forallb_not_in beforeMaterialization _ _ _ _ H);
          [eassumption|exact He] ].

Lemma V2_main_after_start (E : Env) (files : list (string * string)) (e : Event) :
  beforeMaterialization e = false ->
  In e (trace (snd (V2.main E (initial files)))) ->
  fst (V2.main E (initial files)) = Ok 0.
Proof.
  intros He. unfold V2.main, V2.run, initial. run_calls.
  match goal with
  | |- context [V2.acquire E ?s] =>
      destruct (V2_acquire_before E s) as (n1 & E1 & F1);
      destruct (V2.acquire E s) as [[dc|err] st2]
  end; cbn [fst snd trace] in *.
  - unfold V2.afterIdentity. run_calls.
    match goal with
    | |- context [V2.getProblemDetails E ?slug ?s] =>
        destruct (V2_getProblemDetails_before E slug s) as (n2 & E2 & F2);
        destruct (V2.getProblemDetails E slug s) as [[pd|err] st3]
    end; cbn [fst snd trace] in *.
    + match goal with
      | |- context [V2.createSolutionFiles E pd ?s] =>
          destruct (V2_createSolutionFiles_returns E pd s) as [res Hres];
          destruct (V2.createSolutionFiles E pd s) as [r st4]
      end.
      cbn [fst snd] in *. subst r.
      match goal with
      | |- context [V2.logResults res ?s] =>
          destruct (V2_logResults_returns res s) as [u Hu];
          destruct (V2.logResults res s) as [r st5]
      end.
      cbn [fst snd] in *. subst r.
      unfold V2.execute, spawnProblems. run_calls.
      destruct (spawnOk E (trace st5)); intros _; reflexivity.
    + rewrite E2, E1. intros H. not_before H He.
  - rewrite E1. intros H. not_before H He.
Qed.

(** X16.  In the second script a run in which the external command has
    ended, successfully or not, ends with exit status 0: the failure of the
    command is not fatal, and neither is a failure of [mkdir], of
    [writeFile] or of reading a target before it.  ([EvSpawn] records the
    end of the command; a command that never ends leaves the run waiting.) *)
Theorem V2_run_succeeds_once_the_command_has_ended
        (E : Env) (files : list (string * string)) (slug : string) (ok : bool) :
  In (EvSpawn slug ok) (trace (snd (V2.main E (initial files)))) ->
  fst (V2.main E (initial files)) = Ok 0.
Proof.
  intros H.
  apply (V2_main_after_start E files (EvSpawn slug ok)); [reflexivity|exact H].
Qed.

Lemma V2_run_succeeds_once_the_command_has_ended_witness :
  In (EvLog LErr ("Failed to create " ++ pythonTarget))
     (trace (snd (V2.main commandFailsEnv (initial [])))) /\
  fst (V2.main commandFailsEnv (initial [])) = Ok 0.
Proof.
  split; [vm_compute; tauto|].
  assert (H : In (EvSpawn "trapping-rain-water" false)
                 (trace (snd (V2.main commandFailsEnv (initial [])))))
    by (vm_compute; tauto).
  exact (V2_run_succeeds_once_the_command_has_ended commandFailsEnv []
           "trapping-rain-water" false H).
Defined.

(* ================================================================== *)
(** ** Every language is accounted for *)

Lemma V2_turn_counts (E : Env) (d : ProblemDetails) (language extension : string)
      (result : V2.FileOperationResult) (st : St) :
  let k := V2.toKebabCase (title d) in
  let out := V2.processLanguage E d k (language, extension) result st in
  exists new,
    trace (snd out) = (new ++ trace st)%list /\
    count isAccess new = 1 /\
    exists r,
      fst out = Ok r /\
      totalProcessed r + count isFailureLog new = totalProcessed result + 1.
Proof.
  intros k. destruct st as [files tr tok br].
  unfold V2.processLanguage, V2.hasNonCommentContent, access, readFile, mkdir,
    writeFile.
  generalize (V2.filePath language d k). intros p.
  run_calls. by_calls; give_new; (split; [reflexivity|]);
    eexists; (split; [reflexivity|]);
    unfold totalProcessed; cbn [V2.created V2.updated V2.skipped];
    rewrite ?length_app; cbn [List.length count]; unfold count; simpl; lia.
Qed.

Lemma V2_loop_counts (E : Env) (d : ProblemDetails) (l : list (string * string)) :
  let k := V2.toKebabCase (title d) in
  forall result st,
    let out := foldM (V2.processLanguage E d k) l result st in
    exists new r,
      trace (snd out) = (new ++ trace st)%list /\
      fst out = Ok r /\
      count isAccess new = List.length l /\
      totalProcessed r + count isFailureLog new = totalProcessed result + List.length l.
Proof.
  intros k. induction l as [|[language extension] l IH]; intros result st out.
  - exists [], result. subst out. simpl. repeat split; try reflexivity;
      unfold count; simpl; lia.
  - subst out. cbn [foldM]. unfold bind.
    destruct (V2_turn_counts E d language extension result st)
      as (n1 & E1 & A1 & r1 & R1 & T1).
    fold k in E1, R1.
    destruct (V2.processLanguage E d k (language, extension) result st) as [x st1].
    cbn [fst snd] in *. subst x.
    destruct (IH r1 st1) as (n2 & r & E2 & R2 & A2 & T2).
    exists (n2 ++ n1)%list, r.
    split; [rewrite E2, E1; now rewrite app_assoc|].
    split; [exact R2|].
    rewrite !count_app. cbn [List.length]. split; lia.
Qed.

(** X17.  Every run of [FileManager.createSolutionFiles] looks at each of
    the fourteen targets once, and each language ends in one of the lists
    created, updated and skipped or with a logged failure: the total that
    [logResults] prints and the number of failure messages add up to
    fourteen. *)
Theorem V2_every_language_is_accounted_for (E : Env) (d : ProblemDetails) (st : St) :
  let out := V2.createSolutionFiles E d st in
  exists new res,
    trace (snd out) = (new ++ trace st)%list /\
    fst out = Ok res /\
    count isAccess new = 14 /\
    totalProcessed res + count isFailureLog new = 14.
Proof.
  unfold V2.createSolutionFiles, bind, log, emit. cbn [fst snd].
  match goal with
  | |- context [foldM _ _ ?r ?s] =>
      destruct (V2_loop_counts E d LANGUAGE_EXTENSIONS r s) as (n & res & E1 & R1 & A1 & T1)
  end.
  exists (n ++ [EvLog LInfo ("Creating solution files for: " ++ title d)])%list, res.
  split; [rewrite E1; simpl; now rewrite <- app_assoc|].
  split; [exact R1|].
  rewrite !count_app. split.
  - rewrite A1. reflexivity.
  - change (count isFailureLog [EvLog LInfo ("Creating solution files for: " ++ title d)])
      with 0.
    rewrite Nat.add_0_r. exact T1.
Qed.

(* ================================================================== *)
(** ** Without the problem statement nothing is written *)

(** Case analysis on the calls, with the answers [H] gives put in first. *)
Ltac by_calls_given H :=
  repeat first
    [ rewrite H; cbn [fst snd trace fs browser csrfToken negb]
    | lazymatch goal with
      | |- exists new, ?lhs = _ /\ _ =>
          let x := deciding_call lhs in
          first [ is_var x; destruct x
                | is_call x; destruct x eqn:? ];
          cbn [fst snd trace fs browser csrfToken negb]
      end ].

Lemma V2_main_without_statement (E : Env) (files : list (string * string)) :
  (forall tr slug, question E tr (QContent slug) = None) ->
  exists new,
    trace (snd (V2.main E (initial files))) = (new ++ [])%list /\
    fst (V2.main E (initial files)) = Ok 1 /\
    forallb leavesDisk new = true /\
    fs (snd (V2.main E (initial files))) = files.
Proof.
  intros H.
  unfold V2.main, V2.run, V2.acquire, V2.afterIdentity, V2.getDailyChallengeViaAPI,
    V2.initializeClient, V2.getDailyChallengeViaPuppeteer, V2.initializeScraper,
    V2.getDailyChallenge, V2.getProblemDetails, V2.cleanup, getHomeToken, postOfToday,
    launch, newPage, pageDo, pageEvaluate, pageClose, browserClose, postQuestion,
    postEditorData, initial.
  run_calls.
  match goal with
  | |- exists new, trace (snd ?x) = _ /\ fst ?y = _ /\ _ /\ fs (snd ?z) = _ =>
      change y with x; change z with x
  end.
  by_calls_given H; give_new; repeat split; reflexivity.
Qed.

Lemma V1_run_without_statement (E : Env) (files : list (string * string)) :
  (forall tr slug, question E tr (QContent slug) = None) ->
  exists new,
    trace (snd (V1.run E (initial files))) = (new ++ [])%list /\
    fst (V1.run E (initial files)) = Ok 1 /\
    forallb leavesDisk new = true /\
    fs (snd (V1.run E (initial files))) = files.
Proof.
  intros H.
  unfold V1.run, V1.getDailyLeetcodeChallenge, V1.apiPath, V1.scaffold, V1.browserPath,
    V1.getDailyLeetcodeChallengeWithPuppeteer, V1.createSolutionFiles, getHomeToken,
    postOfToday, launch, newPage, pageDo, pageEvaluate, browserClose, postQuestion,
    postEditorData, initial.
  run_calls.
  match goal with
  | |- exists new, trace (snd ?x) = _ /\ fst ?y = _ /\ _ /\ fs (snd ?z) = _ =>
      change y with x; change z with x
  end.
  by_calls_given H; give_new; repeat split; reflexivity.
Qed.

(** X18.  When the query for the problem statement is never answered, a
    run of either script ends with exit status 1 and leaves the disk as it
    was: no directory is made and no file is written.  The browser cannot
    make up for it, since the browser path of both scripts gets the
    statement by the same query. *)
Theorem no_statement_no_files (E : Env) (files : list (string * string)) :
  (forall tr slug, question E tr (QContent slug) = None) ->
  (fst (V2.main E (initial files)) = Ok 1 /\
   forallb leavesDisk (trace (snd (V2.main E (initial files)))) = true /\
   fs (snd (V2.main E (initial files))) = files) /\
  (fst (V1.run E (initial files)) = Ok 1 /\
   forallb leavesDisk (trace (snd (V1.run E (initial files)))) = true /\
   fs (snd (V1.run E (initial files))) = files).
Proof.
  intros H. split.
  - destruct (V2_main_without_statement E files H) as (new & E1 & R & L & F).
    rewrite app_nil_r in E1. rewrite E1. repeat split; assumption.
  - destruct (V1_run_without_statement E files H) as (new & E1 & R & L & F).
    rewrite app_nil_r in E1. rewrite E1. repeat split; assumption.
Qed.

Lemma no_statement_no_files_witness :
  fst (V2.main offlineEnv (initial [(pythonTarget, "x = 1")])) = Ok 1 /\
  fs (snd (V1.run offlineEnv (initial [(pythonTarget, "x = 1")])))
  = [(pythonTarget, "x = 1")].
Proof.
  pose proof (no_statement_no_files offlineEnv [(pythonTarget, "x = 1")]
                (fun _ _ => eq_refl)) as [[H1 _] [_ [_ H2]]].
  split; assumption.
Defined.

(* ================================================================== *)
(** ** Files with content are not written to *)

(** Case analysis on the calls, after what is known has been put in. *)
Ltac by_calls_knowing known :=
  repeat first
    [ known; cbn [fst snd trace fs browser csrfToken negb]
    | lazymatch goal with
      | |- exists new, ?lhs = _ /\ _ =>
          let x := deciding_call lhs in
          first [ is_var x; destruct x
                | is_call x; destruct x eqn:? ];
          cbn [fst snd trace fs browser csrfToken negb]
      end ].

Section Spares.
Variables p text : string.

Lemma spared_emit (e : Event) :
  isWriteTo p e = false -> preserves (spared p text) (emit e).
Proof.
  intros He st [H|[H1 H2]]; unfold spared, emit, holds in *; cbn [snd trace fs existsb].
  - left. now rewrite H, orb_true_r.
  - right. now rewrite He, H2.
Qed.

Lemma spared_log (l : Level) (msg : string) : preserves (spared p text) (log l msg).
Proof. now apply spared_emit. Qed.

Lemma spared_quiet (st st' : St) :
  fs st' = fs st -> trace st' = trace st -> spared p text st -> spared p text st'.
Proof. unfold spared, holds. now intros -> ->. Qed.

Lemma spared_setCsrfToken (t : option string) : preserves (spared p text) (setCsrfToken t).
Proof. intros st H. now apply (spared_quiet st). Qed.

Lemma spared_setBrowser (b : bool) : preserves (spared p text) (setBrowser b).
Proof. intros st H. now apply (spared_quiet st). Qed.

Lemma spared_attempt (ok : list Event -> bool) (ev : bool -> Event) (msg : string) :
  (forall b, isWriteTo p (ev b) = false) ->
  preserves (spared p text) (attempt ok ev msg).
Proof.
  intros Hev st H. unfold attempt. destruct (ok (trace st)).
  - now apply (spared_emit (ev true)).
  - apply (preserves_bind (spared p text) (emit (ev false)) (fun _ => throw msg));
      [now apply spared_emit|intros; apply preserves_throw|exact H].
Qed.

Lemma spared_request {A} (answer : list Event -> option A) (ev : bool -> Event)
      (msg : string) :
  (forall b, isWriteTo p (ev b) = false) ->
  preserves (spared p text) (request answer ev msg).
Proof.
  intros Hev st H. unfold request. destruct (answer (trace st)).
  - apply (preserves_bind (spared p text) (emit (ev true)) (fun _ => ret a));
      [now apply spared_emit|intros; apply preserves_ret|exact H].
  - apply (preserves_bind (spared p text) (emit (ev false)) (fun _ => throw msg));
      [now apply spared_emit|intros; apply preserves_throw|exact H].
Qed.

End Spares.

(** Walks through a computation built from the combinators; what is left
    are the turns of the loops. *)
Ltac spares_step :=
  match goal with
  | |- preserves _ (bind _ _) => apply preserves_bind; [|intros]
  | |- preserves _ (tryCatch _ _) => apply preserves_tryCatch; [|intros]
  | |- preserves _ (finally _ _) => apply preserves_finally
  | |- preserves _ (all2 _ _) => apply preserves_all2
  | |- preserves _ (attempt _ _ _) => apply spared_attempt; intros; reflexivity
  | |- preserves _ (request _ _ _) => apply spared_request; intros; reflexivity
  | |- preserves _ (ret _) => apply preserves_ret
  | |- preserves _ (throw _) => apply preserves_throw
  | |- preserves _ (log _ _) => apply spared_log
  | |- preserves _ (emit _) => apply spared_emit; reflexivity
  | |- preserves _ (setCsrfToken _) => apply spared_setCsrfToken
  | |- preserves _ (setBrowser _) => apply spared_setBrowser
  | |- preserves _ getBrowser => apply preserves_getBrowser
  | |- preserves _ (foldM (fun _ _ => log _ _) _ _) =>
      apply preserves_foldM; intros
  | |- preserves _ (if ?b then _ else _) => destruct b
  | |- preserves _ (match ?x with _ => _ end) => destruct x
  | |- preserves _ (let '(_, _) := ?x in _) => destruct x
  end.

Ltac spares := repeat spares_step.

Lemma existsb_in {A} (f : A -> bool) (l : list A) (x : A) :
  In x l -> f x = true -> existsb f l = true.
Proof. intros H1 H2. apply existsb_exists. now exists x. Qed.

Lemma no_failed_look (p : string) (tr : list Event) :
  ~ In (EvAccess p false) tr -> ~ In (EvReadFile p false) tr ->
  existsb (isFailedLookAt p) tr = false.
Proof.
  intros Ha Hr. destruct (existsb (isFailedLookAt p) tr) eqn:H; [|reflexivity].
  apply existsb_exists in H as (e & Hin & He).
  destruct e; try discriminate He; destruct ok; try discriminate He;
    simpl in He; apply String.eqb_eq in He; subst; contradiction.
Qed.

Lemma no_write_to (p : string) (tr : list Event) :
  existsb (isWriteTo p) tr = false ->
  forall body ok, ~ In (EvWriteFile p body ok) tr.
Proof.
  intros H body ok Hin.
  rewrite (existsb_in (isWriteTo p) tr _ Hin) in H; [discriminate|].
  simpl. apply String.eqb_refl.
Qed.

(** What is left to show of [spared] after a computation that started
    with [p] holding [text] and no write to it issued. *)
Lemma spared_from (p text : string) (st st' : St) (new : list Event) :
  trace st' = (new ++ trace st)%list ->
  existsb (isWriteTo p) (trace st) = false ->
  existsb (isFailedLookAt p) new = true \/
  (lookup p (fs st') = Some text /\ existsb (isWriteTo p) new = false) ->
  spared p text st'.
Proof.
  intros Et Hw [H|[H1 H2]]; unfold spared, holds; rewrite Et, !existsb_app.
  - left. now rewrite H.
  - right. now rewrite H2, Hw.
Qed.

Lemma spared_later (p text : string) (st st' : St) (new : list Event) :
  trace st' = (new ++ trace st)%list ->
  existsb (isFailedLookAt p) (trace st) = true ->
  spared p text st'.
Proof.
  intros Et H. left. rewrite Et, existsb_app, H. apply orb_true_r.
Qed.

Ltac spared_turn Hp Hne :=
  first
    [ left; cbn [existsb isFailedLookAt orb]; rewrite ?String.eqb_refl;
      cbn [orb]; reflexivity
    | right; split;
      [ first [reflexivity | exact Hp | rewrite lookup_other by exact Hne; exact Hp]
      | cbn [existsb isWriteTo orb]; rewrite ?Hne; reflexivity ] ].

(** One turn of the second script's loop: a file that holds content is not
    written to, unless reading it fails. *)
Lemma V2_turn_spares (E : Env) (d : ProblemDetails) (entry : string * string)
      (result : V2.FileOperationResult) (p text : string) :
  V2.scanLines false (JS.splitLines text) = true ->
  preserves (spared p text)
    (V2.processLanguage E d (V2.toKebabCase (title d)) entry result).
Proof.
  intros Hscan st HI. destruct entry as [language extension].
  destruct HI as [HI|[Hp Hw]].
  - destruct (V2_turn E d language extension result st) as (new & E1 & _).
    exact (spared_later p text st _ new E1 HI).
  - unfold holds in Hp. destruct st as [files tr tok br]. cbn [fs trace] in *.
    assert (G : exists new,
               trace (snd (V2.processLanguage E d (V2.toKebabCase (title d))
                             (language, extension) result
                             {| fs := files; trace := tr; csrfToken := tok; browser := br |}))
               = (new ++ tr)%list /\
               (existsb (isFailedLookAt p) new = true \/
                (lookup p (fs (snd (V2.processLanguage E d (V2.toKebabCase (title d))
                             (language, extension) result
                             {| fs := files; trace := tr; csrfToken := tok; browser := br |})))
                 = Some text /\
                 existsb (isWriteTo p) new = false))).
    { unfold V2.processLanguage, V2.hasNonCommentContent, access, readFile, mkdir,
        writeFile.
      destruct (String.eqb_spec (V2.filePath language d (V2.toKebabCase (title d))) p)
        as [Heq|Hne].
      - rewrite Heq. run_calls.
        match goal with
        | |- exists new, trace (snd ?x) = _ /\ (_ \/ (lookup p (fs (snd ?y)) = _ /\ _)) =>
            change y with x
        end.
        by_calls_knowing ltac:(first [rewrite Hp | rewrite Hscan]).
        all: give_new; spared_turn Hp Hp.
      - generalize dependent (V2.filePath language d (V2.toKebabCase (title d))).
        intros q Hne. apply String.eqb_neq in Hne as Hqp.
        run_calls.
        match goal with
        | |- exists new, trace (snd ?x) = _ /\ (_ \/ (lookup p (fs (snd ?y)) = _ /\ _)) =>
            change y with x
        end.
        by_calls; give_new; right;
          (split;
           [ first [exact Hp | rewrite lookup_other by exact Hne; exact Hp]
           | cbn [existsb isWriteTo orb]; rewrite ?Hqp; reflexivity ]). }
    destruct G as (new & E1 & G).
    exact (spared_from p text
             {| fs := files; trace := tr; csrfToken := tok; browser := br |}
             _ new E1 Hw G).
Qed.

Lemma V2_main_spares (E : Env) (p text : string) :
  V2.scanLines false (JS.splitLines text) = true ->
  preserves (spared p text) (V2.main E).
Proof.
  intros Hscan.
  unfold V2.main, V2.run, V2.acquire, V2.afterIdentity, V2.getDailyChallengeViaAPI,
    V2.getDailyChallengeViaPuppeteer, V2.initializeClient, V2.initializeScraper,
    V2.getDailyChallenge, V2.getProblemDetails, V2.cleanup, V2.createSolutionFiles,
    V2.logResults, V2.logGroup, V2.execute, getHomeToken, postOfToday, postQuestion,
    postEditorData, launch, newPage, pageDo, pageEvaluate, pageClose, browserClose,
    spawnProblems.
  spares.
  apply preserves_foldM. intros entry result.
  now apply V2_turn_spares.
Qed.

Lemma spared_initially (p text : string) (files : list (string * string)) :
  lookup p files = Some text -> spared p text (initial files).
Proof. intros H. right. split; [exact H|reflexivity]. Qed.

Lemma spared_finally (p text : string) (st : St) :
  spared p text st ->
  ~ In (EvAccess p false) (trace st) -> ~ In (EvReadFile p false) (trace st) ->
  forall body ok, ~ In (EvWriteFile p body ok) (trace st).
Proof.
  intros [H|[_ H]] Ha Hr.
  - rewrite (no_failed_look p _ Ha Hr) in H. discriminate H.
  - now apply no_write_to.
Qed.

(** X9.  The second script does not write to a file that has content.  Take
    a file that is on disk when the run starts and in which the scan of
    [hasNonCommentContent] finds a line that is neither blank nor comment.
    In every run in which no [fs.access] and no [fs.readFile] of that file
    rejects, the script issues no [fs.writeFile] on it, whatever the
    network, the browser, [mkdir] and the writes to other files do.  (When
    [fs.access] rejects, the script takes the file for absent and writes
    it, lines 983-1002; what the external command does to the disk is
    outside the script.) *)
Theorem V2_issues_no_write_to_a_file_with_content
        (E : Env) (files : list (string * string)) (p text : string) :
  lookup p files = Some text ->
  V2.scanLines false (JS.splitLines text) = true ->
  ~ In (EvAccess p false) (trace (snd (V2.main E (initial files)))) ->
  ~ In (EvReadFile p false) (trace (snd (V2.main E (initial files)))) ->
  forall body ok,
    ~ In (EvWriteFile p body ok) (trace (snd (V2.main E (initial files)))).
Proof.
  intros Hp Hscan. apply (spared_finally p text).
  apply V2_main_spares; [exact Hscan|now apply spared_initially].
Qed.

Lemma V2_issues_no_write_to_a_file_with_content_witness :
  V2.scanLines false (JS.splitLines "x = 1") = true /\
  forall body ok,
    ~ In (EvWriteFile pythonTarget body ok)
         (trace (snd (V2.main (healthyEnv [pythonSnippet])
                        (initial [(pythonTarget, "x = 1")])))).
Proof.
  split; [reflexivity|].
  assert (Ha : ~ In (EvAccess pythonTarget false)
                    (trace (snd (V2.main (healthyEnv [pythonSnippet])
                                   (initial [(pythonTarget, "x = 1")]))))).
  { intros H.
    assert (H' := existsb_in (isFailedLookAt pythonTarget) _ _ H eq_refl).
    vm_compute in H'. discriminate H'. }
  assert (Hr : ~ In (EvReadFile pythonTarget false)
                    (trace (snd (V2.main (healthyEnv [pythonSnippet])
                                   (initial [(pythonTarget, "x = 1")]))))).
  { intros H.
    assert (H' := existsb_in (isFailedLookAt pythonTarget) _ _ H eq_refl).
    vm_compute in H'. discriminate H'. }
  exact (V2_issues_no_write_to_a_file_with_content (healthyEnv [pythonSnippet])
           [(pythonTarget, "x = 1")] pythonTarget "x = 1" eq_refl eq_refl Ha Hr).
Defined.

(* ================================================================== *)
(** ** The first script and files with content, while no browser runs *)

(** One turn of the loop of the first script's API path: a file that holds
    content is not written to, unless reading it fails. *)
Lemma V1_turn_spares (E : Env) (d : ProblemDetails) (entry : string * string)
      (ls : V1.Lists) (p text : string) (k : string) :
  (0 <? String.length (V1.nonCommentContent text)) = true ->
  preserves (spared p text) (V1.mainFile E d k entry ls).
Proof.
  intros Hc st HI. destruct entry as [language extension].
  destruct st as [files tr tok br].
  assert (T : exists new,
             trace (snd (V1.mainFile E d k (language, extension) ls
                           {| fs := files; trace := tr; csrfToken := tok; browser := br |}))
             = (new ++ tr)%list /\ True).
  { unfold V1.mainFile, V1.hasContent, access, readFile, mkdir, writeFile.
    run_calls. by_calls; give_new; exact I. }
  destruct T as (new0 & E0 & _).
  destruct HI as [HI|[Hp Hw]].
  - exact (spared_later p text
             {| fs := files; trace := tr; csrfToken := tok; browser := br |}
             _ new0 E0 HI).
  - unfold holds in Hp. cbn [fs trace] in *. clear new0 E0.
    assert (G : exists new,
               trace (snd (V1.mainFile E d k (language, extension) ls
                             {| fs := files; trace := tr; csrfToken := tok; browser := br |}))
               = (new ++ tr)%list /\
               (existsb (isFailedLookAt p) new = true \/
                (lookup p (fs (snd (V1.mainFile E d k (language, extension) ls
                             {| fs := files; trace := tr; csrfToken := tok; browser := br |})))
                 = Some text /\
                 existsb (isWriteTo p) new = false))).
    { unfold V1.mainFile, V1.hasContent, access, readFile, mkdir, writeFile.
      destruct (String.eqb_spec (V1.filePath language extension d k) p) as [Heq|Hne].
      - rewrite Heq. run_calls.
        match goal with
        | |- exists new, trace (snd ?x) = _ /\ (_ \/ (lookup p (fs (snd ?y)) = _ /\ _)) =>
            change y with x
        end.
        by_calls_knowing ltac:(first [rewrite Hp | rewrite Hc]).
        all: give_new; spared_turn Hp Hp.
      - generalize dependent (V1.filePath language extension d k).
        intros q Hne. apply String.eqb_neq in Hne as Hqp.
        run_calls.
        match goal with
        | |- exists new, trace (snd ?x) = _ /\ (_ \/ (lookup p (fs (snd ?y)) = _ /\ _)) =>
            change y with x
        end.
        by_calls; give_new; right;
          (split;
           [ first [exact Hp | rewrite lookup_other by exact Hne; exact Hp]
           | cbn [existsb isWriteTo orb]; rewrite ?Hqp; reflexivity ]). }
    destruct G as (new & E1 & G).
    exact (spared_from p text
             {| fs := files; trace := tr; csrfToken := tok; browser := br |}
             _ new E1 Hw G).
Qed.

Lemma V1_apiPath_spares (E : Env) (p text : string) :
  (0 <? String.length (V1.nonCommentContent text)) = true ->
  preserves (spared p text) (V1.apiPath E).
Proof.
  intros Hc.
  unfold V1.apiPath, V1.scaffold, V1.logList, getHomeToken, postOfToday, postQuestion,
    postEditorData, spawnProblems.
  spares.
  apply preserves_foldM. intros entry ls. now apply V1_turn_spares.
Qed.

Lemma V1_run_spares (E : Env) (files : list (string * string)) (p text : string) :
  lookup p files = Some text ->
  V1.nonCommentContent text <> EmptyString ->
  count isLaunch (trace (snd (V1.run E (initial files)))) = 0 ->
  spared p text (snd (V1.run E (initial files))).
Proof.
  intros Hp Hne.
  assert (Hc : (0 <? String.length (V1.nonCommentContent text)) = true).
  { destruct (V1.nonCommentContent text); [contradiction|reflexivity]. }
  unfold V1.run, V1.getDailyLeetcodeChallenge. run_calls.
  match goal with
  | |- context [V1.apiPath E ?s] =>
      pose proof (V1_apiPath_spares E p text Hc s (spared_initially p text files Hp)) as K;
      destruct (V1.apiPath E s) as [[u|err] st1]
  end; cbn [fst snd trace fs browser csrfToken] in *.
  - intros _. exact K.
  - match goal with
    | |- context [V1.browserPath E err ?s] =>
        destruct (V1_browserPath_trace E err s) as (nb & Eb & Lb & _);
        destruct (V1.browserPath E err s) as [[u|err2] st2]
    end; cbn [fst snd trace fs browser csrfToken] in *; rewrite Eb;
      repeat rewrite ?count_cons, ?count_app, ?count_nil; rewrite Lb; intros H; lia.
Qed.

(** X19.  The first script, while it does not launch the browser, does not
    write to a file that has content.  Take a file that is on disk when the
    run starts and has content for [hasContent].  In every run in which the
    browser is not launched and no [fs.access] and no [fs.readFile] of that
    file rejects, the script issues no [fs.writeFile] on it: the loop of
    the API path skips it.  (When [fs.access] rejects, the loop takes the
    file for absent and writes it, lines 535-557; what the external command
    does to the disk is outside the script.) *)
Theorem V1_issues_no_write_to_a_file_with_content_without_browser
        (E : Env) (files : list (string * string)) (p text : string) :
  lookup p files = Some text ->
  V1.nonCommentContent text <> EmptyString ->
  count isLaunch (trace (snd (V1.run E (initial files)))) = 0 ->
  ~ In (EvAccess p false) (trace (snd (V1.run E (initial files)))) ->
  ~ In (EvReadFile p false) (trace (snd (V1.run E (initial files)))) ->
  forall body ok,
    ~ In (EvWriteFile p body ok) (trace (snd (V1.run E (initial files)))).
Proof.
  intros Hp Hne Hl. apply (spared_finally p text). now apply V1_run_spares.
Qed.

Lemma V1_issues_no_write_to_a_file_with_content_without_browser_witness :
  V1.nonCommentContent "x = 1" = "x = 1" /\
  forall body ok,
    ~ In (EvWriteFile pythonTarget body ok)
         (trace (snd (V1.run (healthyEnv [pythonSnippet])
                        (initial [(pythonTarget, "x = 1")])))).
Proof.
  split; [reflexivity|].
  assert (Hl : count isLaunch
                 (trace (snd (V1.run (healthyEnv [pythonSnippet])
                                (initial [(pythonTarget, "x = 1")])))) = 0)
    by (vm_compute; reflexivity).
  assert (Ha : ~ In (EvAccess pythonTarget false)
                    (trace (snd (V1.run (healthyEnv [pythonSnippet])
                                   (initial [(pythonTarget, "x = 1")]))))).
  { intros H.
    assert (H' := existsb_in (isFailedLookAt pythonTarget) _ _ H eq_refl).
    vm_compute in H'. discriminate H'. }
  assert (Hr : ~ In (EvReadFile pythonTarget false)
                    (trace (snd (V1.run (healthyEnv [pythonSnippet])
                                   (initial [(pythonTarget, "x = 1")]))))).
  { intros H.
    assert (H' := existsb_in (isFailedLookAt pythonTarget) _ _ H eq_refl).
    vm_compute in H'. discriminate H'. }
  exact (V1_issues_no_write_to_a_file_with_content_without_browser
           (healthyEnv [pythonSnippet]) [(pythonTarget, "x = 1")] pythonTarget "x = 1"
           eq_refl ltac:(discriminate) Hl Ha Hr).
Defined.

(* ================================================================== *)
(** ** Running the materialization again *)

(** X20.  A file that one run of [FileManager.createSolutionFiles] has
    created or updated is the same after any later run for the same
    problem, whatever then fails or succeeds: the later run skips it,
    fails on it, or writes the same body again. *)
Theorem V2_second_run_keeps_what_the_first_wrote
        (E E' : Env) (d : ProblemDetails) (st : St) (language extension : string)
        (res : V2.FileOperationResult) :
  In (language, extension) LANGUAGE_EXTENSIONS ->
  fst (V2.createSolutionFiles E d st) = Ok res ->
  In (V2.filePath language d (V2.toKebabCase (title d)))
     (V2.created res ++ V2.updated res) ->
  lookup (V2.filePath language d (V2.toKebabCase (title d)))
         (fs (snd (V2.createSolutionFiles E' d (snd (V2.createSolutionFiles E d st)))))
  = Some (fileBody language d).
Proof.
  intros Hl Hres Hin.
  destruct (V2_materialization_disk E d st) as (res1 & R1 & _ & C1).
  cbv zeta in R1, C1. rewrite Hres in R1. inversion R1; subst res1.
  pose proof (C1 language extension Hl Hin) as Hfirst.
  destruct (V2_materialization_disk E' d (snd (V2.createSolutionFiles E d st)))
    as (res2 & _ & F2 & C2).
  cbv zeta in F2, C2.
  destruct (in_dec string_dec (V2.filePath language d (V2.toKebabCase (title d)))
              (V2.created res2 ++ V2.updated res2)) as [Hin2|Hout2].
  - exact (C2 language extension Hl Hin2).
  - rewrite (F2 _ Hout2). exact Hfirst.
Qed.

Lemma V2_second_run_keeps_what_the_first_wrote_witness :
  lookup pythonTarget
    (fs (snd (V2.createSolutionFiles pythonReadOnlyEnv (rainWater [pythonSnippet])
                (snd (V2.createSolutionFiles (healthyEnv [pythonSnippet])
                        (rainWater [pythonSnippet]) (initial []))))))
  = Some (fileBody "python" (rainWater [pythonSnippet])).
Proof.
  assert (Hp : V2.filePath "python" (rainWater [pythonSnippet])
                 (V2.toKebabCase (title (rainWater [pythonSnippet]))) = pythonTarget)
    by (vm_compute; reflexivity).
  destruct (fst (V2.createSolutionFiles (healthyEnv [pythonSnippet])
                   (rainWater [pythonSnippet]) (initial []))) as [res|e] eqn:Hres;
    [|vm_compute in Hres; discriminate].
  assert (Hin : In (V2.filePath "python" (rainWater [pythonSnippet])
                      (V2.toKebabCase (title (rainWater [pythonSnippet]))))
                   (V2.created res ++ V2.updated res)).
  { vm_compute in Hres. inversion Hres; subst res. rewrite Hp. simpl. tauto. }
  pose proof (V2_second_run_keeps_what_the_first_wrote
                (healthyEnv [pythonSnippet]) pythonReadOnlyEnv (rainWater [pythonSnippet])
                (initial []) "python" "py" res ltac:(simpl; tauto) Hres Hin) as H.
  rewrite Hp in H. exact H.
Defined.

(* ================================================================== *)
(** ** The targets of the catalog *)

(** X21.  For every problem, whatever its id, title and difficulty, no
    two languages of the catalog have the same target path, in either
    script: the fourteen turns of a loop write fourteen different files. *)
Theorem target_paths_are_pairwise_different (d : ProblemDetails) :
  NoDup (targetPaths d) /\ NoDup (targetPathsV1 d) /\
  List.length (targetPaths d) = 14.
Proof.
  split; [apply targetPaths_NoDup|].
  split; [rewrite targetPathsV1_same; apply targetPaths_NoDup|reflexivity].
Qed.

(** X22.  The two scripts agree on what they write and where: for every
    language of the catalog the target path is the same, and for every
    language, statement and code the file body is the same. *)
Theorem both_scripts_write_the_same_files
        (language extension : string) (d : ProblemDetails) (code : string) :
  In (language, extension) LANGUAGE_EXTENSIONS ->
  V1.filePath language extension d (V1.toKebabCase (title d))
  = V2.filePath language d (V2.toKebabCase (title d)) /\
  V1.formatProblemFile language (content d) code
  = V2.formatProblemFile language (content d) code.
Proof.
  intros Hl. split; [now apply filePath_same|apply formatProblemFile_same].
Qed.

Lemma both_scripts_write_the_same_files_witness :
  V1.filePath "dart" "dart" (rainWater []) (V1.toKebabCase (title (rainWater [])))
  = V2.filePath "dart" (rainWater []) (V2.toKebabCase (title (rainWater []))).
Proof.
  exact (proj1 (both_scripts_write_the_same_files "dart" "dart" (rainWater [])
                  EmptyString ltac:(simpl; tauto))).
Defined.

(* ================================================================== *)
(** ** The first run on a disk without the targets *)

Section Fresh.
Variable E : Env.
Hypothesis mkdir_works : forall tr p, mkdirFails E tr p = false.
Hypothesis write_works : forall tr p, writeFails E tr p = false.

Lemma V2_turn_fresh (d : ProblemDetails) (language extension : string)
      (result : V2.FileOperationResult) (st : St) :
  let k := V2.toKebabCase (title d) in
  let p := V2.filePath language d k in
  let out := V2.processLanguage E d k (language, extension) result st in
  lookup p (fs st) = None ->
  exists new,
    trace (snd out) = (new ++ trace st)%list /\
    fst out = Ok (record Created p result) /\
    fs (snd out) = (p, fileBody language d) :: fs st.
Proof.
  intros k p. destruct st as [files tr tok br]. cbn [fs].
  unfold V2.processLanguage, V2.hasNonCommentContent, access, readFile, mkdir,
    writeFile. fold k. fold p. fold (fileBody language d).
  generalize p. clear p. intros p Hnone.
  run_calls.
  match goal with
  | |- exists new, trace (snd ?x) = _ /\ fst ?y = _ /\ fs (snd ?z) = _ =>
      change y with x; change z with x
  end.
  by_calls_knowing ltac:(first [rewrite Hnone | rewrite mkdir_works | rewrite write_works]).
  give_new. split; reflexivity.
Qed.

Lemma V2_loop_fresh (d : ProblemDetails) (l : list (string * string)) :
  let k := V2.toKebabCase (title d) in
  let path := fun entry : string * string => V2.filePath (fst entry) d k in
  NoDup (map path l) ->
  forall result st,
    (forall q, In q (map path l) -> lookup q (fs st) = None) ->
    fst (foldM (V2.processLanguage E d k) l result st)
    = Ok {| V2.created := V2.created result ++ map path l;
            V2.updated := V2.updated result; V2.skipped := V2.skipped result |}.
Proof.
  intros k path. induction l as [|[language extension] l IH]; intros Hnd result st Hnone.
  - simpl. rewrite app_nil_r. now destruct result.
  - cbn [foldM]. unfold bind.
    destruct (V2_turn_fresh d language extension result st
                (Hnone _ (or_introl eq_refl))) as (n1 & _ & R1 & S1).
    fold k in R1, S1.
    destruct (V2.processLanguage E d k (language, extension) result st) as [r1 st1].
    cbn [fst snd] in *. subst r1.
    inversion Hnd as [|? ? Hp Hnd']; subst.
    rewrite (IH Hnd').
    + cbn [record V2.created V2.updated V2.skipped map]. now rewrite <- app_assoc.
    + intros q Hq. rewrite S1. rewrite lookup_other.
      * apply Hnone. now right.
      * intros Heq. apply Hp. change (V2.filePath language d k) with (path (language, extension)) in Heq.
        now rewrite Heq.
Qed.

End Fresh.

(** X23.  On a disk that holds none of the targets, with [mkdir] and
    [writeFile] working, [FileManager.createSolutionFiles] creates all
    fourteen files: the list created is the target paths in the order of
    the catalog, and nothing is updated or skipped. *)
Theorem V2_first_run_creates_every_file (E : Env) (d : ProblemDetails) (st : St) :
  (forall tr p, mkdirFails E tr p = false) ->
  (forall tr p, writeFails E tr p = false) ->
  (forall q, In q (targetPaths d) -> lookup q (fs st) = None) ->
  fst (V2.createSolutionFiles E d st)
  = Ok {| V2.created := targetPaths d; V2.updated := []; V2.skipped := [] |}.
Proof.
  intros Hmk Hwr Hnone. unfold V2.createSolutionFiles, bind, log, emit. cbn [fst snd].
  rewrite (V2_loop_fresh E Hmk Hwr d LANGUAGE_EXTENSIONS (targetPaths_NoDup d)).
  - reflexivity.
  - exact Hnone.
Qed.

Lemma V2_first_run_creates_every_file_witness :
  fst (V2.createSolutionFiles (healthyEnv []) (rainWater []) (initial []))
  = Ok {| V2.created := targetPaths (rainWater []); V2.updated := []; V2.skipped := [] |}.
Proof.
  apply (V2_first_run_creates_every_file (healthyEnv []) (rainWater []) (initial []));
    [intros tr p; reflexivity|intros tr p; reflexivity|intros q _; reflexivity].
Defined.

(* ================================================================== *)
(** ** [toKebabCase] word by word *)

Lemma toLowerCase_app (a b : string) :
  JS.toLowerCase (a ++ b) = JS.toLowerCase a ++ JS.toLowerCase b.
Proof. induction a as [|c r IH]; simpl; [reflexivity|]. now rewrite IH. Qed.

Lemma lowerChar_space (c : ascii) : JS.isSpace (JS.lowerChar c) = JS.isSpace c.
Proof. by_cases_on_ascii c. Qed.

Lemma toLowerCase_ends (s : string) :
  endsWithSpace (JS.toLowerCase s) = endsWithSpace s.
Proof.
  induction s as [|c r IH]; [reflexivity|].
  cbn [JS.toLowerCase endsWithSpace]. destruct r as [|d r'].
  - apply lowerChar_space.
  - exact IH.
Qed.

Lemma toLowerCase_starts (s : string) :
  startsWithSpace (JS.toLowerCase s) = startsWithSpace s.
Proof. destruct s as [|c r]; [reflexivity|]. apply lowerChar_space. Qed.

(** A run of white space at the start of a text that does not end with
    white space ends inside the text. *)
Lemma spanLen_space_app (a x : string) :
  a <> EmptyString -> endsWithSpace a = false ->
  JS.spanLen JS.isSpace (a ++ x) = JS.spanLen JS.isSpace a.
Proof.
  induction a as [|c r IH]; intros Hne He; [contradiction|].
  change (String c r ++ x) with (String c (r ++ x)). cbn [JS.spanLen].
  destruct (JS.isSpace c) eqn:Hc; [|reflexivity].
  destruct r as [|d r'].
  - simpl in He. congruence.
  - rewrite IH; [reflexivity|discriminate|exact He].
Qed.

(** The white-space pattern on two texts with one space between them, when
    the first does not end and the second does not start with white space:
    the space between them is a run of its own. *)
Lemma gsub_spaces_app (a b : string) :
  endsWithSpace a = false -> startsWithSpace b = false ->
  forall k, k <= JS.spanLen JS.isSpace a ->
    JS.gsub JS.reSpaces "-" k (a ++ " " ++ b)
    = JS.gsub JS.reSpaces "-" k a ++ "-" ++ JS.gsub JS.reSpaces "-" 0 b.
Proof.
  intros Ha Hb. induction a as [|c r IH]; intros k Hk.
  - simpl in Hk. assert (k = 0) by lia. subst k.
    change (EmptyString ++ " " ++ b) with (String " "%char b).
    cbn [JS.gsub]. unfold JS.reSpaces. cbn [JS.spanLen].
    change (JS.isSpace " "%char) with true. cbv iota.
    destruct b as [|d b']; [reflexivity|].
    simpl in Hb. cbn [JS.spanLen]. rewrite Hb. reflexivity.
  - assert (Hr : r <> EmptyString -> endsWithSpace r = false).
    { intros Hne. destruct r; [contradiction|exact Ha]. }
    change (String c r ++ " " ++ b) with (String c (r ++ " " ++ b)).
    cbn [JS.gsub]. destruct k as [|k].
    + unfold JS.reSpaces.
      change (String c (r ++ " " ++ b)) with (String c r ++ " " ++ b).
      rewrite spanLen_space_app by (try discriminate; exact Ha).
      cbn [JS.spanLen]. destruct (JS.isSpace c) eqn:Hc.
      * destruct r as [|d r']; [simpl in Ha; congruence|].
        rewrite IH by (try (apply Hr; discriminate); lia). reflexivity.
      * destruct r as [|d r'].
        -- rewrite IH by (try reflexivity; simpl; lia). reflexivity.
        -- rewrite IH by (try (apply Hr; discriminate); lia). reflexivity.
    + cbn [JS.spanLen] in Hk. destruct (JS.isSpace c) eqn:Hc; [|lia].
      destruct r as [|d r']; [simpl in Ha; congruence|].
      apply IH; [apply Hr; discriminate|lia].
Qed.

Lemma gsub_notSlug_app (a b : string) :
  JS.gsub JS.reNotSlug EmptyString 0 (a ++ b)
  = JS.gsub JS.reNotSlug EmptyString 0 a ++ JS.gsub JS.reNotSlug EmptyString 0 b.
Proof.
  induction a as [|c r IH]; [reflexivity|].
  change (String c r ++ b) with (String c (r ++ b)). cbn [JS.gsub JS.reNotSlug].
  destruct (JS.isSlugChar c); cbn [append]; now rewrite IH.
Qed.

(** X24.  [toKebabCase] works word by word: for two texts with one space
    between them, the first not ending and the second not starting with
    white space, the slug is the two slugs with a hyphen between them. *)
Theorem toKebabCase_joins_words_with_a_hyphen (a b : string) :
  endsWithSpace a = false -> startsWithSpace b = false ->
  V2.toKebabCase (a ++ " " ++ b) = V2.toKebabCase a ++ "-" ++ V2.toKebabCase b /\
  V1.toKebabCase (a ++ " " ++ b) = V1.toKebabCase a ++ "-" ++ V1.toKebabCase b.
Proof.
  intros Ha Hb.
  assert (H : V2.toKebabCase (a ++ " " ++ b)
              = V2.toKebabCase a ++ "-" ++ V2.toKebabCase b).
  { unfold V2.toKebabCase, JS.replaceAll. rewrite !toLowerCase_app.
    change (JS.toLowerCase " ") with " ".
    rewrite gsub_spaces_app
      by (first [now rewrite toLowerCase_ends | now rewrite toLowerCase_starts | lia]).
    rewrite !gsub_notSlug_app. reflexivity. }
  split; exact H.
Qed.

Lemma toKebabCase_joins_words_with_a_hyphen_witness :
  V2.toKebabCase ("Two Sum" ++ " " ++ "II") = V2.toKebabCase "Two Sum" ++ "-" ++ V2.toKebabCase "II".
Proof.
  exact (proj1 (toKebabCase_joins_words_with_a_hyphen "Two Sum" "II" eq_refl eq_refl)).
Defined.

(* ================================================================== *)
(** ** The slug the browser gives *)

Lemma V2_fallback_slug (E : Env) (st : St) :
  exists new,
    trace (snd (V2.getDailyChallengeViaPuppeteer E st)) = (new ++ trace st)%list /\
    forall dc, fst (V2.getDailyChallengeViaPuppeteer E st) = Ok dc ->
               dc_titleSlug dc <> EmptyString /\ In (EvEvaluate true) new.
Proof.
  destruct st as [files tr tok br].
  unfold V2.getDailyChallengeViaPuppeteer, V2.initializeScraper, V2.getDailyChallenge,
    V2.getProblemDetails, V2.cleanup, launch, newPage, pageDo, pageEvaluate,
    pageClose, browserClose, postQuestion, postEditorData.
  run_calls.
  match goal with
  | |- exists new, trace (snd ?x) = _ /\ (forall dc, fst ?y = _ -> _) =>
      change y with x
  end.
  by_calls; give_new; intros dc Hdc; try discriminate Hdc.
  all: inversion Hdc; subst dc; cbn [dc_titleSlug titleSlug]; split;
    [ intros Hz; subst;
      match goal with H : (EmptyString =? EmptyString)%string = false |- _ => discriminate H end
    | simpl; tauto ].
Qed.

Lemma V1_fallback_slug (E : Env) (st : St) :
  exists new,
    trace (snd (V1.getDailyLeetcodeChallengeWithPuppeteer E st)) = (new ++ trace st)%list /\
    forall slug, fst (V1.getDailyLeetcodeChallengeWithPuppeteer E st) = Ok slug ->
                 slug <> EmptyString /\ In (EvEvaluate true) new.
Proof.
  destruct st as [files tr tok br].
  unfold V1.getDailyLeetcodeChallengeWithPuppeteer, launch, newPage, pageDo,
    pageEvaluate, browserClose.
  run_calls.
  match goal with
  | |- exists new, trace (snd ?x) = _ /\ (forall dc, fst ?y = _ -> _) =>
      change y with x
  end.
  by_calls; give_new; intros slug Hs; try discriminate Hs.
  all: inversion Hs; subst slug; split;
    [ intros Hz; subst;
      match goal with H : (EmptyString =? EmptyString)%string = false |- _ => discriminate H end
    | simpl; tauto ].
Qed.

(** X25.  The browser fallback never answers with an empty slug: when it
    returns, the page has been evaluated and the slug it gives is not the
    empty string; a page on which no link is found, or an empty match, makes
    it throw.  This holds for both scripts. *)
Theorem fallback_slug_is_never_empty (E : Env) (st : St) :
  (forall dc, fst (V2.getDailyChallengeViaPuppeteer E st) = Ok dc ->
              dc_titleSlug dc <> EmptyString) /\
  (forall slug, fst (V1.getDailyLeetcodeChallengeWithPuppeteer E st) = Ok slug ->
                slug <> EmptyString).
Proof.
  split.
  - intros dc H. destruct (V2_fallback_slug E st) as (new & _ & K). now apply K.
  - intros slug H. destruct (V1_fallback_slug E st) as (new & _ & K). now apply K.
Qed.

Lemma fallback_slug_is_never_empty_witness :
  fst (V1.getDailyLeetcodeChallengeWithPuppeteer (healthyEnv []) (initial []))
  = Ok "trapping-rain-water" /\
  "trapping-rain-water" <> EmptyString.
Proof.
  assert (H : fst (V1.getDailyLeetcodeChallengeWithPuppeteer (healthyEnv []) (initial []))
              = Ok "trapping-rain-water") by (vm_compute; reflexivity).
  split; [exact H|].
  exact (proj2 (fallback_slug_is_never_empty (healthyEnv []) (initial []))
           "trapping-rain-water" H).
Defined.

(* ================================================================== *)
(** ** Two of the properties above on the scenario *)

Lemma toKebabCase_fixed_points_witness :
  V2.toKebabCase "trapping-rain-water" = "trapping-rain-water".
Proof.
  exact (proj2 (proj2 (toKebabCase_fixed_points "trapping-rain-water")) eq_refl).
Defined.

Lemma V2_disk_after_materialization_witness :
  lookup "README.md"
    (fs (snd (V2.createSolutionFiles (healthyEnv [pythonSnippet]) (rainWater [pythonSnippet])
                (initial [("README.md", "notes")]))))
  = Some "notes" /\
  lookup pythonTarget
    (fs (snd (V2.createSolutionFiles (healthyEnv [pythonSnippet]) (rainWater [pythonSnippet])
                (initial [("README.md", "notes")]))))
  = Some (fileBody "python" (rainWater [pythonSnippet])).
Proof.
  assert (Hp : V2.filePath "python" (rainWater [pythonSnippet])
                 (V2.toKebabCase (title (rainWater [pythonSnippet]))) = pythonTarget)
    by (vm_compute; reflexivity).
  destruct (V2_disk_after_materialization (healthyEnv [pythonSnippet])
              (rainWater [pythonSnippet]) (initial [("README.md", "notes")]))
    as (res & R & F & C).
  assert (Hres : res = {| V2.created := targetPaths (rainWater [pythonSnippet]);
                          V2.updated := []; V2.skipped := [] |}).
  { vm_compute in R. inversion R. vm_compute. reflexivity. }
  split.
  - rewrite (F "README.md"); [reflexivity|].
    rewrite Hres. vm_compute. intuition discriminate.
  - rewrite <- Hp. apply (C "python" "py"); [simpl; tauto|].
    rewrite Hres, Hp. vm_compute. tauto.
Defined.

(* ================================================================== *)
(** ** The external command *)

Lemma settled_stays1 (command : string) (args : list string) (silent : bool)
      (events : list Cmd.ProcEvent) (r : Cmd.Run) :
  Cmd.promise r <> Cmd.Pending ->
  Cmd.promise (fold_left (Cmd.onEvent1 command args silent) events r) = Cmd.promise r.
Proof.
  revert r. induction events as [|e events IH]; intros r Hr; [reflexivity|].
  cbn [fold_left]. rewrite IH.
  - destruct e; cbn [Cmd.onEvent1]; try (destruct silent; reflexivity).
    + destruct (Cmd.isZero code); cbn [Cmd.settle Cmd.say Cmd.promise];
        destruct (Cmd.promise r); try reflexivity; contradiction.
    + cbn [Cmd.settle Cmd.say Cmd.promise]. destruct (Cmd.promise r);
        try reflexivity; contradiction.
  - destruct e; cbn [Cmd.onEvent1]; try (destruct silent; exact Hr).
    + destruct (Cmd.isZero code); cbn [Cmd.settle Cmd.say Cmd.promise];
        destruct (Cmd.promise r); try discriminate; contradiction.
    + cbn [Cmd.settle Cmd.say Cmd.promise]. destruct (Cmd.promise r);
        try discriminate; contradiction.
Qed.

Lemma settled_stays2 (command : string) (args : list string) (silent : bool)
      (events : list Cmd.ProcEvent) (r : Cmd.Run) :
  Cmd.promise r <> Cmd.Pending ->
  Cmd.promise (fold_left (Cmd.onEvent2 command args silent) events r) = Cmd.promise r.
Proof.
  revert r. induction events as [|e events IH]; intros r Hr; [reflexivity|].
  cbn [fold_left]. rewrite IH.
  - destruct e; cbn [Cmd.onEvent2]; try (destruct silent; reflexivity).
    + destruct (Cmd.isZero code), silent; cbn [Cmd.settle Cmd.say Cmd.promise];
        destruct (Cmd.promise r); try reflexivity; contradiction.
    + cbn [Cmd.settle Cmd.promise]. destruct (Cmd.promise r);
        try reflexivity; contradiction.
  - destruct e; cbn [Cmd.onEvent2]; try (destruct silent; exact Hr).
    + destruct (Cmd.isZero code), silent; cbn [Cmd.settle Cmd.say Cmd.promise];
        destruct (Cmd.promise r); try discriminate; contradiction.
    + cbn [Cmd.settle Cmd.promise]. destruct (Cmd.promise r);
        try discriminate; contradiction.
Qed.

Lemma first_terminal1 (command : string) (args : list string) (silent : bool)
      (events : list Cmd.ProcEvent) (r : Cmd.Run) :
  Cmd.promise r = Cmd.Pending ->
  Cmd.promise (fold_left (Cmd.onEvent1 command args silent) events r)
  = settledBy command args (fun err => err) (find isTerminal events).
Proof.
  revert r. induction events as [|e events IH]; intros r Hr; [exact Hr|].
  cbn [fold_left find]. destruct e; cbn [isTerminal].
  - apply IH. cbn [Cmd.onEvent1]. destruct silent; exact Hr.
  - apply IH. cbn [Cmd.onEvent1]. destruct silent; exact Hr.
  - rewrite settled_stays1; cbn [Cmd.onEvent1 settledBy];
      destruct (Cmd.isZero code); cbn [Cmd.settle Cmd.say Cmd.promise];
      rewrite Hr; first [reflexivity | discriminate].
  - rewrite settled_stays1; cbn [Cmd.onEvent1 settledBy Cmd.settle Cmd.say Cmd.promise];
      rewrite Hr; first [reflexivity | discriminate].
Qed.

Lemma first_terminal2 (command : string) (args : list string) (silent : bool)
      (events : list Cmd.ProcEvent) (r : Cmd.Run) :
  Cmd.promise r = Cmd.Pending ->
  Cmd.promise (fold_left (Cmd.onEvent2 command args silent) events r)
  = settledBy command args (fun _ => "Process spawn failed") (find isTerminal events).
Proof.
  revert r. induction events as [|e events IH]; intros r Hr; [exact Hr|].
  cbn [fold_left find]. destruct e; cbn [isTerminal].
  - apply IH. cbn [Cmd.onEvent2]. destruct silent; exact Hr.
  - apply IH. cbn [Cmd.onEvent2]. destruct silent; exact Hr.
  - rewrite settled_stays2; cbn [Cmd.onEvent2 settledBy];
      destruct (Cmd.isZero code), silent; cbn [Cmd.settle Cmd.say Cmd.promise];
      rewrite Hr; first [reflexivity | discriminate].
  - rewrite settled_stays2; cbn [Cmd.onEvent2 settledBy Cmd.settle Cmd.promise];
      rewrite Hr; first [reflexivity | discriminate].
Qed.

(** X26.  The promise of [executeCommand] and of [CommandExecutor.execute]
    is settled by the first event that ends the process, and by nothing
    after it: it resolves exactly when that event is a close with exit
    code 0; a close with another code, or with no code (a signal), rejects
    with the message that names the command line and the code; an error
    event rejects with the error (first script) or with "Process spawn
    failed" (second script); while no such event has come the promise is
    pending. *)
Theorem command_is_settled_by_the_first_end
        (command : string) (args : list string) (silent : bool)
        (events : list Cmd.ProcEvent) :
  Cmd.promise (Cmd.executeCommand command args silent (Cmd.Spawned events))
  = settledBy command args (fun err => err) (find isTerminal events) /\
  Cmd.promise (Cmd.execute command args silent (Cmd.Spawned events))
  = settledBy command args (fun _ => "Process spawn failed") (find isTerminal events).
Proof.
  split; [now apply first_terminal1|now apply first_terminal2].
Qed.

Lemma output_gathered (command : string) (args : list string)
      (events : list Cmd.ProcEvent) (r : Cmd.Run) :
  forallb (fun e => negb (isTerminal e)) events = true ->
  let r' := fold_left (Cmd.onEvent1 command args true) events r in
  Cmd.output r' = Cmd.output r ++ stdoutOf events /\
  Cmd.console r' = Cmd.console r /\ Cmd.promise r' = Cmd.promise r.
Proof.
  revert r. induction events as [|e events IH]; intros r H.
  - simpl. now rewrite append_nil_r.
  - cbn [forallb] in H. apply andb_true_iff in H as [He H].
    cbn [fold_left].
    destruct (IH (Cmd.onEvent1 command args true r e) H) as (I1 & I2 & I3).
    cbv zeta in *. rewrite I1, I2, I3.
    destruct e; try discriminate He;
      cbn [Cmd.onEvent1 Cmd.addOutput Cmd.addErrorOutput Cmd.output Cmd.console
           Cmd.promise stdoutOf];
      rewrite ?append_assoc; repeat split; reflexivity.
Qed.

Lemma console_grows1 (command : string) (args : list string) (silent : bool)
      (events : list Cmd.ProcEvent) (r : Cmd.Run) (line : Level * string) :
  In line (Cmd.console r) ->
  In line (Cmd.console (fold_left (Cmd.onEvent1 command args silent) events r)).
Proof.
  revert r. induction events as [|e events IH]; intros r H; [exact H|].
  cbn [fold_left]. apply IH.
  destruct e; cbn [Cmd.onEvent1]; try (destruct silent; exact H).
  - destruct (Cmd.isZero code); cbn [Cmd.settle Cmd.say Cmd.console];
      rewrite ?in_app_iff; tauto.
  - cbn [Cmd.settle Cmd.say Cmd.console]. rewrite in_app_iff. tauto.
Qed.

(** X27.  When the command of the first script, run with its output piped,
    ends with a close whose code is not 0 before any other end, the
    console gets the line "Output: " with everything the process had
    written to its standard output until then, the chunks in the order in
    which they came. *)
Theorem command_failure_reports_the_output
        (command : string) (args : list string)
        (before after : list Cmd.ProcEvent) (code : option nat) :
  forallb (fun e => negb (isTerminal e)) before = true ->
  Cmd.isZero code = false ->
  In (LErr, "Output: " ++ stdoutOf before)
     (Cmd.console (Cmd.executeCommand command args true
                     (Cmd.Spawned (before ++ Cmd.Close code :: after)))).
Proof.
  intros Hb Hc. unfold Cmd.executeCommand. rewrite fold_left_app. cbn [fold_left].
  apply console_grows1.
  destruct (output_gathered command args before Cmd.start Hb) as (H1 & _ & _).
  cbv zeta in H1. cbn [Cmd.onEvent1]. rewrite Hc, H1.
  cbn [Cmd.settle Cmd.say Cmd.console Cmd.start Cmd.output append].
  rewrite !in_app_iff. left. right. left. reflexivity.
Qed.

Lemma command_failure_reports_the_output_witness :
  In (LErr, "Output: " ++ "ab")
     (Cmd.console (Cmd.executeCommand "node" (problemsArgs "two-sum") true
                     (Cmd.Spawned [Cmd.StdoutData "a"; Cmd.StderrData "x";
                                   Cmd.StdoutData "b"; Cmd.Close (Some 1)]))).
Proof.
  exact (command_failure_reports_the_output "node" (problemsArgs "two-sum")
           [Cmd.StdoutData "a"; Cmd.StderrData "x"; Cmd.StdoutData "b"] []
           (Some 1) eq_refl eq_refl).
Defined.

(* ================================================================== *)
(** ** The first script: when the external command is run *)

Lemma V1_mainFile_quiet (E : Env) (d : ProblemDetails) (k : string)
      (entry : string * string) (ls : V1.Lists) :
  emitsOnly quietEvent (V1.mainFile E d k entry ls).
Proof.
  unfold V1.mainFile, V1.hasContent. destruct entry as [language extension].
  unfold mkdir. emits.
Qed.

Lemma V1_logList_quiet (header : string) (l : list string) :
  emitsOnly quietEvent (V1.logList header l).
Proof. unfold V1.logList. emits. Qed.

Lemma V1_logList_returns (header : string) (l : list string) :
  neverThrows (V1.logList header l).
Proof.
  unfold V1.logList. destruct l; [apply neverThrows_ret|].
  apply neverThrows_bind; [apply neverThrows_log|intros _].
  apply neverThrows_foldM. intros; apply neverThrows_log.
Qed.

Lemma V1_browserPath_notSpawn (E : Env) (e : string) :
  emitsOnly notSpawn (V1.browserPath E e).
Proof.
  unfold V1.browserPath, V1.getDailyLeetcodeChallengeWithPuppeteer,
    V1.createSolutionFiles, launch, newPage, pageDo, pageEvaluate, browserClose,
    postQuestion, postEditorData.
  emits. unfold V1.fallbackFile. destruct x as [language extension].
  unfold mkdir. emits.
Qed.

Lemma quiet_facts (l : list Event) :
  forallb quietEvent l = true ->
  count isLaunch l = 0 /\ forallb notSpawn l = true.
Proof.
  intros H. split.
  - apply (count_none _ quietEvent); auto. intros [] He; try reflexivity; discriminate.
  - rewrite forallb_forall in *. intros e He. specialize (H e He).
    unfold quietEvent in H. apply andb_true_iff in H as [_ H]. exact H.
Qed.

(** Drops the parts of a trace that cannot hold the spawn [H] speaks of. *)
Ltac no_spawn H :=
  exfalso;
  repeat (progress (simpl in H; rewrite ?in_app_iff in H));
  repeat (destruct H as [H|H]); try discriminate; try contradiction;
  (refine (forallb_not_in notSpawn _ _ _ _ H); [eassumption|reflexivity]).

(** Runs the browser path in the goal and closes the goal: its events hold
    no spawn. *)
Ltac browser_path_has_no_spawn E :=
  match goal with
  | |- context [V1.browserPath E ?e ?s] =>
      let nb := fresh "nb" in let Eb := fresh "Eb" in let Fb := fresh "Fb" in
      destruct (V1_browserPath_notSpawn E e s) as (nb & Eb & Fb);
      destruct (V1.browserPath E e s) as [[? | ?] ?];
      cbn [fst snd trace fs browser csrfToken] in *;
      rewrite Eb;
      repeat match goal with
             | K : trace ?x = _ |- context [trace ?x] => rewrite K
             end;
      let H := fresh "H" in intros H; no_spawn H
  end.

Lemma V1_run_after_spawn (E : Env) (files : list (string * string))
      (slug : string) (ok : bool) :
  let out := V1.run E (initial files) in
  In (EvSpawn slug ok) (trace (snd out)) ->
  fst out = Ok 0 /\ count isLaunch (trace (snd out)) = 0.
Proof.
  unfold V1.run, V1.getDailyLeetcodeChallenge, V1.apiPath, V1.scaffold, getHomeToken,
    postOfToday, postQuestion, postEditorData, spawnProblems, initial.
  run_calls.
  destruct (homeToken E _) as [tok|]; cbn [fst snd trace fs browser csrfToken];
    [|browser_path_has_no_spawn E].
  destruct (ofToday E _) as [q|]; cbn [fst snd trace fs browser csrfToken];
    [|browser_path_has_no_spawn E].
  destruct (question E _ _) as [a|]; cbn [fst snd trace fs browser csrfToken];
    (destruct (editorData E _ _) as [snippets|];
     cbn [fst snd trace fs browser csrfToken]);
    try browser_path_has_no_spawn E.
  match goal with
  | |- context [foldM ?body LANGUAGE_EXTENSIONS ?ls ?s] =>
      destruct (emitsOnly_foldM quietEvent body LANGUAGE_EXTENSIONS
                  (fun x a => V1_mainFile_quiet E _ _ x a) ls s) as (n & En & Fn);
      destruct (quiet_facts _ Fn) as (Ln & Sn);
      destruct (foldM body LANGUAGE_EXTENSIONS ls s) as [[lists|err] st1]
  end; cbn [fst snd trace fs browser csrfToken] in *;
    [|browser_path_has_no_spawn E].
  repeat match goal with
  | |- context [V1.logList ?h ?l ?s] =>
      let nl := fresh "nl" in let El := fresh "El" in let Fl := fresh "Fl" in
      let Ll := fresh "Ll" in let Sl := fresh "Sl" in
      let u := fresh "u" in let Hu := fresh "Hu" in let r := fresh "r" in
      let s' := fresh "st" in
      destruct (V1_logList_quiet h l s) as (nl & El & Fl);
      destruct (quiet_facts _ Fl) as (Ll & Sl);
      destruct (V1_logList_returns h l s) as [u Hu];
      destruct (V1.logList h l s) as [r s'];
      cbn [fst snd trace fs browser csrfToken] in *; subst r
  end.
  destruct (spawnOk E _); cbn [fst snd trace fs browser csrfToken]; intros _;
    (split; [reflexivity|]);
    repeat match goal with H : trace _ = _ |- _ => rewrite H; clear H end;
    count_it.
Qed.

(** X28.  In the first script the external command is run only at the end
    of the API path: a run whose trace holds the spawn of the command ends
    with exit status 0, whether or not the command succeeds, and never
    launches the browser; the browser path does not run the command. *)
Theorem V1_command_runs_only_after_the_api_path
        (E : Env) (files : list (string * string)) (slug : string) (ok : bool) :
  In (EvSpawn slug ok) (trace (snd (V1.run E (initial files)))) ->
  fst (V1.run E (initial files)) = Ok 0 /\
  count isLaunch (trace (snd (V1.run E (initial files)))) = 0.
Proof. apply V1_run_after_spawn. Qed.

Lemma V1_command_runs_only_after_the_api_path_witness :
  fst (V1.run (healthyEnv [pythonSnippet]) (initial [])) = Ok 0 /\
  count isLaunch (trace (snd (V1.run (healthyEnv [pythonSnippet]) (initial [])))) = 0.
Proof.
  assert (H : In (EvSpawn "trapping-rain-water" true)
                 (trace (snd (V1.run (healthyEnv [pythonSnippet]) (initial [])))))
    by (vm_compute; tauto).
  exact (V1_command_runs_only_after_the_api_path (healthyEnv [pythonSnippet]) []
           "trapping-rain-water" true H).
Defined.

(* ================================================================== *)
(** ** The scan of a generated python or ruby file *)

Lemma scan_first_statement_line (text : string) (rest : list string) :
  text <> EmptyString ->
  startsWithSpace text = false ->
  JS.includes "/*" text = false ->
  JS.startsWith "//" text = false ->
  JS.startsWith "#" text = false ->
  JS.startsWith "=begin" text = false ->
  JS.startsWith "=end" text = false ->
  JS.startsWith tripleQuote text = false ->
  V2.scanLines false (JS.splitLines text ++ rest) = true.
Proof.
  intros Hne Hsp Hblock H1 H2 H3 H4 H5. destruct text as [|c r]; [contradiction|].
  simpl in Hsp. destruct (first_line_trimmed c r Hsp) as (h & t & x & b & Hs & Ht & Hb).
  rewrite Hs. change ((String c h :: t) ++ rest)%list with (String c h :: (t ++ rest))%list.
  rewrite scanLines_cons, Ht.
  assert (Hpre : forall p, JS.startsWith p (String c r) = false ->
                           JS.startsWith p (String c x) = false).
  { intros p Hp. destruct (JS.startsWith p (String c x)) eqn:Hx; [|reflexivity].
    rewrite Hb, (startsWith_app _ _ b Hx) in Hp. discriminate. }
  assert (Hinc : JS.includes "/*" (String c x) = false).
  { destruct (JS.includes "/*" (String c x)) eqn:Hx; [|reflexivity].
    rewrite Hb, (includes_app_r _ _ b Hx) in Hblock. discriminate. }
  assert (Hq : (String c x =? tripleQuote)%string = false).
  { destruct (String.eqb_spec (String c x) tripleQuote) as [Heq|]; [|reflexivity].
    rewrite Hb, Heq, startsWith_self in H5. discriminate. }
  change ((String c x =? EmptyString)%string) with false. cbv iota.
  rewrite Hinc, (Hpre _ H1), (Hpre _ H2), (Hpre _ H3), (Hpre _ H4), Hq. reflexivity.
Qed.

(** X29.  For python and ruby the scan of [hasNonCommentContent] takes
    the body [formatProblemFile] builds for content, whatever the code,
    the empty code included, as soon as the statement's plain text is not
    empty, holds no slash-star, and does not begin with two slashes, a
    hash, the begin or end marker or three double quotes: the scan passes
    over the delimiter line and stops at the first line of the statement.
    A placeholder the script has written for these two languages is
    skipped by every later run, not updated. *)
Theorem scan_stops_at_the_statement_for_python_and_ruby
        (language problemContent code : string) :
  language = "python" \/ language = "ruby" ->
  V2.htmlToText problemContent <> EmptyString ->
  JS.includes "/*" (V2.htmlToText problemContent) = false ->
  JS.startsWith "//" (V2.htmlToText problemContent) = false ->
  JS.startsWith "#" (V2.htmlToText problemContent) = false ->
  JS.startsWith "=begin" (V2.htmlToText problemContent) = false ->
  JS.startsWith "=end" (V2.htmlToText problemContent) = false ->
  JS.startsWith tripleQuote (V2.htmlToText problemContent) = false ->
  V2.scanLines false (JS.splitLines (V2.formatProblemFile language problemContent code))
  = true.
Proof.
  intros Hl Hne Hblock H1 H2 H3 H4 H5.
  pose proof (scan_first_statement_line (V2.htmlToText problemContent)) as K.
  specialize (fun rest => K rest Hne (proj1 (trim_edges _)) Hblock H1 H2 H3 H4 H5).
  unfold V2.formatProblemFile. destruct Hl as [-> | ->].
  - change (match lookup "python" COMMENT_STYLES with
            | Some p => p
            | None => ("/*", "*/")
            end) with (tripleQuote, tripleQuote).
    cbv iota beta zeta. rewrite !append_assoc.
    change (tripleQuote ++ JS.nl ++ V2.htmlToText problemContent ++ JS.nl ++ tripleQuote
            ++ JS.nl ++ JS.nl ++ code)
      with (tripleQuote ++ JS.nl ++ (V2.htmlToText problemContent ++ JS.nl
                                     ++ (tripleQuote ++ JS.nl ++ JS.nl ++ code))).
    rewrite !splitLines_app.
    change (JS.splitLines tripleQuote) with [tripleQuote].
    cbn [app]. rewrite scanLines_cons.
    change (JS.trim tripleQuote) with tripleQuote.
    change ((tripleQuote =? EmptyString)%string) with false.
    change (JS.includes "/*" tripleQuote) with false.
    change (JS.startsWith "//" tripleQuote) with false.
    change (JS.startsWith "#" tripleQuote) with false.
    change (JS.startsWith "=begin" tripleQuote) with false.
    change (JS.startsWith "=end" tripleQuote) with false.
    change ((tripleQuote =? tripleQuote)%string) with true.
    cbv iota. cbn [orb]. apply K.
  - change (match lookup "ruby" COMMENT_STYLES with
            | Some p => p
            | None => ("/*", "*/")
            end) with ("=begin", "=end").
    cbv iota beta zeta. rewrite !append_assoc.
    change ("=begin" ++ JS.nl ++ V2.htmlToText problemContent ++ JS.nl ++ "=end"
            ++ JS.nl ++ JS.nl ++ code)
      with ("=begin" ++ JS.nl ++ (V2.htmlToText problemContent ++ JS.nl
                                  ++ ("=end" ++ JS.nl ++ JS.nl ++ code))).
    rewrite !splitLines_app.
    change (JS.splitLines "=begin") with ["=begin"].
    cbn [app]. rewrite scanLines_cons.
    change (JS.trim "=begin") with "=begin".
    change (("=begin" =? EmptyString)%string) with false.
    change (JS.includes "/*" "=begin") with false.
    change (JS.startsWith "//" "=begin") with false.
    change (JS.startsWith "#" "=begin") with false.
    change (JS.startsWith "=begin" "=begin") with true.
    cbv iota. cbn [orb]. apply K.
Qed.

Lemma scan_stops_at_the_statement_for_python_and_ruby_witness :
  V2.scanLines false
    (JS.splitLines (V2.formatProblemFile "python" "<p>Add two numbers.</p>" EmptyString))
  = true.
Proof.
  apply (scan_stops_at_the_statement_for_python_and_ruby "python"
           "<p>Add two numbers.</p>" EmptyString);
    first [now left | discriminate | reflexivity].
Defined.
